(** * Agon firmware update utility (agon-flash): model of [src/main.c]

    The development embeds the parts of [main.c] that implement the
    firmware integrity check and the two update paths:

    - the image validator [containsESP32Header];
    - the coprocessor handshake [vdp_ota_present] / [update_vdp];
    - the flash programming loop [update_mos].

    Machine integers are [Z] with their wrap-around written out.  Everything
    the program does to the outside world (I/O ports, the flash key
    register, the bulk copy, the timer, the MOS system variables) goes
    through an abstract [Platform]; the model logs each such action in a
    trace of [event]s.  Busy-wait loops and the other [while] loops take
    fuel, and running out of fuel is a failure of the model ([None]). *)

From Stdlib Require Import String Ascii DecimalString ZArith List Lia Bool.
Import ListNotations.
Local Open Scope Z_scope.

(** ** Machine integers *)

Definition wrap (bits x : Z) : Z := x mod 2 ^ bits.
Definition u8 := wrap 8.
Definition u16 := wrap 16.
Definition u24 := wrap 24.

(** ** Constants of [flash.h] and [main.c] *)

Definition BUFFER1 : Z := 0x50000.
Definition FLASHSIZE : Z := 0x20000.
Definition PAGESIZE : Z := 1024.
Definition FLASHPAGES : Z := 128.
Definition FLASHSTART : Z := 0x0.
Definition BLOCKSIZE : Z := 16384.
Definition UNLOCKMATCHLENGTH : Z := 9.
Definition ESP32_MAGICLENGTH : Z := 4.
Definition ESP32_MAGICSTART : Z := 0x20.
Definition esp32_magicnumbers : list Z := [0x32; 0x54; 0xCD; 0xAB].

(** Character codes of a string literal, and the two control characters the
    messages use. *)
Definition str (s : string) : list Z :=
  map (fun a => Z.of_N (N_of_ascii a)) (list_ascii_of_string s).
Definition CR : Z := 13.
Definition LF : Z := 10.

(** ** Streaming checksum module ([crc32.h])

    Modelled from the spec: the three routines [crc32_initialize], [crc32]
    and [crc32_finalize] are declared in [crc32.h] and implemented outside
    [main.c]; the spec fixes them as the standard reflected CRC-32
    (polynomial 0xEDB88320, initial value 0xFFFFFFFF, final XOR
    0xFFFFFFFF), computed here bit by bit. *)
Module Crc32.

Definition POLY : Z := 0xEDB88320.
Definition init : Z := 0xFFFFFFFF.

Definition step_bit (c : Z) : Z :=
  if Z.testbit c 0 then Z.lxor (Z.shiftr c 1) POLY else Z.shiftr c 1.

Definition step_byte (c b : Z) : Z :=
  Nat.iter 8 step_bit (Z.lxor c (Z.land b 0xFF)).

Definition feed (acc : Z) (bytes : list Z) : Z := fold_left step_byte bytes acc.

Definition finalize (acc : Z) : Z := Z.lxor acc 0xFFFFFFFF.

(** Feeding a list of chunks in order into one accumulator. *)
Definition feed_chunks (acc : Z) (chunks : list (list Z)) : Z :=
  fold_left feed chunks acc.

End Crc32.

(** ** Image validator *)

(** A [uint8_t *] is the map from an offset to the byte stored there. *)
Definition bytes_at := Z -> Z.

(** [for (n = 0; n < ESP32_MAGICLENGTH; n++)
       if (esp32_magicnumbers[n] != filestart[n]) match = false;]
    after [filestart += ESP32_MAGICSTART]. *)
Definition containsESP32Header (filestart : bytes_at) : bool :=
  let filestart := fun n => filestart (ESP32_MAGICSTART + n) in
  fold_left
    (fun match_ n =>
       if negb (nth n esp32_magicnumbers 0 =? filestart (Z.of_nat n))
       then false else match_)
    (seq 0 (Z.to_nat ESP32_MAGICLENGTH)) true.

(** ** Platform *)

(** The I/O ports [main.c] touches through [IO(...)]. *)
Inductive ioreg :=
| UART0_THR | UART0_LSR
| FLASH_PROT | FLASH_FDIV | FLASH_PAGE | FLASH_PGCTL.

(** What the program does to the outside world, in program order. *)
Inductive event :=
| EvDI                                  (* asm volatile("di") *)
| EvIn (r : ioreg) (v : Z)              (* a read of IO(r) that returned v *)
| EvOut (r : ioreg) (v : Z)             (* IO(r) = v *)
| EvFlashKey                            (* enableFlashKeyRegister() *)
| EvMemcpy (dst src size : Z)           (* fastmemcpy(dst, src, size) *)
| EvDelay (ms : Z)                      (* delayms(ms) *)
| EvScrChar (c : Z)                     (* getsysvar_scrchar() returned c *)
| EvFread (ptr got : Z)                 (* fread stored got bytes at ptr *)
| EvCrcInit                             (* crc32_initialize() *)
| EvCrc (ptr len : Z)                   (* crc32(ptr, len) *)
| EvCrcFinal (v : Z)                    (* crc32_finalize() returned v *)
| EvStartVDP (size : Z).                (* startVDPupdate(handle, size) *)

(** The hardware and the system software under the program.  Nothing is
    assumed about how the operations act on the machine state [W]. *)
Class Platform (W : Type) : Type := {
  hw_in : ioreg -> W -> Z * W;
  hw_out : ioreg -> Z -> W -> W;
  hw_flash_key : W -> W;
  hw_memcpy : Z -> Z -> Z -> W -> W;
  hw_delay : Z -> W -> W;
  hw_scrchar : W -> Z;
  hw_load : Z -> W -> Z;
  hw_store : Z -> list Z -> W -> W;
  hw_start_vdp : list Z -> Z -> W -> W
}.

(** An open file: its bytes and the read position. *)
Record FILE := { fdata : list Z; fpos : nat }.

(** What a call comes to: the value it returns, or the store outside an
    array (index and value) that it reached first.  After such a store
    the call has no result: what happens next depends on what the
    compiler placed behind the array, the loop counter for one. *)
Inductive outcome (A : Type) : Type :=
| Returned (a : A)
| Undefined (index value : Z).
Arguments Returned {A} a.
Arguments Undefined {A} index value.

Section Program.

Context {W : Type} `{Platform W}.

(** The machine state and the globals of [main.c] the update paths use;
    [ief] is the CPU's interrupt enable flag, [crc] the accumulator of the
    checksum module. *)
Record cstate := {
  plat : W;
  ief : bool;
  crc : Z;
  moscrc : Z;
  mosfilehandle : FILE;
  vdpfilehandle : FILE
}.

Definition set_plat (w : W) (s : cstate) : cstate :=
  {| plat := w; ief := ief s; crc := crc s; moscrc := moscrc s;
     mosfilehandle := mosfilehandle s; vdpfilehandle := vdpfilehandle s |}.
Definition set_ief (b : bool) (s : cstate) : cstate :=
  {| plat := plat s; ief := b; crc := crc s; moscrc := moscrc s;
     mosfilehandle := mosfilehandle s; vdpfilehandle := vdpfilehandle s |}.
Definition set_crc (c : Z) (s : cstate) : cstate :=
  {| plat := plat s; ief := ief s; crc := c; moscrc := moscrc s;
     mosfilehandle := mosfilehandle s; vdpfilehandle := vdpfilehandle s |}.
Definition set_mosfile (f : FILE) (s : cstate) : cstate :=
  {| plat := plat s; ief := ief s; crc := crc s; moscrc := moscrc s;
     mosfilehandle := f; vdpfilehandle := vdpfilehandle s |}.

(** *** The monad: state, trace, and failure on exhausted fuel *)

Definition M (A : Type) : Type := cstate -> option (A * list event * cstate).

Definition ret {A} (a : A) : M A := fun s => Some (a, [], s).

Definition bind {A B} (m : M A) (f : A -> M B) : M B :=
  fun s =>
    match m s with
    | None => None
    | Some (a, t1, s1) =>
        match f a s1 with
        | None => None
        | Some (b, t2, s2) => Some (b, t1 ++ t2, s2)
        end
    end.

Definition out_of_fuel {A} : M A := fun _ => None.

Notation "x <- c1 ;; c2" := (bind c1 (fun x => c2))
  (at level 61, c1 at next level, right associativity).
Notation "c1 ;; c2" := (bind c1 (fun _ => c2))
  (at level 61, right associativity).

(** [for (i = lo; i < lo + count; i++) acc = body(i, acc);] *)
Fixpoint for_loop {S} (count : nat) (i : Z) (body : Z -> S -> M S) (acc : S)
  : M S :=
  match count with
  | O => ret acc
  | Datatypes.S k => acc' <- body i acc ;; for_loop k (i + 1) body acc'
  end.

(** *** Primitive actions *)

(** [IO(r)] read and written; the ports are 8 bits wide. *)
Definition IO_read (r : ioreg) : M Z := fun s =>
  let (v, w) := hw_in r (plat s) in
  Some (u8 v, [EvIn r (u8 v)], set_plat w s).

Definition IO_write (r : ioreg) (v : Z) : M unit := fun s =>
  Some (tt, [EvOut r (u8 v)], set_plat (hw_out r (u8 v) (plat s)) s).

Definition di : M unit := fun s => Some (tt, [EvDI], set_ief false s).

Definition enableFlashKeyRegister : M unit := fun s =>
  Some (tt, [EvFlashKey], set_plat (hw_flash_key (plat s)) s).

Definition fastmemcpy (dst src size : Z) : M unit := fun s =>
  Some (tt, [EvMemcpy dst src size],
        set_plat (hw_memcpy dst src size (plat s)) s).

Definition delayms (ms : Z) : M unit := fun s =>
  Some (tt, [EvDelay ms], set_plat (hw_delay ms (plat s)) s).

Definition getsysvar_scrchar : M Z := fun s =>
  let c := u8 (hw_scrchar (plat s)) in Some (c, [EvScrChar c], s).

(** The first [n] elements of [l], or all of [l] if it has fewer. *)
Fixpoint take (n : Z) (l : list Z) : list Z :=
  match l with
  | [] => []
  | x :: l' => if 0 <? n then x :: take (n - 1) l' else []
  end.

(** [fread(ptr, 1, n, mosfilehandle)]: the next at most [n] bytes of the
    file are stored at [ptr]; the result is their number. *)
Definition fread_mos (ptr n : Z) : M Z := fun s =>
  let f := mosfilehandle s in
  let chunk := take n (skipn (fpos f) (fdata f)) in
  let got := Z.of_nat (length chunk) in
  Some (got, [EvFread ptr got],
        set_mosfile {| fdata := fdata f; fpos := (fpos f + length chunk)%nat |}
          (set_plat (hw_store ptr chunk (plat s)) s)).

(** Modelled from the spec: [getFileSize] is declared in [filesize.h] and
    implemented outside [main.c]; the spec asks of a firmware source a
    query for its total length.  [update_mos] and [update_vdp] keep the
    result in a [uint24_t]. *)
Definition getFileSize (f : FILE) : Z := u24 (Z.of_nat (length (fdata f))).

(** The [len] bytes of memory from address [ptr] on. *)
Definition mem_bytes (w : W) (ptr len : Z) : list Z :=
  map (fun i => u8 (hw_load (u24 (ptr + Z.of_nat i)) w)) (seq 0 (Z.to_nat len)).

Definition crc32_initialize : M unit := fun s =>
  Some (tt, [EvCrcInit], set_crc Crc32.init s).

Definition crc32 (ptr len : Z) : M unit := fun s =>
  Some (tt, [EvCrc ptr len],
        set_crc (Crc32.feed (crc s) (mem_bytes (plat s) ptr len)) s).

Definition crc32_finalize : M Z := fun s =>
  let v := Crc32.finalize (crc s) in Some (v, [EvCrcFinal v], s).

Definition startVDPupdate (f : FILE) (filesize : Z) : M unit := fun s =>
  Some (tt, [EvStartVDP filesize],
        set_plat (hw_start_vdp (fdata f) filesize (plat s)) s).

(** *** Console *)

(** [while (cond(IO(r)));] with an empty body. *)
Fixpoint wait_while (r : ioreg) (cond : Z -> bool) (fuel : nat) : M unit :=
  match fuel with
  | O => out_of_fuel
  | S k => v <- IO_read r ;; if cond v then wait_while r cond k else ret tt
  end.

Definition tx_busy (lsr : Z) : bool := Z.land lsr 0x40 =? 0.

(** [putch]: [while((IO(UART0_LSR) & 0x40) == 0); IO(UART0_THR) = c;] *)
Definition putch (fuel : nat) (c : Z) : M Z :=
  wait_while UART0_LSR tx_busy fuel ;;
  IO_write UART0_THR c ;;
  ret c.

(** [outstring]: [putch] of each character up to the terminating NUL. *)
Fixpoint outstring (fuel : nat) (s : list Z) : M unit :=
  match s with
  | [] => ret tt
  | c :: rest =>
      if c =? 0 then ret tt else putch fuel c ;; outstring fuel rest
  end.

Definition print_version (fuel : nat) : M unit :=
  outstring fuel (str "Agon firmware update utility v1.9" ++ [LF; CR; LF; CR]).

(** [sprintf] with [%d] and [%03d], for the non-negative values printed. *)
Definition fmt_d (n : Z) : list Z :=
  str (NilZero.string_of_int (Z.to_int n)).
Definition fmt_03d (n : Z) : list Z :=
  let d := fmt_d n in repeat 48 (3 - length d) ++ d.

(** *** Coprocessor handshake *)

Definition getCharAt (fuel : nat) (x y : Z) : M Z :=
  delayms 20 ;;
  putch fuel 23 ;;
  putch fuel 0 ;;
  putch fuel 131 ;;
  putch fuel (Z.land x 0xFF) ;;
  putch fuel (Z.land (Z.shiftr x 8) 0xFF) ;;
  putch fuel (Z.land y 0xFF) ;;
  putch fuel (Z.land (Z.shiftr y 8) 0xFF) ;;
  delayms 100 ;;
  getsysvar_scrchar.

(** The local [char test[UNLOCKMATCHLENGTH]] of [vdp_ota_present].  C gives
    no meaning to a store past the end of the array, nor to anything the
    program does after one.  [test] is the array at its declared length;
    [stray] is empty as long as every store fell inside it, and otherwise
    holds the store, index and value, at which the meaning of the run
    ends. *)
Record test_buffer := { test : list Z; stray : list (Z * Z) }.

Definition test_fresh : test_buffer :=
  {| test := repeat 0 (Z.to_nat UNLOCKMATCHLENGTH); stray := [] |}.

Fixpoint list_set (l : list Z) (n : nat) (v : Z) : list Z :=
  match l, n with
  | [], _ => []
  | _ :: l', O => v :: l'
  | x :: l', S k => x :: list_set l' k v
  end.

(** [test[n] = v]: a store inside the array updates it; one outside it
    is entered in [stray], and the run is not followed further (see
    [read_passes] and [vdp_ota_present]). *)
Definition test_store (n v : Z) (b : test_buffer) : test_buffer :=
  if (0 <=? n) && (n <? Z.of_nat (length (test b)))
  then {| test := list_set (test b) (Z.to_nat n) v; stray := stray b |}
  else {| test := test b; stray := stray b ++ [(n, v)] |}.

(** [memcmp(a, b, n)] *)
Fixpoint memcmp (a b : list Z) (n : nat) : Z :=
  match n with
  | O => 0
  | S k =>
      match a, b with
      | x :: a', y :: b' => if x =? y then memcmp a' b' k else x - y
      | _, _ => 0
      end
  end.

(** The first half of [vdp_ota_present]: the unlock command. *)
Definition send_unlock (fuel : nat) : M unit :=
  putch fuel 23 ;;
  putch fuel 0 ;;
  putch fuel 0xA1 ;;
  putch fuel 0 ;;
  outstring fuel (str "unlock").

(** The passes of
    [for(n = 0; n < UNLOCKMATCHLENGTH+1; n++) test[n] = getCharAt(n+8, 3);]
    from [n] on, [count] of them left to go, as far as C defines them: a
    pass whose store falls outside the array is the last one followed, and
    the buffer then carries that store in [stray]. *)
Fixpoint read_passes (fuel : nat) (count : nat) (n : Z) (b : test_buffer)
  : M test_buffer :=
  match count with
  | O => ret b
  | S k =>
      c <- getCharAt fuel (u16 (n + 8)) 3 ;;
      let b' := test_store n c b in
      match stray b' with
      | [] => read_passes fuel k (n + 1) b'
      | _ :: _ => ret b'
      end
  end.

(** The read loop of line 112, up to its end or to its first store
    outside [test]. *)
Definition read_response (fuel : nat) : M test_buffer :=
  read_passes fuel (Z.to_nat (UNLOCKMATCHLENGTH + 1)) 0 test_fresh.

(** [vdp_ota_present]: the comparison and the return are reached only
    when every store of the loop fell inside [test]. *)
Definition vdp_ota_present (fuel : nat) : M (outcome bool) :=
  send_unlock fuel ;;
  b <- read_response fuel ;;
  match stray b with
  | (n, v) :: _ => ret (Undefined n v)
  | [] =>
      if memcmp (test b) (str "unlocked!") (Z.to_nat UNLOCKMATCHLENGTH) =? 0
      then ret (Returned true) else ret (Returned false)
  end.

(** [update_vdp]: nothing after a call of [vdp_ota_present] without a
    result has one. *)
Definition update_vdp (fuel : nat) : M (outcome bool) :=
  putch fuel 12 ;;
  print_version fuel ;;
  outstring fuel (str "Unlocking VDP updater..." ++ [CR; LF]) ;;
  present <- vdp_ota_present fuel ;;
  match present with
  | Undefined n v => ret (Undefined n v)
  | Returned present =>
      if negb present then
        outstring fuel (str " failed - OTA not present in current VDP" ++ [CR; LF; CR; LF]) ;;
        outstring fuel (str "Program the VDP using Arduino / PlatformIO / esptool" ++ [CR; LF; CR; LF]) ;;
        ret (Returned false)
      else
        outstring fuel (str "Updating VDP firmware" ++ [CR; LF]) ;;
        f <- (fun s => Some (vdpfilehandle s, [], s)) ;;
        startVDPupdate f (getFileSize f) ;;
        ret (Returned true)
  end.

(** *** Flash programming *)

(** Lines 205-211: stage the image in RAM, checksumming each chunk. *)
Fixpoint read_loop (fuel0 fuel : nat) (ptr : Z) : M unit :=
  match fuel with
  | O => out_of_fuel
  | S k =>
      bytesread <- fread_mos ptr BLOCKSIZE ;;
      if 0 <? bytesread then
        crc32 ptr bytesread ;;
        putch fuel0 46 ;;
        read_loop fuel0 k (u24 (ptr + bytesread))
      else ret tt
  end.

Definition read_firmware (fuel : nat) : M Z :=
  crc32_initialize ;;
  read_loop fuel fuel BUFFER1 ;;
  crc32_finalize.

Definition erase_busy (pgctl : Z) : bool := negb (Z.land pgctl 0x02 =? 0).

(** Lines 234-243. *)
Definition unprotect_flash : M unit :=
  enableFlashKeyRegister ;;
  IO_write FLASH_PROT 0 ;;
  enableFlashKeyRegister ;;
  IO_write FLASH_FDIV 0x5F.

Definition erase_flash (fuel : nat) : M unit :=
  for_loop (Z.to_nat FLASHPAGES) 0
    (fun counter _ =>
       IO_write FLASH_PAGE counter ;;
       IO_write FLASH_PGCTL 0x02 ;;
       wait_while FLASH_PGCTL erase_busy fuel)
    tt.

(** Lines 247-252: [(pagemax, lastpagebytes)]. *)
Definition page_plan (filesize : Z) : Z * Z :=
  let pagemax := filesize / PAGESIZE in
  if negb (filesize mod PAGESIZE =? 0)
  then (u24 (pagemax + 1), filesize mod PAGESIZE)
  else (pagemax, PAGESIZE).

(** Lines 255-266; the loop carries [(addressto, addressfrom)]. *)
Definition write_pages (fuel : nat) (filesize : Z) : M (Z * Z) :=
  let '(pagemax, lastpagebytes) := page_plan filesize in
  for_loop (Z.to_nat pagemax) 0
    (fun counter '(addressto, addressfrom) =>
       outstring fuel ([CR] ++ str "Writing flash page " ++ fmt_03d (u24 (counter + 1))
                       ++ str "/" ++ fmt_03d pagemax) ;;
       (if counter =? u24 (pagemax - 1)
        then fastmemcpy addressto addressfrom lastpagebytes
        else fastmemcpy addressto addressfrom PAGESIZE) ;;
       ret (u24 (addressto + PAGESIZE), u24 (addressfrom + PAGESIZE)))
    (FLASHSTART, BUFFER1).

(** Lines 268-269. *)
Definition protect_flash : M unit :=
  enableFlashKeyRegister ;;
  IO_write FLASH_PROT 0xff.

(** Lines 273-275. *)
Definition verify_flash (filesize : Z) : M Z :=
  crc32_initialize ;;
  crc32 FLASHSTART filesize ;;
  crc32_finalize.

(** One pass through the body of [while((!success) && (attempt < 3))];
    the result is the new value of [success]. *)
Definition flash_attempt (fuel : nat) (filesize : Z) (success : bool)
    (attempt : Z) : M bool :=
  (if 0 <? attempt
   then outstring fuel (str "Retry attempt #" ++ fmt_d attempt ++ [CR; LF])
   else ret tt) ;;
  outstring fuel (str "Erasing flash... ") ;;
  unprotect_flash ;;
  erase_flash fuel ;;
  outstring fuel [CR; LF] ;;
  write_pages fuel filesize ;;
  protect_flash ;;
  outstring fuel ([CR; LF] ++ str "Checking CRC... ") ;;
  crcresult <- verify_flash filesize ;;
  expected <- (fun s => Some (moscrc s, [], s)) ;;
  if crcresult =? expected
  then outstring fuel (str "OK" ++ [CR; LF]) ;; ret true
  else outstring fuel (str "ERROR" ++ [CR; LF]) ;; ret success.

(** [while((!success) && (attempt < 3)) { ...; attempt++; }]; the result
    is the final [(success, attempt)]. *)
Fixpoint flash_loop (fuel0 fuel : nat) (filesize : Z) (success : bool)
    (attempt : Z) : M (bool * Z) :=
  match fuel with
  | O => out_of_fuel
  | S k =>
      if negb success && (attempt <? 3) then
        success' <- flash_attempt fuel0 filesize success attempt ;;
        flash_loop fuel0 k filesize success' (attempt + 1)
      else ret (success, attempt)
  end.

(** [update_mos], with the final value of [attempt] next to the result. *)
Definition update_mos_attempts (fuel : nat) : M (bool * Z) :=
  putch fuel 12 ;;
  print_version fuel ;;
  outstring fuel (str "Programming MOS firmware to ez80 flash..." ++ [CR; LF; CR; LF]) ;;
  outstring fuel (str "Reading MOS firmware") ;;
  filesize <- (fun s => Some (getFileSize (mosfilehandle s), [], s)) ;;
  crcresult <- read_firmware fuel ;;
  outstring fuel [CR; LF] ;;
  expected <- (fun s => Some (moscrc s, [], s)) ;;
  if negb (crcresult =? expected) then
    outstring fuel (str "Error reading file to memory" ++ [CR; LF]) ;;
    ret (false, 0)
  else
    outstring fuel [CR; LF] ;;
    di ;;
    r <- flash_loop fuel fuel filesize false 0 ;;
    outstring fuel [CR; LF] ;;
    ret r.

Definition update_mos (fuel : nat) : M bool :=
  r <- update_mos_attempts fuel ;; ret (fst r).

End Program.

Arguments cstate W : clear implicits.
Arguments M W A : clear implicits.

(** ** Views of a trace *)

(** The bytes sent to the coprocessor over the serial line. *)
Definition serial (t : list event) : list Z :=
  flat_map (fun e => match e with EvOut UART0_THR v => [v] | _ => [] end) t.

(** The characters read back from the screen. *)
Definition screen_reads (t : list event) : list Z :=
  flat_map (fun e => match e with EvScrChar c => [c] | _ => [] end) t.

(** An event of the serial console: a poll of the line status or a byte
    sent; the timer and the screen read-back belong to the console too. *)
Definition is_console (e : event) : bool :=
  match e with
  | EvIn UART0_LSR _ | EvOut UART0_THR _ | EvDelay _ | EvScrChar _ => true
  | _ => false
  end.

(** The trace without the console and without the polls of the erase
    flag: the operations on the CPU, the flash controller, the file and the
    checksum module. *)
Definition is_op (e : event) : bool :=
  match e with
  | EvIn _ _ => false
  | e => negb (is_console e)
  end.
Definition ops (t : list event) : list event := filter is_op t.

(** An operation that can change the flash or its protection. *)
Definition touches_flash (e : event) : bool :=
  match e with
  | EvFlashKey | EvMemcpy _ _ _ => true
  | EvOut FLASH_PROT _ | EvOut FLASH_FDIV _
  | EvOut FLASH_PAGE _ | EvOut FLASH_PGCTL _ => true
  | _ => false
  end.

Definition is_erase_start (e : event) : bool :=
  match e with EvOut FLASH_PGCTL 2 => true | _ => false end.

Definition is_di (e : event) : bool :=
  match e with EvDI => true | _ => false end.

Definition is_start_vdp (e : event) : bool :=
  match e with EvStartVDP _ => true | _ => false end.

(** The [(destination, source, size)] of each bulk copy. *)
Definition copies (t : list event) : list (Z * Z * Z) :=
  flat_map (fun e => match e with EvMemcpy d s n => [(d, s, n)] | _ => [] end) t.

Definition count (p : event -> bool) (t : list event) : nat :=
  length (filter p t).

(** ** A simulated board

    A concrete platform, for running the program: 128 KiB of flash at
    address 0 behind a key-protected protection register, page erase, a
    UART that is busy for one poll after each byte, and a coprocessor that
    reports one character of [s_vdp] per request.  [s_dead] is a fault: the
    flash cells no longer take an erase or a write. *)
Record sim := {
  s_mem : Z -> Z;
  s_key : bool;
  s_prot : Z;
  s_page : Z;
  s_erasing : bool;
  s_txfull : bool;
  s_dead : bool;
  s_scr : Z;
  s_vdp : list Z
}.

Definition sim_writable (w : sim) (a : Z) : bool :=
  negb (s_dead w) && (0 <=? a) && (a <? FLASHSIZE)
  && negb (Z.testbit (s_prot w) (a / 16384)).

Definition sim_with_mem (m : Z -> Z) (w : sim) : sim :=
  {| s_mem := m; s_key := s_key w; s_prot := s_prot w; s_page := s_page w;
     s_erasing := s_erasing w; s_txfull := s_txfull w; s_dead := s_dead w;
     s_scr := s_scr w; s_vdp := s_vdp w |}.

(** Bytes [bs] arrive at addresses [p], [p+1], ...: RAM takes them, flash
    takes them only where it is writable, and can only clear bits. *)
Definition sim_write (p : Z) (bs : list Z) (w : sim) : sim :=
  sim_with_mem
    (fun a =>
       if (p <=? a) && (a <? p + Z.of_nat (length bs)) then
         let v := nth (Z.to_nat (a - p)) bs 0 in
         if a <? FLASHSIZE
         then (if sim_writable w a then Z.land (s_mem w a) v else s_mem w a)
         else v
       else s_mem w a) w.

Definition sim_erase (w : sim) : sim :=
  sim_with_mem
    (fun a =>
       if (a / PAGESIZE =? s_page w) && sim_writable w a then 0xFF else s_mem w a) w.

Definition sim_in (r : ioreg) (w : sim) : Z * sim :=
  match r with
  | UART0_LSR =>
      (if s_txfull w then 0x20 else 0x60,
       {| s_mem := s_mem w; s_key := s_key w; s_prot := s_prot w;
          s_page := s_page w; s_erasing := s_erasing w; s_txfull := false;
          s_dead := s_dead w; s_scr := s_scr w; s_vdp := s_vdp w |})
  | FLASH_PGCTL =>
      (if s_erasing w then 0x02 else 0,
       {| s_mem := s_mem w; s_key := s_key w; s_prot := s_prot w;
          s_page := s_page w; s_erasing := false; s_txfull := s_txfull w;
          s_dead := s_dead w; s_scr := s_scr w; s_vdp := s_vdp w |})
  | FLASH_PROT => (s_prot w, w)
  | FLASH_PAGE => (s_page w, w)
  | _ => (0, w)
  end.

Definition sim_out (r : ioreg) (v : Z) (w : sim) : sim :=
  match r with
  | UART0_THR =>
      {| s_mem := s_mem w; s_key := s_key w; s_prot := s_prot w;
         s_page := s_page w; s_erasing := s_erasing w; s_txfull := true;
         s_dead := s_dead w; s_scr := s_scr w; s_vdp := s_vdp w |}
  | FLASH_PROT =>
      {| s_mem := s_mem w; s_key := false;
         s_prot := if s_key w then v else s_prot w;
         s_page := s_page w; s_erasing := s_erasing w; s_txfull := s_txfull w;
         s_dead := s_dead w; s_scr := s_scr w; s_vdp := s_vdp w |}
  | FLASH_FDIV =>
      {| s_mem := s_mem w; s_key := false; s_prot := s_prot w;
         s_page := s_page w; s_erasing := s_erasing w; s_txfull := s_txfull w;
         s_dead := s_dead w; s_scr := s_scr w; s_vdp := s_vdp w |}
  | FLASH_PAGE =>
      {| s_mem := s_mem w; s_key := s_key w; s_prot := s_prot w;
         s_page := v; s_erasing := s_erasing w; s_txfull := s_txfull w;
         s_dead := s_dead w; s_scr := s_scr w; s_vdp := s_vdp w |}
  | FLASH_PGCTL =>
      if Z.testbit v 1 then
        let w' := sim_erase w in
        {| s_mem := s_mem w'; s_key := s_key w; s_prot := s_prot w;
           s_page := s_page w; s_erasing := true; s_txfull := s_txfull w;
           s_dead := s_dead w; s_scr := s_scr w; s_vdp := s_vdp w |}
      else w
  | UART0_LSR => w
  end.

Definition sim_flash_key (w : sim) : sim :=
  {| s_mem := s_mem w; s_key := true; s_prot := s_prot w;
     s_page := s_page w; s_erasing := s_erasing w; s_txfull := s_txfull w;
     s_dead := s_dead w; s_scr := s_scr w; s_vdp := s_vdp w |}.

Definition sim_memcpy (dst src size : Z) (w : sim) : sim :=
  sim_write dst (map (fun i => s_mem w (src + Z.of_nat i)) (seq 0 (Z.to_nat size))) w.

(** The coprocessor answers a request during the 100 ms the program waits. *)
Definition sim_delay (ms : Z) (w : sim) : sim :=
  if ms =? 100 then
    match s_vdp w with
    | c :: rest =>
        {| s_mem := s_mem w; s_key := s_key w; s_prot := s_prot w;
           s_page := s_page w; s_erasing := s_erasing w; s_txfull := s_txfull w;
           s_dead := s_dead w; s_scr := c; s_vdp := rest |}
    | [] => w
    end
  else w.

#[export] Instance sim_platform : Platform sim := {
  hw_in := sim_in;
  hw_out := sim_out;
  hw_flash_key := sim_flash_key;
  hw_memcpy := sim_memcpy;
  hw_delay := sim_delay;
  hw_scrchar := s_scr;
  hw_load := fun a w => s_mem w a;
  hw_store := sim_write;
  hw_start_vdp := fun _ _ w => w
}.

(** A board with erased, protected flash; [dead] injects the fault and
    [vdp] is what the coprocessor will show on the screen. *)
Definition board (dead : bool) (vdp : list Z) : sim :=
  {| s_mem := fun _ => 0xFF; s_key := false; s_prot := 0xFF; s_page := 0;
     s_erasing := false; s_txfull := false; s_dead := dead;
     s_scr := 0; s_vdp := vdp |}.

(** A small image that starts with the MOS magic numbers. *)
Definition image : list Z := [0xF3; 0xED; 0x7D; 0x5B; 0xC3; 0x01; 0x02; 0x03].

Definition image_crc : Z := Crc32.finalize (Crc32.feed Crc32.init image).

(** The program state at the call of [update_mos] / [update_vdp]: files
    rewound, [moscrc] as [calculateCRC32] left it. *)
Definition session (w : sim) (expected : Z) : cstate sim :=
  {| plat := w; ief := true; crc := 0; moscrc := expected;
     mosfilehandle := {| fdata := image; fpos := 0 |};
     vdpfilehandle := {| fdata := image; fpos := 0 |} |}.

(** ** Vocabulary of the specifications *)

(** The characters [outstring] sends for a C string: those before the first
    NUL, each as the byte the port receives. *)
Fixpoint c_string (s : list Z) : list Z :=
  match s with
  | [] => []
  | c :: rest => if c =? 0 then [] else u8 c :: c_string rest
  end.

(** The trace of one busy-wait on port [r]: some reads on which the loop
    condition holds, then one on which it does not. *)
Definition wait_trace (r : ioreg) (cond : Z -> bool) (t : list event) : Prop :=
  exists vs v, t = map (EvIn r) (vs ++ [v])
               /\ forallb cond vs = true /\ cond v = false.

(** The erase of page [k]: select, start, wait. *)
Definition erase_page_trace (k : nat) (wait : list event) : list event :=
  [EvOut FLASH_PAGE (Z.of_nat k); EvOut FLASH_PGCTL 2] ++ wait.

(** The erase phase from page [k] on, given the polls of each of its
    waits. *)
Fixpoint erase_trace_from (k : nat) (waits : list (list event)) : list event :=
  match waits with
  | [] => []
  | w :: ws => erase_page_trace k w ++ erase_trace_from (S k) ws
  end.

Definition erase_trace (waits : list (list event)) : list event :=
  erase_trace_from 0 waits.

(** The operations of the four phases of an attempt. *)
Definition unprotect_ops : list event :=
  [EvFlashKey; EvOut FLASH_PROT 0; EvFlashKey; EvOut FLASH_FDIV 0x5F].

Definition erase_ops : list event :=
  flat_map (fun k => [EvOut FLASH_PAGE (Z.of_nat k); EvOut FLASH_PGCTL 2])
           (seq 0 (Z.to_nat FLASHPAGES)).

(** Page [k] of an image of [filesize] bytes: destination, source, length. *)
Definition page_copy (filesize : Z) (k : nat) : Z * Z * Z :=
  (PAGESIZE * Z.of_nat k, u24 (BUFFER1 + PAGESIZE * Z.of_nat k),
   if Z.of_nat k =? (filesize + PAGESIZE - 1) / PAGESIZE - 1
   then (if filesize mod PAGESIZE =? 0 then PAGESIZE else filesize mod PAGESIZE)
   else PAGESIZE).

Definition program_ops (filesize : Z) : list event :=
  map (fun k => let '(d, s, n) := page_copy filesize k in EvMemcpy d s n)
      (seq 0 (Z.to_nat ((filesize + PAGESIZE - 1) / PAGESIZE))).

Definition protect_ops : list event := [EvFlashKey; EvOut FLASH_PROT 0xFF].

Definition verify_ops (filesize v : Z) : list event :=
  [EvCrcInit; EvCrc FLASHSTART filesize; EvCrcFinal v].

(** The operations of one attempt on an image of [filesize] bytes whose
    verify pass computed [v]. *)
Definition attempt_ops (filesize v : Z) : list event :=
  unprotect_ops ++ erase_ops ++ program_ops filesize
  ++ protect_ops ++ verify_ops filesize v.

(** The checksums the run computed, in order: [update_mos] finalizes once
    after staging and once in the verify pass of each attempt. *)
Definition crc_results (t : list event) : list Z :=
  flat_map (fun e => match e with EvCrcFinal v => [v] | _ => [] end) t.

(** One round of the staging loop: a file read, or the checksum of a chunk. *)
Definition is_read (e : event) : bool :=
  match e with
  | EvFread _ _ | EvCrc _ _ => true
  | _ => false
  end.

(** How the retry loop ends when the verify passes computed [vs] and
    [expected] is the checksum to match: with success on the first match,
    or with failure after three mismatches. *)
Definition loop_outcome (expected : Z) (success : bool) (vs : list Z) : Prop :=
  (success = true
   /\ exists vs0, vs = vs0 ++ [expected]
                  /\ Forall (fun v => v <> expected) vs0
                  /\ (length vs <= 3)%nat)
  \/ (success = false
      /\ Forall (fun v => v <> expected) vs /\ length vs = 3%nat).

(** An operation of the staging pass: a file read or the checksum module. *)
Definition is_staging (e : event) : bool :=
  match e with
  | EvFread _ _ | EvCrcInit | EvCrc _ _ | EvCrcFinal _ => true
  | _ => false
  end.

(** The unlock command as it goes over the serial line. *)
Definition unlock_command : list Z := [23; 0; 0xA1; 0] ++ str "unlock".

(** The request for the character at column [x], row [y] of the screen. *)
Definition request_char (x y : Z) : list Z :=
  [23; 0; 131; u8 (Z.land x 0xFF); u8 (Z.land (Z.shiftr x 8) 0xFF);
   u8 (Z.land y 0xFF); u8 (Z.land (Z.shiftr y 8) 0xFF)].

(** The ten requests of [vdp_ota_present]: columns 8 to 17 of row 3. *)
Definition response_requests : list Z :=
  flat_map (fun n => request_char (Z.of_nat n + 8) 3) (seq 0 10).

(** Everything [update_vdp] sends over the serial line up to the last
    read of the response. *)
Definition update_vdp_serial : list Z :=
  [12] ++ str "Agon firmware update utility v1.9" ++ [LF; CR; LF; CR]
  ++ str "Unlocking VDP updater..." ++ [CR; LF]
  ++ unlock_command ++ response_requests.

(** How often [pat] occurs in [l] as a run of consecutive elements. *)
Fixpoint occurrences (pat l : list Z) : nat :=
  match l with
  | [] => 0
  | _ :: l' =>
      ((if list_eq_dec Z.eq_dec (firstn (length pat) l) pat then 1 else 0)
       + occurrences pat l')%nat
  end.

Section Specs.

Context {W : Type} `{Platform W}.

(** Total correctness: [m] returns from [s], and [Q] holds of the result,
    the trace and the final state. *)
Definition runs {A} (m : M W A) (s : cstate W)
    (Q : A -> list event -> cstate W -> Prop) : Prop :=
  exists a t s', m s = Some (a, t, s') /\ Q a t s'.

(** Everything in the program state but the machine. *)
Definition globals (s : cstate W) :=
  (ief s, crc s, moscrc s, mosfilehandle s, vdpfilehandle s).

(** Polling port [r] from [w], the loop condition fails within [n] reads. *)
Fixpoint settles (r : ioreg) (cond : Z -> bool) (n : nat) (w : W) : bool :=
  match n with
  | O => false
  | S k => let (v, w') := hw_in r w in
           if cond (u8 v) then settles r cond k w' else true
  end.

(** The hardware answers within [lat] polls: the UART frees its transmit
    register and the flash controller finishes an erase. *)
Definition responsive (lat : nat) : Prop :=
  (forall w, settles UART0_LSR tx_busy lat w = true)
  /\ (forall w, settles FLASH_PGCTL erase_busy lat w = true).

(** The checksum the verify pass computes when the machine is [w]. *)
Definition flash_crc (w : W) (filesize : Z) : Z :=
  Crc32.finalize (Crc32.feed Crc32.init (mem_bytes w FLASHSTART filesize)).

(** The bytes of the image file not yet read. *)
Definition unread (s : cstate W) : nat :=
  length (fdata (mosfilehandle s)) - fpos (mosfilehandle s).

(** The flash as the program can read it. *)
Definition flash_image (w : W) (a : Z) : Z := hw_load a w.

(** [I] is a condition of the machine under which reading the UART,
    writing to it, and storing to memory leave the flash as it is. *)
Definition flash_isolated (I : W -> Prop) : Prop :=
  (forall w, I w ->
     I (snd (hw_in UART0_LSR w))
     /\ forall a, 0 <= a < FLASHSIZE ->
                  flash_image (snd (hw_in UART0_LSR w)) a = flash_image w a)
  /\ (forall v w, I w ->
     I (hw_out UART0_THR v w)
     /\ forall a, 0 <= a < FLASHSIZE ->
                  flash_image (hw_out UART0_THR v w) a = flash_image w a)
  /\ (forall p bs w, I w ->
     I (hw_store p bs w)
     /\ forall a, 0 <= a < FLASHSIZE ->
                  flash_image (hw_store p bs w) a = flash_image w a).

(** The interrupt flag and the expected checksum: what no routine but
    [di] changes while [update_mos] runs. *)
Definition settings (s : cstate W) := (ief s, moscrc s).

(** What a console routine that sends [bytes] does: nothing but that. *)
Definition console_out (bytes : list Z) (s : cstate W) (t : list event)
    (s' : cstate W) : Prop :=
  ops t = [] /\ serial t = bytes /\ screen_reads t = []
  /\ globals s' = globals s.

(** From [s] to [s'] the flash reads the same, and [I] still holds. *)
Definition kept (I : W -> Prop) (s s' : cstate W) : Prop :=
  I (plat s) ->
  I (plat s')
  /\ forall a, 0 <= a < FLASHSIZE ->
               flash_image (plat s') a = flash_image (plat s) a.

End Specs.

(** ** The command line and the MOS image check *)

Definition MOS_MAGICLENGTH : Z := 5.
Definition mos_magicnumbers : list Z := [0xF3; 0xED; 0x7D; 0x5B; 0xC3].

(** [for(n = 0; n < MOS_MAGICLENGTH; n++)
       if(mos_magicnumbers[n] != filestart[n]) match = false;] *)
Definition containsMosHeader (filestart : bytes_at) : bool :=
  fold_left
    (fun match_ n =>
       if negb (nth n mos_magicnumbers 0 =? filestart (Z.of_nat n))
       then false else match_)
    (seq 0 (Z.to_nat MOS_MAGICLENGTH)) true.

Definition CMDUNKNOWN : Z := 0.
Definition CMDALL : Z := 1.
Definition CMDMOS : Z := 2.
Definition CMDVDP : Z := 3.
Definition CMDFORCE : Z := 4.
Definition CMDBATCH : Z := 5.

(** [memcmp(p, lit, sizeof lit)] for a pointer [p] and a literal. *)
Definition memcmp_at (p : bytes_at) (lit : list Z) : Z :=
  memcmp (map (fun i => p (Z.of_nat i)) (seq 0 (length lit))) lit (length lit).

(** [getCommand]: each keyword is compared together with its terminating
    NUL. *)
Definition getCommand (command : bytes_at) : Z :=
  if memcmp_at command (str "all" ++ [0]) =? 0 then CMDALL
  else if memcmp_at command (str "mos" ++ [0]) =? 0 then CMDMOS
  else if memcmp_at command (str "vdp" ++ [0]) =? 0 then CMDVDP
  else if memcmp_at command (str "batch" ++ [0]) =? 0 then CMDBATCH
  else if memcmp_at command (str "-f" ++ [0]) =? 0 then CMDFORCE
  else if memcmp_at command (str "force" ++ [0]) =? 0 then CMDFORCE
  else if memcmp_at command (str "-force" ++ [0]) =? 0 then CMDFORCE
  else CMDUNKNOWN.

Definition DEFAULT_MOSFIRMWARE : list Z := str "MOS.bin".
Definition DEFAULT_VDPFIRMWARE : list Z := str "firmware.bin".

(** The option globals of [main.c].  A file name is the C string in its
    256-byte array; [name_overrun] records that some [strcpy] went past the
    end of such an array, for which C gives no meaning. *)
Record options := {
  flashmos : bool;
  mosfilename : list Z;
  flashvdp : bool;
  vdpfilename : list Z;
  optbatch : bool;
  optforce : bool;
  name_overrun : bool
}.

(** The globals as the program starts. *)
Definition no_options : options :=
  {| flashmos := false; mosfilename := []; flashvdp := false;
     vdpfilename := []; optbatch := false; optforce := false;
     name_overrun := false |}.

(** The characters of the C string at [src] among its first [n] bytes, and
    whether the string is longer than that. *)
Fixpoint scan_string (src : bytes_at) (i : Z) (n : nat) : list Z * bool :=
  match n with
  | O => ([], true)
  | S k =>
      if src i =? 0 then ([], false)
      else let (cs, over) := scan_string src (i + 1) k in (src i :: cs, over)
  end.

(** [strcpy(name, src)] into a [char name[256]]: a string of up to 255
    characters and its NUL fit. *)
Definition strcpy_name (src : bytes_at) : list Z * bool :=
  scan_string src 0 256.

Definition set_mos_name (nm : list Z * bool) (o : options) : options :=
  {| flashmos := true; mosfilename := fst nm; flashvdp := flashvdp o;
     vdpfilename := vdpfilename o; optbatch := optbatch o;
     optforce := optforce o; name_overrun := name_overrun o || snd nm |}.

Definition set_vdp_name (nm : list Z * bool) (o : options) : options :=
  {| flashmos := flashmos o; mosfilename := mosfilename o; flashvdp := true;
     vdpfilename := fst nm; optbatch := optbatch o;
     optforce := optforce o; name_overrun := name_overrun o || snd nm |}.

(** [case CMDALL] and [case CMDBATCH] after their guard. *)
Definition set_all (batch : bool) (o : options) : options :=
  {| flashmos := true; mosfilename := DEFAULT_MOSFIRMWARE; flashvdp := true;
     vdpfilename := DEFAULT_VDPFIRMWARE;
     optbatch := if batch then true else optbatch o;
     optforce := if batch then true else optforce o;
     name_overrun := name_overrun o |}.

Definition set_force (o : options) : options :=
  {| flashmos := flashmos o; mosfilename := mosfilename o;
     flashvdp := flashvdp o; vdpfilename := vdpfilename o;
     optbatch := optbatch o; optforce := true;
     name_overrun := name_overrun o |}.

(** The loop of [parseCommands] over [argv[argcounter]], [argv[argcounter+1]],
    ...: [args] is what is left of [argv] from [argcounter] on. *)
Fixpoint parse_loop (args : list bytes_at) (o : options) : bool * options :=
  match args with
  | [] => (flashvdp o || flashmos o, o)
  | command :: rest =>
      let c := getCommand command in
      if c =? CMDUNKNOWN then (false, o)
      else if c =? CMDALL then
        if flashmos o || flashvdp o then (false, o)
        else parse_loop rest (set_all false o)
      else if c =? CMDMOS then
        if flashmos o then (false, o)
        else
          match rest with
          | next :: rest' =>
              if getCommand next =? CMDUNKNOWN
              then parse_loop rest' (set_mos_name (strcpy_name next) o)
              else parse_loop rest (set_mos_name (DEFAULT_MOSFIRMWARE, false) o)
          | [] => parse_loop rest (set_mos_name (DEFAULT_MOSFIRMWARE, false) o)
          end
      else if c =? CMDVDP then
        if flashvdp o then (false, o)
        else
          match rest with
          | next :: rest' =>
              if getCommand next =? CMDUNKNOWN
              then parse_loop rest' (set_vdp_name (strcpy_name next) o)
              else parse_loop rest (set_vdp_name (DEFAULT_VDPFIRMWARE, false) o)
          | [] => parse_loop rest (set_vdp_name (DEFAULT_VDPFIRMWARE, false) o)
          end
      else if c =? CMDBATCH then
        if optbatch o then (false, o)
        else parse_loop rest (set_all true o)
      else if c =? CMDFORCE then
        if optforce o && negb (optbatch o) then (false, o)
        else parse_loop rest (set_force o)
      else parse_loop rest o
  end.

(** [parseCommands(argc, argv)]; [argv[0]] is not looked at. *)
Definition parseCommands (argv : list bytes_at) (o : options) : bool * options :=
  parse_loop (tl argv) o.

(** The pointer to a buffer that holds [bytes], with [0] read beyond it. *)
Definition buffer_at (bytes : list Z) : bytes_at :=
  fun i => if i <? 0 then 0 else nth (Z.to_nat i) bytes 0.

(** A C string as an argument: its characters, the NUL and what follows. *)
Definition holds_string (p : bytes_at) (s : list Z) : Prop :=
  (forall i, (i < length s)%nat -> p (Z.of_nat i) = nth i s 0)
  /\ p (Z.of_nat (length s)) = 0
  /\ Forall (fun c => c <> 0) s.

(** ** More views of a trace *)

(** The [(address, count)] of each file read. *)
Definition freads (t : list event) : list (Z * Z) :=
  flat_map (fun e => match e with EvFread p g => [(p, g)] | _ => [] end) t.

(** The values written to the flash protection register. *)
Definition prot_writes (t : list event) : list Z :=
  flat_map (fun e => match e with EvOut FLASH_PROT v => [v] | _ => [] end) t.

(** File reads that fill memory upwards from [p] without a gap: each one
    stores where the one before ended (addresses are 24 bits wide). *)
Fixpoint contiguous (p : Z) (rs : list (Z * Z)) : Prop :=
  match rs with
  | [] => True
  | (q, g) :: rest => q = p /\ contiguous (u24 (p + g)) rest
  end.

(** The bytes read in all. *)
Definition total_read (rs : list (Z * Z)) : Z :=
  fold_right (fun r acc => snd r + acc) 0 rs.

(** Memory that returns what was just stored: after a block of at most
    [BLOCKSIZE] bytes is stored at [p], above the flash and within the
    24-bit address space, each of its bytes reads back. *)
Definition reads_back {W} `{Platform W} : Prop :=
  forall p bs (w : W) i,
    (i < length bs)%nat -> Z.of_nat (length bs) <= BLOCKSIZE ->
    FLASHSIZE <= p -> p + Z.of_nat (length bs) <= 2 ^ 24 ->
    u8 (hw_load (p + Z.of_nat i) (hw_store p bs w)) = u8 (nth i bs 0).

(** ** The steps of [main] around the two updates *)

Section Session.

Context {W : Type} `{Platform W}.

Local Notation "x <- c1 ;; c2" := (bind c1 (fun x => c2))
  (at level 61, c1 at next level, right associativity).
Local Notation "c1 ;; c2" := (bind c1 (fun _ => c2))
  (at level 61, right associativity).

Definition set_moscrc (c : Z) (s : cstate W) : cstate W :=
  {| plat := plat s; ief := ief s; crc := crc s; moscrc := c;
     mosfilehandle := mosfilehandle s; vdpfilehandle := vdpfilehandle s |}.

Definition set_vdpfile (f : FILE) (s : cstate W) : cstate W :=
  {| plat := plat s; ief := ief s; crc := crc s; moscrc := moscrc s;
     mosfilehandle := mosfilehandle s; vdpfilehandle := f |}.

(** [fseek(mosfilehandle, 0, SEEK_SET)] and the same for the VDP file. *)
Definition rewind_mos : M W unit := fun s =>
  Some (tt, [], set_mosfile {| fdata := fdata (mosfilehandle s); fpos := 0 |} s).

Definition rewind_vdp : M W unit := fun s =>
  Some (tt, [], set_vdpfile {| fdata := fdata (vdpfilehandle s); fpos := 0 |} s).

(** [fread(ptr, 1, n, vdpfilehandle)]. *)
Definition fread_vdp (ptr n : Z) : M W Z := fun s =>
  let f := vdpfilehandle s in
  let chunk := take n (skipn (fpos f) (fdata f)) in
  let got := Z.of_nat (length chunk) in
  Some (got, [EvFread ptr got],
        set_vdpfile {| fdata := fdata f; fpos := (fpos f + length chunk)%nat |}
          (set_plat (hw_store ptr chunk (plat s)) s)).

(** The bytes a [uint8_t *] with value [p] points to. *)
Definition mem_at (w : W) (p : Z) : bytes_at :=
  fun n => u8 (hw_load (u24 (p + n)) w).

(** [beep]: [while(number--) { putch(7); delayms(250); }].  The parameter
    is an [unsigned int], 24 bits wide on the eZ80: an argument is
    converted on the call, a negative one to a large count. *)
Definition beep (fuel : nat) (number : Z) : M W unit :=
  for_loop (Z.to_nat (u24 number)) 0
    (fun _ _ => putch fuel 7 ;; delayms 250) tt.

(** [echoVDP], as compiled with [DEBUG] 0. *)
Definition echoVDP (fuel : nat) (value : Z) : M W unit :=
  putch fuel 23 ;;
  putch fuel 0 ;;
  putch fuel 0xF9 ;;
  putch fuel 0x01 ;;
  putch fuel 0x01 ;;
  putch fuel 23 ;;
  putch fuel 0 ;;
  putch fuel 0x80 ;;
  putch fuel (u8 value) ;;
  putch fuel 23 ;;
  putch fuel 0 ;;
  putch fuel 0x86 ;;
  delayms 150.

(** [tolower] in the C locale. *)
Definition tolower (c : Z) : Z :=
  if (65 <=? c) && (c <=? 90) then c + 32 else c.

(** [while(again(response)) response = tolower(getch());] where [keys] are
    the keys still to come: [getch] takes the next one, and does not return
    when there is none.  The result is the last response and the keys left. *)
Fixpoint await_key (again : Z -> bool) (keys : list Z) (response : Z)
  : M W (Z * list Z) :=
  if again response then
    match keys with
    | [] => out_of_fuel
    | k :: rest => await_key again rest (u8 (tolower k))
    end
  else ret (response, keys).

(** [getResponse]; ['y'] is 121 and ['n'] is 110. *)
Definition getResponse (fuel : nat) (keys : list Z) : M W (bool * list Z) :=
  outstring fuel (str "Flash firmware (y/n)?") ;;
  r <- await_key (fun response => negb (response =? 121) && negb (response =? 110))
                 keys 0 ;;
  (if fst r =? 110
   then outstring fuel ([CR; LF] ++ str "User abort" ++ [LF; CR; LF; CR])
   else outstring fuel [CR; LF; CR; LF]) ;;
  ret (fst r =? 121, snd r).

Definition askEscapeToContinue (fuel : nat) (keys : list Z) : M W (list Z) :=
  outstring fuel (str "Press ESC to continue") ;;
  r <- await_key (fun response => negb (response =? 0x1B)) keys 0 ;;
  outstring fuel [CR; LF] ;;
  ret (snd r).

(** A step for which C gives no meaning has no result. *)
Definition no_meaning {A} : M W A := fun _ => None.

(** [sprintf(message, fmt, name)] for a format that puts [name] in double
    quotes and [tail] after it, into [char message[256]]: the text and its
    NUL have to fit. *)
Definition sprintf_quoted (name tail : list Z) : M W (list Z) :=
  let text := [34] ++ name ++ [34] ++ tail in
  if (length text <? 256)%nat then ret text else no_meaning.

(** [sprintf(message, ...); outstring(message); validfirmware = false;] *)
Definition complain (fuel : nat) (name tail : list Z) : M W bool :=
  message <- sprintf_quoted name tail ;;
  outstring fuel message ;;
  ret false.

(** Lines 418-432, the body of [if(flashmos)]. *)
Definition check_mos_file (fuel : nat) (o : options) : M W bool :=
  rewind_mos ;;
  fread_mos BUFFER1 MOS_MAGICLENGTH ;;
  header <- (fun s => Some (containsMosHeader (mem_at (plat s) BUFFER1), [], s)) ;;
  v1 <- (if negb header then
           complain fuel (mosfilename o)
             (str " does not contain valid MOS ez80 startup code" ++ [CR; LF])
         else ret true) ;;
  filesize <- (fun s => Some (getFileSize (mosfilehandle s), [], s)) ;;
  v2 <- (if FLASHSIZE <? filesize then
           complain fuel (mosfilename o)
             (str " too large for 128KB embedded flash" ++ [CR; LF])
         else ret v1) ;;
  rewind_mos ;;
  ret v2.

(** Lines 433-442, the body of [if(flashvdp)]; [buffer] is the address of
    the local array. *)
Definition check_vdp_file (fuel : nat) (o : options) (buffer : Z)
    (validfirmware : bool) : M W bool :=
  rewind_vdp ;;
  fread_vdp buffer (ESP32_MAGICLENGTH + ESP32_MAGICSTART) ;;
  header <- (fun s => Some (containsESP32Header (mem_at (plat s) buffer), [], s)) ;;
  v <- (if negb header then
          complain fuel (vdpfilename o)
            (str " does not contain valid ESP32 code" ++ [CR; LF])
        else ret validfirmware) ;;
  rewind_vdp ;;
  ret v.

Definition validFirmwareFiles (fuel : nat) (o : options) (buffer : Z)
  : M W bool :=
  validfirmware <- (if flashmos o then check_mos_file fuel o else ret true) ;;
  if flashvdp o then check_vdp_file fuel o buffer validfirmware
  else ret validfirmware.

(** The second loop of [calculateCRC32]: every block goes to [BUFFER1]. *)
Fixpoint read_loop_vdp (fuel0 fuel : nat) : M W unit :=
  match fuel with
  | O => out_of_fuel
  | S k =>
      bytesread <- fread_vdp BUFFER1 BLOCKSIZE ;;
      if 0 <? bytesread then
        crc32 BUFFER1 bytesread ;;
        putch fuel0 46 ;;
        read_loop_vdp fuel0 k
      else ret tt
  end.

(** Lines 462-475, the body of [if(flashmos)]: the loop is the staging
    loop of [update_mos]. *)
Definition crc_mos_file (fuel : nat) : M W unit :=
  rewind_mos ;;
  v <- read_firmware fuel ;;
  (fun s => Some (tt, [], set_moscrc v s)) ;;
  rewind_mos.

(** Lines 476-485, the body of [if(flashvdp)]; the result is [vdpcrc]. *)
Definition crc_vdp_file (fuel : nat) : M W Z :=
  rewind_vdp ;;
  crc32_initialize ;;
  read_loop_vdp fuel fuel ;;
  v <- crc32_finalize ;;
  rewind_vdp ;;
  ret v.

(** [calculateCRC32]; [moscrc] is in the state, the result is [vdpcrc]. *)
Definition calculateCRC32 (fuel : nat) (o : options) : M W Z :=
  (fun s => Some (tt, [], set_moscrc 0 s)) ;;
  outstring fuel (str "Calculating CRC") ;;
  (if flashmos o then crc_mos_file fuel else ret tt) ;;
  vdpcrc <- (if flashvdp o then crc_vdp_file fuel else ret 0) ;;
  outstring fuel [CR; LF; CR; LF] ;;
  ret vdpcrc.

End Session.

(** The CRC-32 of a whole byte string. *)
Definition crc_of (bs : list Z) : Z :=
  Crc32.finalize (Crc32.feed Crc32.init bs).

(** The bytes of the VDP file not yet read. *)
Definition unread_vdp {W} (s : cstate W) : nat :=
  length (fdata (vdpfilehandle s)) - fpos (vdpfilehandle s).

(** The bytes sent and the pauses, in order. *)
Definition is_step (e : event) : bool :=
  match e with
  | EvOut UART0_THR _ | EvDelay _ => true
  | _ => false
  end.
Definition steps (t : list event) : list event := filter is_step t.

(** A key as [getch] returns it: a byte. *)
Definition is_key (k : Z) : Prop := 0 <= k < 256.

(** * Proofs *)

(** ** Checksum module *)

Lemma feed_app (acc : Z) (a b : list Z) :
  Crc32.feed acc (a ++ b) = Crc32.feed (Crc32.feed acc a) b.
Proof. unfold Crc32.feed. apply fold_left_app. Qed.

Example crc32_check_value :
  Crc32.finalize (Crc32.feed Crc32.init (str "123456789")) = 0xCBF43926.
Proof. vm_compute. reflexivity. Qed.

(** C6: feeding the chunks of any split of a byte sequence, empty chunks
    included, into a fresh accumulator and finalizing gives the checksum of
    the whole sequence fed in one call. *)
Theorem crc32_chunking_independent (chunks : list (list Z)) :
  Crc32.finalize (Crc32.feed_chunks Crc32.init chunks)
  = Crc32.finalize (Crc32.feed Crc32.init (concat chunks)).
Proof.
f_equal. unfold Crc32.feed_chunks. generalize Crc32.init as acc.
induction chunks as [|c chunks IH]; intros acc; cbn [fold_left concat].
- reflexivity.
- rewrite feed_app. apply IH.
Qed.

(** ** Image validator *)

Lemma containsESP32Header_unfold (buf : bytes_at) :
  containsESP32Header buf
  = (0x32 =? buf 0x20) && (0x54 =? buf 0x21)
    && (0xCD =? buf 0x22) && (0xAB =? buf 0x23).
Proof.
  unfold containsESP32Header.
  change (seq 0 (Z.to_nat ESP32_MAGICLENGTH)) with [0; 1; 2; 3]%nat.
  cbv [fold_left nth esp32_magicnumbers].
  change (ESP32_MAGICSTART + Z.of_nat 0) with 0x20.
  change (ESP32_MAGICSTART + Z.of_nat 1) with 0x21.
  change (ESP32_MAGICSTART + Z.of_nat 2) with 0x22.
  change (ESP32_MAGICSTART + Z.of_nat 3) with 0x23.
  destruct (0x32 =? buf 0x20), (0x54 =? buf 0x21), (0xCD =? buf 0x22),
    (0xAB =? buf 0x23); reflexivity.
Qed.

Lemma containsESP32Header_true (buf : bytes_at) :
  containsESP32Header buf = true
  <-> map buf [0x20; 0x21; 0x22; 0x23] = esp32_magicnumbers.
Proof.
  rewrite containsESP32Header_unfold. unfold esp32_magicnumbers. simpl map.
  rewrite !andb_true_iff, !Z.eqb_eq. split.
  - intros [[[-> ->] ->] ->]. reflexivity.
  - intros E. injection E as -> -> -> ->. auto.
Qed.

(** C9: [containsESP32Header] is true exactly when the bytes at offsets 0x20
    to 0x23 are 0x32, 0x54, 0xCD, 0xAB; two buffers that agree on these four
    offsets get the same answer; and a buffer that differs from an accepted
    one in one byte of that range is rejected. *)
Theorem containsESP32Header_exact :
  (forall buf, containsESP32Header buf = true
               <-> map buf [0x20; 0x21; 0x22; 0x23] = [0x32; 0x54; 0xCD; 0xAB])
  /\ (forall buf buf',
        (forall o, 0x20 <= o <= 0x23 -> buf o = buf' o) ->
        containsESP32Header buf = containsESP32Header buf')
  /\ (forall buf buf' o,
        containsESP32Header buf = true ->
        0x20 <= o <= 0x23 -> buf' o <> buf o ->
        (forall o', o' <> o -> buf' o' = buf o') ->
        containsESP32Header buf' = false).
Proof.
  split; [|split].
  - intros buf. apply containsESP32Header_true.
  - intros buf buf' E. rewrite !containsESP32Header_unfold.
    rewrite (E 0x20), (E 0x21), (E 0x22), (E 0x23) by lia. reflexivity.
  - intros buf buf' o Hb Ho Hd Hs.
    apply containsESP32Header_true in Hb. simpl in Hb.
    injection Hb as H0 H1 H2 H3.
    rewrite containsESP32Header_unfold.
    assert (o = 0x20 \/ o = 0x21 \/ o = 0x22 \/ o = 0x23) as Hc by lia.
    destruct Hc as [-> | [-> | [-> | ->]]];
      [rewrite H0 in Hd | rewrite H1 in Hd | rewrite H2 in Hd | rewrite H3 in Hd];
      apply not_eq_sym, Z.eqb_neq in Hd; rewrite Hd;
      rewrite ?andb_false_r; reflexivity.
Qed.

(** ** Traces *)

Lemma ops_app (a b : list event) : ops (a ++ b) = ops a ++ ops b.
Proof. apply filter_app. Qed.

Lemma serial_app (a b : list event) : serial (a ++ b) = serial a ++ serial b.
Proof. apply flat_map_app. Qed.

Lemma screen_reads_app (a b : list event) :
  screen_reads (a ++ b) = screen_reads a ++ screen_reads b.
Proof. apply flat_map_app. Qed.

Lemma copies_app (a b : list event) : copies (a ++ b) = copies a ++ copies b.
Proof. apply flat_map_app. Qed.

Create Rewrite HintDb views.
#[local] Hint Rewrite ops_app serial_app screen_reads_app app_nil_r app_nil_l
  : views.

Lemma polls_views (r : ioreg) (vs : list Z) :
  ops (map (EvIn r) vs) = [] /\ serial (map (EvIn r) vs) = []
  /\ screen_reads (map (EvIn r) vs) = [].
Proof. induction vs as [|v vs (IH1 & IH2 & IH3)]; simpl; auto. Qed.

Lemma wait_trace_views r cond t :
  wait_trace r cond t -> ops t = [] /\ serial t = [] /\ screen_reads t = [].
Proof. intros (vs & v & -> & _). apply polls_views. Qed.

Lemma firstn_exact {A} (n : nat) (a b : list A) :
  length a = n -> firstn n (a ++ b) = a.
Proof.
  intros <-. now rewrite firstn_app, Nat.sub_diag, firstn_all, app_nil_r.
Qed.

(** ** Running the monad *)

Section Reasoning.

Context {W : Type} `{Platform W}.

Lemma runs_ret {A} (a : A) (s : cstate W) Q : Q a [] s -> runs (ret a) s Q.
Proof. intros HQ. now exists a, [], s. Qed.

Lemma runs_bind {A B} (m : M W A) (f : A -> M W B) (s : cstate W) Q :
  runs m s (fun a t1 s1 => runs (f a) s1 (fun b t2 s2 => Q b (t1 ++ t2) s2)) ->
  runs (bind m f) s Q.
Proof.
  intros (a & t1 & s1 & E1 & b & t2 & s2 & E2 & HQ).
  exists b, (t1 ++ t2), s2. unfold bind. now rewrite E1, E2.
Qed.

Lemma runs_weaken {A} (m : M W A) (s : cstate W) (Q Q' : A -> list event -> cstate W -> Prop) :
  runs m s Q -> (forall a t s', Q a t s' -> Q' a t s') -> runs m s Q'.
Proof. intros (a & t & s' & E & HQ) HI. exists a, t, s'. auto. Qed.

Lemma runs_with_eq {A} (m : M W A) (s : cstate W) Q :
  runs m s Q -> runs m s (fun a t s' => m s = Some (a, t, s') /\ Q a t s').
Proof. intros (a & t & s' & E & HQ). exists a, t, s'. auto. Qed.

(** The invariant rule of the counted loop: [I k] holds before iteration
    [k] of the accumulator, the trace so far and the state. *)
Lemma for_loop_runs {S} (I : nat -> S -> list event -> cstate W -> Prop)
    (body : Z -> S -> M W S) (i0 : Z) (count : nat) :
  (forall k acc t s, (k < count)%nat -> I k acc t s ->
     runs (body (i0 + Z.of_nat k) acc) s
          (fun acc' t' s' => I (Datatypes.S k) acc' (t ++ t') s')) ->
  forall acc s, I O acc [] s ->
  runs (for_loop count i0 body acc) s (fun acc' t s' => I count acc' t s').
Proof.
  intros Hstep.
  assert (G : forall n k acc t0 s, (k + n = count)%nat -> I k acc t0 s ->
            runs (for_loop n (i0 + Z.of_nat k) body acc) s
                 (fun acc' t s' => I count acc' (t0 ++ t) s')).
  { induction n as [|n IH]; intros k acc t0 s Hk HI; simpl.
    - apply runs_ret. rewrite app_nil_r. now replace count with k by lia.
    - apply runs_bind. eapply runs_weaken; [apply Hstep; [lia | exact HI]|].
      intros acc' t' s' HI'. cbv beta.
      replace (i0 + Z.of_nat k + 1) with (i0 + Z.of_nat (Datatypes.S k)) by lia.
      eapply runs_weaken; [apply (IH (Datatypes.S k)); [lia | exact HI']|].
      intros a t s'' HQ. cbv beta. now rewrite app_assoc. }
  intros acc s HI. specialize (G count O acc [] s).
  rewrite Z.add_0_r in G. apply G; [lia | exact HI].
Qed.

(** *** Busy-waits and the console *)

Lemma wait_while_runs r cond n :
  forall fuel (s : cstate W),
    settles r cond n (plat s) = true -> (n <= fuel)%nat ->
    runs (wait_while r cond fuel) s
         (fun _ t s' => wait_trace r cond t /\ globals s' = globals s).
Proof.
  induction n as [|n IH]; intros fuel s Hs Hf; simpl in Hs; [discriminate|].
  destruct fuel as [|fuel]; [lia|]. simpl.
  unfold runs, bind, IO_read.
  destruct (hw_in r (plat s)) as [v w'] eqn:E.
  destruct (cond (u8 v)) eqn:C.
  - destruct (IH fuel (set_plat w' s) Hs ltac:(lia))
      as (a & t & s' & Et & (vs & v' & -> & Hvs & Hv') & Hg).
    rewrite Et. exists a, ([EvIn r (u8 v)] ++ map (EvIn r) (vs ++ [v'])), s'.
    split; [reflexivity|]. split; [|exact Hg].
    exists (u8 v :: vs), v'. simpl. rewrite C. auto.
  - exists tt, ([EvIn r (u8 v)] ++ []), (set_plat w' s).
    split; [reflexivity|]. split; [|reflexivity].
    exists [], (u8 v). simpl. auto.
Qed.

Variable lat : nat.
Hypothesis Hlive : responsive lat.

Lemma putch_runs fuel c (s : cstate W) :
  (lat <= fuel)%nat ->
  runs (putch fuel c) s (fun r t s' => r = c /\ console_out [u8 c] s t s').
Proof.
  intros Hf. unfold putch.
  apply runs_bind. eapply runs_weaken.
  { apply (wait_while_runs _ _ lat); [apply Hlive | exact Hf]. }
  intros [] t s1 (Hw & Hg). cbv beta.
  apply wait_trace_views in Hw. destruct Hw as (Ho & Hs & Hr).
  do 3 eexists. split; [reflexivity|]. split; [reflexivity|].
  unfold console_out. autorewrite with views.
  rewrite Ho, Hs, Hr. simpl. repeat split. exact Hg.
Qed.

Lemma outstring_runs fuel cs :
  (lat <= fuel)%nat ->
  forall s : cstate W,
    runs (outstring fuel cs) s (fun _ t s' => console_out (c_string cs) s t s').
Proof.
  intros Hf. induction cs as [|c cs IH]; intros s; simpl.
  - apply runs_ret. repeat split.
  - destruct (c =? 0).
    + apply runs_ret. repeat split.
    + apply runs_bind. eapply runs_weaken; [apply putch_runs; exact Hf|].
      intros r t s1 (_ & Ho & Hs & Hr & Hg). cbv beta.
      eapply runs_weaken; [apply IH|].
      intros [] t2 s2 (Ho2 & Hs2 & Hr2 & Hg2). unfold console_out.
      autorewrite with views. rewrite Ho, Hs, Hr, Ho2, Hs2, Hr2.
      repeat split. congruence.
Qed.

Lemma globals_set_plat w (s : cstate W) : globals (set_plat w s) = globals s.
Proof. reflexivity. Qed.

(** A step of a proof about a sequence: a primitive action is run, a
    routine with a specification is replaced by it. *)
Ltac prim := do 3 eexists; split; [reflexivity | cbv beta].
Ltac bind_prim := apply runs_bind; prim.
Ltac bind_putch Hf :=
  apply runs_bind; eapply runs_weaken; [apply putch_runs; exact Hf|];
  let r := fresh "r" in let t := fresh "t" in let s := fresh "s" in
  let Ho := fresh "Ho" in let Hs := fresh "Hs" in
  let Hr := fresh "Hr" in let Hg := fresh "Hg" in
  intros r t s (_ & Ho & Hs & Hr & Hg); cbv beta.
Ltac bind_outstring Hf :=
  apply runs_bind; eapply runs_weaken; [apply outstring_runs; exact Hf|];
  let r := fresh "r" in let t := fresh "t" in let s := fresh "s" in
  let Ho := fresh "Ho" in let Hs := fresh "Hs" in
  let Hr := fresh "Hr" in let Hg := fresh "Hg" in
  intros r t s (Ho & Hs & Hr & Hg); cbv beta.
Ltac views :=
  autorewrite with views;
  repeat match goal with
    | E : ops ?t = _ |- context [ops ?t] => rewrite E
    | E : serial ?t = _ |- context [serial ?t] => rewrite E
    | E : screen_reads ?t = _ |- context [screen_reads ?t] => rewrite E
    end;
  rewrite ?app_nil_l, ?app_nil_r.
Ltac globals :=
  repeat match goal with
    | E : globals ?s = _ |- context [globals ?s] => rewrite E
    | |- context [globals (set_plat _ _)] => rewrite globals_set_plat
    end.

(** *** Coprocessor handshake *)

Lemma getCharAt_runs fuel x y (s : cstate W) :
  (lat <= fuel)%nat ->
  runs (getCharAt fuel x y) s
       (fun c t s' => ops t = [] /\ serial t = request_char x y
                      /\ screen_reads t = [c] /\ globals s' = globals s).
Proof.
  intros Hf. unfold getCharAt.
  bind_prim. do 7 bind_putch Hf. bind_prim. prim.
  views. simpl. repeat split. globals. reflexivity.
Qed.

Lemma memcmp_zero (a b : list Z) :
  length a = length b ->
  (memcmp a b (length a) =? 0) = true <-> a = b.
Proof.
  revert b. induction a as [|x a IH]; intros [|y b] Hl; simpl in *;
    try discriminate.
  - split; reflexivity.
  - destruct (x =? y) eqn:E.
    + apply Z.eqb_eq in E. subst y. rewrite IH by lia.
      split; [now intros -> | now intros [= ->]].
    + apply Z.eqb_neq in E. rewrite Z.eqb_eq.
      split; [lia | intros [= -> _]; lia].
Qed.

(** The read loop stores the ten characters it reads at [test[0]] to
    [test[9]]: the first nine fill the array, the tenth falls behind it. *)
Lemma read_response_runs fuel (s : cstate W) :
  (lat <= fuel)%nat ->
  runs (read_response fuel) s
       (fun b t s' =>
          exists cs c9,
            screen_reads t = cs ++ [c9] /\ length cs = 9%nat
            /\ test b = cs /\ stray b = [(9, c9)]
            /\ ops t = [] /\ serial t = response_requests
            /\ globals s' = globals s).
Proof.
  intros Hf. unfold read_response.
  change (Z.to_nat (UNLOCKMATCHLENGTH + 1)) with 10%nat.
  unfold test_fresh. change (Z.to_nat UNLOCKMATCHLENGTH) with 9%nat.
  cbn [repeat].
  do 10 (cbn [read_passes]; apply runs_bind;
         eapply runs_weaken; [apply getCharAt_runs; exact Hf|];
         let c := fresh "c" in let t := fresh "t" in let s := fresh "s" in
         let Ho := fresh "Ho" in let Hs := fresh "Hs" in
         let Hr := fresh "Hr" in let Hg := fresh "Hg" in
         intros c t s (Ho & Hs & Hr & Hg); cbv beta zeta;
         cbv [test_store test stray length Z.of_nat Pos.of_succ_nat Pos.succ
              Z.leb Z.ltb Z.compare Pos.compare Pos.compare_cont andb
              Z.to_nat Pos.to_nat Pos.iter_op Nat.add list_set Z.add
              Pos.add Pos.add_carry app]).
  apply runs_ret.
  exists [c; c0; c1; c2; c3; c4; c5; c6; c7], c8.
  views. globals. repeat split.
Qed.

Lemma send_unlock_runs fuel (s : cstate W) :
  (lat <= fuel)%nat ->
  runs (send_unlock fuel) s (fun _ t s' => console_out unlock_command s t s').
Proof.
  intros Hf. unfold send_unlock.
  do 4 bind_putch Hf.
  eapply runs_weaken; [apply outstring_runs; exact Hf|].
  intros [] tx sx (Hox & Hsx & Hrx & Hgx). unfold console_out.
  views. globals. repeat split.
Qed.

Lemma vdp_ota_present_runs fuel (s : cstate W) :
  (lat <= fuel)%nat ->
  runs (vdp_ota_present fuel) s
       (fun present t s' =>
          exists cs c9,
            screen_reads t = cs ++ [c9] /\ length cs = 9%nat
            /\ present = Undefined 9 c9
            /\ ops t = [] /\ serial t = unlock_command ++ response_requests
            /\ globals s' = globals s).
Proof.
  intros Hf. unfold vdp_ota_present.
  apply runs_bind. eapply runs_weaken; [apply send_unlock_runs; exact Hf|].
  intros [] t1 s1 (Ho1 & Hs1 & Hr1 & Hg1). cbv beta.
  apply runs_bind. eapply runs_weaken; [apply read_response_runs; exact Hf|].
  intros b t2 s2 (cs & c9 & Hr2 & Hl & _ & Hb & Ho2 & Hs2 & Hg2). cbv beta.
  rewrite Hb. apply runs_ret. exists cs, c9.
  views. globals. repeat split; assumption.
Qed.

(** [update_vdp] always comes to the store past [test], before anything
    is compared: by then it has sent the unlock command and the ten
    requests, and nothing else has happened. *)
Lemma update_vdp_runs fuel (s : cstate W) :
  (lat <= fuel)%nat ->
  runs (update_vdp fuel) s
       (fun r t s' =>
          exists cs c9,
            screen_reads t = cs ++ [c9] /\ length cs = 9%nat
            /\ r = Undefined 9 c9
            /\ ops t = [] /\ serial t = update_vdp_serial
            /\ globals s' = globals s).
Proof.
  intros Hf. unfold update_vdp, print_version.
  bind_putch Hf. do 2 bind_outstring Hf.
  apply runs_bind. eapply runs_weaken; [apply vdp_ota_present_runs; exact Hf|].
  intros present t3 s3 (cs & c9 & Hr3 & Hl & -> & Ho3 & Hs3 & Hg3). cbv beta.
  apply runs_ret. exists cs, c9.
  views. globals. repeat split; assumption.
Qed.

(** *** Staging *)

Lemma globals_settings (s s' : cstate W) :
  globals s' = globals s -> settings s' = settings s.
Proof. unfold globals, settings. congruence. Qed.

Lemma globals_unread (s s' : cstate W) :
  globals s' = globals s -> unread s' = unread s.
Proof. unfold globals, unread. congruence. Qed.

Ltac settings :=
  repeat match goal with
    | E : globals ?s = globals _ |- _ => apply globals_settings in E
    | E : settings ?s = _ |- context [settings ?s] => rewrite E
    end.

Lemma take_length n l : (length (take n l) <= length l)%nat.
Proof.
  revert n. induction l as [|x l IH]; intros n; cbn [take length]; [lia|].
  destruct (0 <? n); cbn [length]; [specialize (IH (n - 1))|]; lia.
Qed.

Lemma read_loop_runs fuel0 :
  (lat <= fuel0)%nat ->
  forall fuel ptr (s : cstate W),
    (unread s < fuel)%nat ->
    runs (read_loop fuel0 fuel ptr) s
         (fun _ t s' => forallb is_read (ops t) = true
                        /\ settings s' = settings s).
Proof.
  intros Hf. induction fuel as [|fuel IH]; intros ptr s Hu; [lia|].
  cbn [read_loop]. bind_prim.
  set (chunk := take BLOCKSIZE
                  (skipn (fpos (mosfilehandle s)) (fdata (mosfilehandle s)))).
  destruct (0 <? Z.of_nat (length chunk)) eqn:E.
  - apply Z.ltb_lt in E.
    bind_prim. bind_putch Hf.
    eapply runs_weaken.
    { apply IH. rewrite (globals_unread _ _ Hg). unfold unread in *. simpl.
      assert (length chunk <= length (fdata (mosfilehandle s))
                              - fpos (mosfilehandle s))%nat.
      { unfold chunk. rewrite <- length_skipn. apply take_length. }
      lia. }
    intros [] t2 s2 (Hst & Hset). views. simpl. split; [exact Hst|].
    settings. reflexivity.
  - apply runs_ret. split; reflexivity.
Qed.

(** *** Erase *)

Lemma erase_trace_from_snoc ws : forall k w,
  erase_trace_from k (ws ++ [w])
  = erase_trace_from k ws ++ erase_page_trace (k + length ws) w.
Proof.
  induction ws as [|w0 ws IH]; intros k w.
  - simpl. now rewrite Nat.add_0_r, app_nil_r.
  - cbn [app erase_trace_from length]. rewrite IH, <- app_assoc.
    now replace (Datatypes.S k + length ws)%nat
      with (k + Datatypes.S (length ws))%nat by lia.
Qed.

Lemma erase_trace_from_ops ws : forall k,
  Forall (wait_trace FLASH_PGCTL erase_busy) ws ->
  ops (erase_trace_from k ws)
  = flat_map (fun k => [EvOut FLASH_PAGE (Z.of_nat k); EvOut FLASH_PGCTL 2])
             (seq k (length ws)).
Proof.
  induction ws as [|w ws IH]; intros k Hw; simpl; [reflexivity|].
  inversion Hw as [|? ? Hw1 Hw2]; subst.
  apply wait_trace_views in Hw1. destruct Hw1 as (Ho & _).
  rewrite ops_app, Ho, IH by assumption. reflexivity.
Qed.

Lemma u8_small x : 0 <= x < 256 -> u8 x = x.
Proof. intros Hx. unfold u8, wrap. now apply Z.mod_small. Qed.

Lemma erase_flash_runs fuel (s : cstate W) :
  (lat <= fuel)%nat ->
  runs (erase_flash fuel) s
       (fun _ t s' =>
          (exists waits, length waits = Z.to_nat FLASHPAGES
                         /\ Forall (wait_trace FLASH_PGCTL erase_busy) waits
                         /\ t = erase_trace waits)
          /\ globals s' = globals s).
Proof.
  intros Hf. unfold erase_flash.
  eapply runs_weaken.
  { apply (for_loop_runs
             (fun k (_ : unit) t s' =>
                (exists waits, length waits = k
                               /\ Forall (wait_trace FLASH_PGCTL erase_busy) waits
                               /\ t = erase_trace waits)
                /\ globals s' = globals s)).
    - intros k [] t s1 Hk ((waits & Hl & Hw & ->) & Hg).
      change (Z.to_nat FLASHPAGES) with 128%nat in Hk.
      bind_prim. bind_prim.
      eapply runs_weaken.
      { apply (wait_while_runs _ _ lat); [apply Hlive | exact Hf]. }
      intros [] tw s2 (Htw & Hg2). cbv beta. split.
      + exists (waits ++ [tw]). split; [rewrite length_app; simpl; lia|].
        split; [apply Forall_app; auto|].
        unfold erase_trace. rewrite erase_trace_from_snoc.
        unfold erase_page_trace. simpl. rewrite Hl.
        rewrite u8_small by lia. reflexivity.
      + rewrite Hg2. simpl. exact Hg.
    - split; [|reflexivity]. exists []. repeat split. constructor. }
  intros [] t s' HI. exact HI.
Qed.

(** *** Program *)

Lemma u24_small x : 0 <= x < 2 ^ 24 -> u24 x = x.
Proof. intros Hx. unfold u24, wrap. now apply Z.mod_small. Qed.

Lemma u24_add_l x y : u24 (u24 x + y) = u24 (x + y).
Proof. unfold u24, wrap. now rewrite Z.add_mod_idemp_l by lia. Qed.

Lemma page_count_bounds filesize :
  0 <= filesize < 2 ^ 24 ->
  0 <= (filesize + PAGESIZE - 1) / PAGESIZE <= 16384.
Proof.
  intros Hs. unfold PAGESIZE. split.
  - apply Z.div_pos; lia.
  - apply Z.lt_succ_r, Z.div_lt_upper_bound; lia.
Qed.

Lemma page_plan_spec filesize :
  0 <= filesize < 2 ^ 24 ->
  page_plan filesize
  = ((filesize + PAGESIZE - 1) / PAGESIZE,
     if filesize mod PAGESIZE =? 0 then PAGESIZE else filesize mod PAGESIZE).
Proof.
  intros Hs. unfold page_plan, PAGESIZE.
  pose proof (Z.div_mod filesize 1024 ltac:(lia)) as Hd.
  pose proof (Z.mod_pos_bound filesize 1024 ltac:(lia)) as Hm.
  assert (0 <= filesize / 1024 < 16384) as Hq.
  { split; [apply Z.div_pos; lia | apply Z.div_lt_upper_bound; lia]. }
  destruct (filesize mod 1024 =? 0) eqn:E; cbn [negb]; f_equal.
  - apply Z.eqb_eq in E.
    apply (Z.div_unique _ _ _ 1023); lia.
  - apply Z.eqb_neq in E. rewrite u24_small by lia.
    apply (Z.div_unique _ _ _ (filesize mod 1024 - 1)); lia.
Qed.

Lemma write_pages_runs fuel filesize (s : cstate W) :
  (lat <= fuel)%nat -> 0 <= filesize < 2 ^ 24 ->
  runs (write_pages fuel filesize) s
       (fun _ t s' => ops t = program_ops filesize /\ globals s' = globals s).
Proof.
  intros Hf Hs. unfold write_pages. rewrite page_plan_spec by exact Hs.
  pose proof (page_count_bounds filesize Hs) as HP.
  set (P := (filesize + PAGESIZE - 1) / PAGESIZE) in *.
  set (last := if filesize mod PAGESIZE =? 0 then PAGESIZE
               else filesize mod PAGESIZE).
  eapply runs_weaken.
  { apply (for_loop_runs
             (fun k (acc : Z * Z) t s' =>
                fst acc = u24 (PAGESIZE * Z.of_nat k)
                /\ snd acc = u24 (BUFFER1 + PAGESIZE * Z.of_nat k)
                /\ ops t = map (fun k => let '(d, s, n) := page_copy filesize k
                                         in EvMemcpy d s n) (seq 0 k)
                /\ globals s' = globals s)).
    - intros k [ato afrom] t s1 Hk (Hto & Hfrom & Hops & Hg).
      cbn [fst snd] in Hto, Hfrom.
      assert (Hk' : 0 <= Z.of_nat k < P) by lia.
      bind_outstring Hf.
      assert (Hato : ato = PAGESIZE * Z.of_nat k).
      { rewrite Hto. apply u24_small. unfold PAGESIZE. lia. }
      assert (Htest : (0 + Z.of_nat k =? u24 (P - 1)) = (Z.of_nat k =? P - 1)).
      { rewrite u24_small by lia. reflexivity. }
      rewrite Htest.
      assert (Hnext : forall n,
                 ops ((t ++ t0 ++ [EvMemcpy ato afrom n] ++ []))
                 = map (fun k => let '(d, s, n) := page_copy filesize k
                                 in EvMemcpy d s n) (seq 0 k)
                   ++ [EvMemcpy ato afrom n]).
      { intros n. views. reflexivity. }
      assert (Hpc : page_copy filesize k
                    = (ato, afrom, if Z.of_nat k =? P - 1 then last else PAGESIZE)).
      { unfold page_copy. fold P. fold last. now rewrite Hato, Hfrom. }
      destruct (Z.of_nat k =? P - 1) eqn:E; bind_prim; apply runs_ret;
        cbn [fst snd]; rewrite Hnext, seq_S, map_app; cbn [map Nat.add];
        rewrite Hpc; (split; [|split; [|split; [reflexivity|]]]).
      all: try (rewrite Hto, u24_add_l; f_equal; lia).
      all: try (rewrite Hfrom, u24_add_l; f_equal; lia).
      all: rewrite globals_set_plat; congruence.
    - cbn [fst snd]. repeat split. }
  intros [ato afrom] t s' (_ & _ & Hops & Hg). split; [|exact Hg].
  rewrite Hops. unfold program_ops. fold P. reflexivity.
Qed.

(** *** One attempt *)

Lemma erase_trace_ops waits :
  length waits = Z.to_nat FLASHPAGES ->
  Forall (wait_trace FLASH_PGCTL erase_busy) waits ->
  ops (erase_trace waits) = erase_ops.
Proof.
  intros Hl Hw. unfold erase_trace, erase_ops.
  rewrite erase_trace_from_ops by exact Hw. now rewrite Hl.
Qed.

Lemma flash_attempt_runs fuel filesize success attempt (s : cstate W) :
  (lat <= fuel)%nat -> 0 <= filesize < 2 ^ 24 ->
  runs (flash_attempt fuel filesize success attempt) s
       (fun ok t s' =>
          exists w pre waits post,
            t = pre ++ erase_trace waits ++ post
            /\ length waits = Z.to_nat FLASHPAGES
            /\ Forall (wait_trace FLASH_PGCTL erase_busy) waits
            /\ ops pre = unprotect_ops
            /\ ops post = program_ops filesize ++ protect_ops
                          ++ verify_ops filesize (flash_crc w filesize)
            /\ ok = (if flash_crc w filesize =? moscrc s then true else success)
            /\ settings s' = settings s).
Proof.
  intros Hf Hs. unfold flash_attempt.
  apply runs_bind. eapply runs_weaken.
  { instantiate (1 := fun _ t s' => ops t = [] /\ globals s' = globals s).
    destruct (0 <? attempt).
    - eapply runs_weaken; [apply outstring_runs; exact Hf|].
      intros [] t s' (Ho & _ & _ & Hg). auto.
    - apply runs_ret. auto. }
  intros [] tb sb (Hob & Hgb). cbv beta.
  bind_outstring Hf.
  unfold unprotect_flash. apply runs_bind.
  bind_prim. bind_prim. bind_prim. prim.
  apply runs_bind. eapply runs_weaken; [apply erase_flash_runs; exact Hf|].
  intros [] te se ((waits & Hl & Hw & ->) & Hge). cbv beta.
  bind_outstring Hf.
  apply runs_bind. eapply runs_weaken; [apply write_pages_runs; [exact Hf | exact Hs]|].
  intros acc tp sp (Hop & Hgp). cbv beta.
  unfold protect_flash. apply runs_bind. bind_prim. prim.
  bind_outstring Hf.
  unfold verify_flash. apply runs_bind. bind_prim. bind_prim. prim.
  bind_prim.
  cbn [crc set_crc plat moscrc].
  fold (flash_crc (plat s2) filesize).
  rewrite !globals_set_plat in *.
  assert (Hg2 : globals s2 = globals s) by congruence.
  assert (Hm : moscrc s2 = moscrc s) by (unfold globals in Hg2; congruence).
  rewrite Hm.
  destruct (flash_crc (plat s2) filesize =? moscrc s) eqn:E;
    bind_outstring Hf; apply runs_ret;
    exists (plat s2),
      (tb ++ t ++ [EvFlashKey; EvOut FLASH_PROT (u8 0); EvFlashKey;
                   EvOut FLASH_FDIV (u8 95)]),
      waits,
      (t0 ++ tp ++ [EvFlashKey; EvOut FLASH_PROT (u8 255)] ++ t1
       ++ verify_ops filesize (flash_crc (plat s2) filesize) ++ t2);
    (split; [unfold verify_ops; rewrite <- ?app_assoc, ?app_nil_r;
             cbn [app]; reflexivity|]);
    (split; [exact Hl|]); (split; [exact Hw|]);
    (split; [views; reflexivity|]);
    (split; [views; reflexivity|]);
    (split; [rewrite E; reflexivity|]);
    apply globals_settings in Hg3; rewrite Hg3;
    exact (globals_settings _ _ Hg2).
Qed.

Lemma flash_attempt_ops fuel filesize success attempt (s : cstate W) :
  (lat <= fuel)%nat -> 0 <= filesize < 2 ^ 24 ->
  runs (flash_attempt fuel filesize success attempt) s
       (fun ok t s' =>
          exists w,
            ops t = attempt_ops filesize (flash_crc w filesize)
            /\ ok = (if flash_crc w filesize =? moscrc s then true else success)
            /\ settings s' = settings s).
Proof.
  intros Hf Hs. eapply runs_weaken; [apply flash_attempt_runs; eassumption|].
  intros ok t s' (w & pre & waits & post & -> & Hl & Hw & Hpre & Hpost & Hok & Hset).
  exists w. split; [|auto].
  rewrite !ops_app, Hpre, Hpost, erase_trace_ops by assumption.
  reflexivity.
Qed.


(** *** The retry loop *)

Lemma flash_loop_runs fuel0 filesize :
  (lat <= fuel0)%nat -> 0 <= filesize < 2 ^ 24 ->
  forall n fuel attempt (s : cstate W),
    0 <= attempt <= 3 -> n = Z.to_nat (3 - attempt) -> (n < fuel)%nat ->
    runs (flash_loop fuel0 fuel filesize false attempt) s
         (fun r t s' =>
            exists vs,
              ops t = flat_map (attempt_ops filesize) vs
              /\ snd r = attempt + Z.of_nat (length vs)
              /\ snd r <= 3
              /\ ((fst r = true
                   /\ exists vs0, vs = vs0 ++ [moscrc s]
                                  /\ Forall (fun v => v <> moscrc s) vs0)
                  \/ (fst r = false /\ snd r = 3
                      /\ Forall (fun v => v <> moscrc s) vs))
              /\ settings s' = settings s).
Proof.
  intros Hf Hs. induction n as [|n IH]; intros fuel attempt s Ha Hn Hfuel.
  - assert (attempt = 3) by lia. subst attempt.
    destruct fuel as [|fuel]; [lia|]. cbn [flash_loop negb andb].
    change (3 <? 3) with false. apply runs_ret.
    exists []. cbn [fst snd length flat_map]. repeat split; try lia.
    right. repeat split. constructor.
  - assert (Ha' : 0 <= attempt < 3) by lia.
    destruct fuel as [|fuel]; [lia|]. cbn [flash_loop negb andb].
    replace (attempt <? 3) with true by (symmetry; apply Z.ltb_lt; lia).
    apply runs_bind. eapply runs_weaken; [apply flash_attempt_ops; eassumption|].
    intros ok t s1 (w & Hops & Hok & Hset). cbv beta.
    assert (Hm : moscrc s1 = moscrc s) by (unfold settings in Hset; congruence).
    destruct (flash_crc w filesize =? moscrc s) eqn:E; subst ok.
    + apply Z.eqb_eq in E.
      destruct fuel as [|fuel]; [lia|].
      exists (true, attempt + 1), [], s1. split; [reflexivity|].
      exists [flash_crc w filesize]. cbn [fst snd length flat_map].
      rewrite !app_nil_r. split; [exact Hops|].
      split; [lia|]. split; [lia|]. split; [|exact Hset].
      left. split; [reflexivity|]. exists []. rewrite E. split; [reflexivity|constructor].
    + apply Z.eqb_neq in E.
      eapply runs_weaken; [apply IH; [lia | lia | lia]|].
      intros r t2 s2 (vs & Hops2 & Hsnd & Hle & Hout & Hset2).
      exists (flash_crc w filesize :: vs). cbn [length flat_map].
      rewrite ops_app, Hops, Hops2. split; [reflexivity|].
      split; [lia|]. split; [exact Hle|]. rewrite Hm in Hout.
      split; [|congruence].
      destruct Hout as [(Hr & vs0 & -> & Hvs0) | (Hr & H3 & Hvs)].
      * left. split; [exact Hr|]. exists (flash_crc w filesize :: vs0).
        split; [reflexivity|]. constructor; assumption.
      * right. repeat split; try assumption. constructor; assumption.
Qed.

(** *** The whole of [update_mos] *)

Lemma read_firmware_runs fuel (s : cstate W) :
  (lat <= fuel)%nat -> (unread s < fuel)%nat ->
  runs (read_firmware fuel) s
       (fun v t s' =>
          exists reads,
            ops t = [EvCrcInit] ++ reads ++ [EvCrcFinal v]
            /\ forallb is_read reads = true
            /\ settings s' = settings s).
Proof.
  intros Hf Hu. unfold read_firmware. bind_prim.
  apply runs_bind. eapply runs_weaken; [apply read_loop_runs; [exact Hf | exact Hu]|].
  intros [] t s1 (Hr & Hset). cbv beta. prim.
  exists (ops t). split; [|split; [exact Hr | exact Hset]].
  now rewrite !ops_app.
Qed.

Lemma getFileSize_range f : 0 <= getFileSize f < 2 ^ 24.
Proof. unfold getFileSize, u24, wrap. apply Z.mod_pos_bound. lia. Qed.

Lemma update_mos_attempts_runs fuel (s : cstate W) :
  (lat <= fuel)%nat -> (unread s < fuel)%nat -> (3 < fuel)%nat ->
  runs (update_mos_attempts fuel) s
       (fun r t s' =>
          exists reads staged vs,
            forallb is_read reads = true
            /\ ops t = [EvCrcInit] ++ reads ++ [EvCrcFinal staged]
                       ++ (if staged =? moscrc s
                           then EvDI :: flat_map (attempt_ops (getFileSize (mosfilehandle s))) vs
                           else [])
            /\ snd r = Z.of_nat (length vs)
            /\ (if staged =? moscrc s
                then loop_outcome (moscrc s) (fst r) vs /\ ief s' = false
                else vs = [] /\ fst r = false /\ ief s' = ief s)
            /\ moscrc s' = moscrc s).
Proof.
  intros Hf Hu H3. unfold update_mos_attempts, print_version.
  bind_putch Hf. do 3 bind_outstring Hf. bind_prim.
  assert (Hg4 : globals s3 = globals s) by congruence.
  assert (Hfile : mosfilehandle s3 = mosfilehandle s)
    by (unfold globals in Hg4; congruence).
  rewrite Hfile.
  apply runs_bind. eapply runs_weaken.
  { apply read_firmware_runs; [exact Hf|].
    now rewrite (globals_unread _ _ Hg4). }
  intros staged tr sr (reads & Hops & Hreads & Hset). cbv beta.
  bind_outstring Hf. bind_prim.
  assert (Hsetr : settings s4 = settings s).
  { apply globals_settings in Hg3, Hg4. congruence. }
  assert (Hm : moscrc s4 = moscrc s) by (unfold settings in Hsetr; congruence).
  rewrite Hm.
  destruct (staged =? moscrc s) eqn:E; cbn [negb].
  - bind_outstring Hf. bind_prim.
    apply runs_bind. eapply runs_weaken.
    { apply (flash_loop_runs fuel _ Hf (getFileSize_range _) 3%nat);
        [lia | reflexivity | exact H3]. }
    intros [ok n] tl sl (vs & Hopsl & Hn & Hle & Hout & Hsetl).
    cbn [fst snd] in *. cbv beta.
    bind_outstring Hf. apply runs_ret.
    exists reads, staged, vs. rewrite E. cbn [fst snd].
    split; [exact Hreads|].
    split; [views; cbn [ops filter is_op is_console negb]; rewrite <- ?app_assoc;
            reflexivity|].
    split; [lia|].
    apply globals_settings in Hg5, Hg6. unfold settings in *. cbn in Hsetl, Hg5.
    assert (Hms : moscrc s5 = moscrc s) by congruence.
    split; [split; [|congruence] | congruence].
    cbn [moscrc set_ief] in Hout. rewrite Hms in Hout.
    destruct Hout as [(-> & vs0 & -> & Hvs0) | (-> & Hn3 & Hvs)].
    + left. split; [reflexivity|]. exists vs0. repeat split; try assumption.
      rewrite length_app in *. cbn [length] in *. lia.
    + right. repeat split; try assumption. lia.
  - bind_outstring Hf. apply runs_ret.
    exists reads, staged, []. rewrite E. cbn [fst snd length].
    split; [exact Hreads|].
    split; [views; rewrite <- ?app_assoc, ?app_nil_r; reflexivity|].
    split; [reflexivity|].
    apply globals_settings in Hg5. unfold settings in *.
    split; [repeat split|]; congruence.
Qed.

Lemma update_mos_runs fuel (s : cstate W) Q :
  runs (update_mos_attempts fuel) s (fun r t s' => Q (fst r) t s') ->
  runs (update_mos fuel) s Q.
Proof.
  intros Hr. unfold update_mos. apply runs_bind.
  eapply runs_weaken; [exact Hr|].
  intros r t s' HQ. cbv beta. apply runs_ret. now rewrite app_nil_r.
Qed.

Lemma update_mos_result_runs fuel (s : cstate W) :
  (lat <= fuel)%nat -> (unread s < fuel)%nat -> (3 < fuel)%nat ->
  runs (update_mos fuel) s
       (fun ok t s' =>
          exists reads staged vs,
            forallb is_read reads = true
            /\ ops t = [EvCrcInit] ++ reads ++ [EvCrcFinal staged]
                       ++ (if staged =? moscrc s
                           then EvDI :: flat_map (attempt_ops (getFileSize (mosfilehandle s))) vs
                           else [])
            /\ (if staged =? moscrc s
                then loop_outcome (moscrc s) ok vs /\ ief s' = false
                else vs = [] /\ ok = false /\ ief s' = ief s)).
Proof.
  intros Hf Hu H3. apply update_mos_runs.
  eapply runs_weaken; [apply update_mos_attempts_runs; assumption|].
  intros [ok n] t s' (reads & staged & vs & Hreads & Hops & _ & Hcase & _).
  exists reads, staged, vs. auto.
Qed.

End Reasoning.

(** ** The flash is left alone where the program does not address it *)

Section Isolation.

Context {W : Type} `{Platform W}.
Variable I : W -> Prop.
Hypothesis HI : flash_isolated I.

Lemma kept_refl (s : cstate W) : kept I s s.
Proof. intros Hs. auto. Qed.

Lemma kept_trans (s1 s2 s3 : cstate W) :
  kept I s1 s2 -> kept I s2 s3 -> kept I s1 s3.
Proof.
  intros H12 H23 H1. destruct (H12 H1) as (H2 & E12).
  destruct (H23 H2) as (H3' & E23). split; [exact H3'|].
  intros a Ha. now rewrite E23, E12.
Qed.

Lemma bind_inv {A B} (m : M W A) (f : A -> M W B) s b t s2 :
  bind m f s = Some (b, t, s2) ->
  exists a t1 s1 t2,
    m s = Some (a, t1, s1) /\ f a s1 = Some (b, t2, s2) /\ t = t1 ++ t2.
Proof.
  unfold bind. destruct (m s) as [[[a t1] s1]|]; [|discriminate].
  destruct (f a s1) as [[[b' t2] s2']|] eqn:E2; [|discriminate].
  intros [= <- <- <-]. now exists a, t1, s1, t2.
Qed.

Lemma wait_uart_kept fuel : forall (s : cstate W) r t s',
  wait_while UART0_LSR tx_busy fuel s = Some (r, t, s') -> kept I s s'.
Proof.
  induction fuel as [|fuel IH]; intros s r t s' E; [discriminate|].
  cbn [wait_while] in E. apply bind_inv in E.
  destruct E as (v & t1 & s1 & t2 & E1 & E2 & ->).
  assert (K1 : kept I s s1).
  { unfold IO_read in E1. destruct HI as (Hin & _).
    specialize (Hin (plat s)).
    destruct (hw_in UART0_LSR (plat s)) as [v0 w]. injection E1 as _ _ <-.
    intros Hs. apply (Hin Hs). }
  destruct (tx_busy v).
  - eapply kept_trans; [exact K1 | eapply IH; exact E2].
  - injection E2 as _ _ <-. exact K1.
Qed.

Lemma putch_kept fuel c (s : cstate W) r t s' :
  putch fuel c s = Some (r, t, s') -> kept I s s'.
Proof.
  unfold putch. intros E. apply bind_inv in E.
  destruct E as ([] & t1 & s1 & t2 & E1 & E2 & ->).
  apply wait_uart_kept in E1.
  apply bind_inv in E2. destruct E2 as ([] & t3 & s3 & t4 & E3 & E4 & ->).
  injection E3 as _ <-. injection E4 as _ _ <-.
  eapply kept_trans; [exact E1|].
  intros Hs. destruct HI as (_ & Hout & _). apply (Hout _ _ Hs).
Qed.

Lemma outstring_kept fuel cs : forall (s : cstate W) r t s',
  outstring fuel cs s = Some (r, t, s') -> kept I s s'.
Proof.
  induction cs as [|c cs IH]; intros s r t s' E; cbn [outstring] in E.
  - injection E as _ _ <-. apply kept_refl.
  - destruct (c =? 0).
    + injection E as _ _ <-. apply kept_refl.
    + apply bind_inv in E. destruct E as (c' & t1 & s1 & t2 & E1 & E2 & ->).
      eapply kept_trans; [eapply putch_kept; exact E1 | eapply IH; exact E2].
Qed.

Lemma fread_mos_stores ptr n (s : cstate W) :
  exists chunk got t s',
    fread_mos ptr n s = Some (got, t, s')
    /\ plat s' = hw_store ptr chunk (plat s).
Proof. unfold fread_mos. do 4 eexists. split; reflexivity. Qed.

Lemma read_loop_kept fuel0 fuel : forall ptr (s : cstate W) r t s',
  read_loop fuel0 fuel ptr s = Some (r, t, s') -> kept I s s'.
Proof.
  induction fuel as [|fuel IH]; intros ptr s r t s' E; [discriminate|].
  cbn [read_loop] in E. apply bind_inv in E.
  destruct E as (n & t1 & s1 & t2 & E1 & E2 & ->).
  assert (K1 : kept I s s1).
  { destruct (fread_mos_stores ptr BLOCKSIZE s)
      as (chunk & got & t0 & s0 & E0 & Hp).
    rewrite E0 in E1. injection E1 as _ _ <-.
    intros Hs. rewrite Hp. destruct HI as (_ & _ & Hst). apply (Hst _ _ _ Hs). }
  destruct (0 <? n).
  - apply bind_inv in E2. destruct E2 as ([] & t3 & s3 & t4 & E3 & E4 & ->).
    injection E3 as _ <-.
    apply bind_inv in E4. destruct E4 as (c & t5 & s5 & t6 & E5 & E6 & ->).
    eapply kept_trans; [exact K1|].
    eapply kept_trans; [exact (putch_kept _ _ _ _ _ _ E5) | eapply IH; exact E6].
  - injection E2 as _ _ <-. exact K1.
Qed.

Lemma read_firmware_kept fuel (s : cstate W) r t s' :
  read_firmware fuel s = Some (r, t, s') -> kept I s s'.
Proof.
  unfold read_firmware. intros E. apply bind_inv in E.
  destruct E as ([] & t1 & s1 & t2 & E1 & E2 & ->).
  injection E1 as _ <-.
  apply bind_inv in E2. destruct E2 as ([] & t3 & s3 & t4 & E3 & E4 & ->).
  injection E4 as _ _ <-. apply read_loop_kept in E3. exact E3.
Qed.

(** A run of [update_mos] that does not reach [di] leaves the flash as
    it found it. *)
Lemma update_mos_attempts_kept fuel (s : cstate W) r t s' :
  update_mos_attempts fuel s = Some (r, t, s') ->
  filter is_di t = [] -> kept I s s'.
Proof.
  unfold update_mos_attempts, print_version. intros E Hdi.
  apply bind_inv in E. destruct E as (c & t1 & s1 & ? & K1 & E & ->).
  apply putch_kept in K1.
  apply bind_inv in E. destruct E as ([] & t2 & s2 & ? & K2 & E & ->).
  apply outstring_kept in K2.
  apply bind_inv in E. destruct E as ([] & t3 & s3 & ? & K3 & E & ->).
  apply outstring_kept in K3.
  apply bind_inv in E. destruct E as ([] & t4 & s4 & ? & K4 & E & ->).
  apply outstring_kept in K4.
  apply bind_inv in E. destruct E as (fs & t5 & s5 & ? & E5 & E & ->).
  injection E5 as _ <- <-.
  apply bind_inv in E. destruct E as (v & t6 & s6 & ? & K6 & E & ->).
  apply read_firmware_kept in K6.
  apply bind_inv in E. destruct E as ([] & t7 & s7 & ? & K7 & E & ->).
  apply outstring_kept in K7.
  apply bind_inv in E. destruct E as (ex & t8 & s8 & ? & E8 & E & ->).
  injection E8 as _ <- <-.
  assert (K : kept I s s7).
  { repeat (eapply kept_trans; [eassumption|]). apply kept_refl. }
  destruct (negb (v =? ex)).
  - apply bind_inv in E. destruct E as ([] & t9 & s9 & ? & K9 & E & ->).
    apply outstring_kept in K9. injection E as _ _ <-.
    eapply kept_trans; eassumption.
  - apply bind_inv in E. destruct E as ([] & t9 & s9 & ? & K9 & E & ->).
    apply bind_inv in E. destruct E as ([] & t10 & s10 & ? & E10 & E & ->).
    injection E10 as <- _.
    match type of Hdi with
    | filter is_di ?t = [] =>
        assert (Hin : In EvDI (filter is_di t))
          by (apply filter_In; split;
              [rewrite !in_app_iff; simpl; intuition | reflexivity])
    end.
    rewrite Hdi in Hin. contradiction.
Qed.

Lemma update_mos_kept fuel (s : cstate W) r t s' :
  update_mos fuel s = Some (r, t, s') -> filter is_di t = [] -> kept I s s'.
Proof.
  unfold update_mos. intros E Hdi.
  apply bind_inv in E. destruct E as (x & t1 & s1 & t2 & E1 & E2 & ->).
  injection E2 as _ <- <-. rewrite app_nil_r in Hdi.
  eapply update_mos_attempts_kept; eassumption.
Qed.

End Isolation.


(** ** What the operations of a trace determine *)

Lemma filter_ops (p : event -> bool) (t : list event) :
  (forall e, p e = true -> is_op e = true) ->
  filter p (ops t) = filter p t.
Proof.
  intros Hp. induction t as [|e t IH]; [reflexivity|].
  unfold ops in *. cbn [filter].
  destruct (is_op e) eqn:Eo; cbn [filter]; rewrite IH.
  - reflexivity.
  - destruct (p e) eqn:Ep; [|reflexivity].
    apply Hp in Ep. congruence.
Qed.

Lemma touches_flash_op e : touches_flash e = true -> is_op e = true.
Proof. destruct e as [| r v | r v | | | | | | | | |]; try destruct r; cbn; congruence. Qed.

Lemma is_di_op e : is_di e = true -> is_op e = true.
Proof. destruct e as [| r v | r v | | | | | | | | |]; try destruct r; cbn; congruence. Qed.

Lemma is_erase_start_op e : is_erase_start e = true -> is_op e = true.
Proof. destruct e as [| r v | r v | | | | | | | | |]; try destruct r; cbn; congruence. Qed.

Lemma is_start_vdp_op e : is_start_vdp e = true -> is_op e = true.
Proof. destruct e as [| r v | r v | | | | | | | | |]; try destruct r; cbn; congruence. Qed.

Lemma count_ops p t :
  (forall e, p e = true -> is_op e = true) -> count p t = count p (ops t).
Proof. intros Hp. unfold count. now rewrite filter_ops. Qed.

Lemma crc_results_ops t : crc_results (ops t) = crc_results t.
Proof.
  induction t as [|e t IH]; [reflexivity|].
  unfold ops in *.
  destruct e as [| r v | r v | | | | | | | | |]; try destruct r;
    cbn [filter is_op is_console negb flat_map app crc_results copies];
    fold (crc_results t); fold (copies t);
    fold (crc_results (filter is_op t)); fold (copies (filter is_op t));
    now rewrite ?IH.
Qed.

Lemma copies_ops t : copies (ops t) = copies t.
Proof.
  induction t as [|e t IH]; [reflexivity|].
  unfold ops in *.
  destruct e as [| r v | r v | | | | | | | | |]; try destruct r;
    cbn [filter is_op is_console negb flat_map app crc_results copies];
    fold (crc_results t); fold (copies t);
    fold (crc_results (filter is_op t)); fold (copies (filter is_op t));
    now rewrite ?IH.
Qed.

Lemma crc_results_app a b : crc_results (a ++ b) = crc_results a ++ crc_results b.
Proof. apply flat_map_app. Qed.

(** The rounds of the staging loop finalize no checksum, touch no flash,
    copy nothing and do not disable interrupts. *)
Lemma reads_views reads :
  forallb is_read reads = true ->
  crc_results reads = [] /\ filter touches_flash reads = []
  /\ filter is_di reads = [] /\ copies reads = [].
Proof.
  induction reads as [|e reads IH]; [auto|]. cbn [forallb].
  intros Hr. apply andb_true_iff in Hr. destruct Hr as [He Hr].
  destruct (IH Hr) as (I1 & I2 & I3 & I4).
  destruct e; try discriminate; cbn; auto.
Qed.

Lemma memcpy_views (cs : list (Z * Z * Z)) :
  let t := map (fun c => let '(d, s, n) := c in EvMemcpy d s n) cs in
  crc_results t = [] /\ filter is_di t = [] /\ filter is_erase_start t = []
  /\ filter is_staging t = [] /\ copies t = cs.
Proof.
  induction cs as [|[[d s] n] cs (I1 & I2 & I3 & I4 & I5)]; [cbn; auto|].
  cbn [map]. unfold crc_results, copies in *.
  cbn [flat_map filter is_di is_erase_start is_staging app].
  rewrite I1, I2, I3, I4, I5. auto.
Qed.

Lemma program_ops_views filesize :
  crc_results (program_ops filesize) = []
  /\ filter is_di (program_ops filesize) = []
  /\ filter is_erase_start (program_ops filesize) = []
  /\ filter is_staging (program_ops filesize) = []
  /\ copies (program_ops filesize)
     = map (page_copy filesize)
           (seq 0 (Z.to_nat ((filesize + PAGESIZE - 1) / PAGESIZE))).
Proof.
  assert (E : program_ops filesize
              = map (fun c => let '(d, s, n) := c in EvMemcpy d s n)
                    (map (page_copy filesize)
                         (seq 0 (Z.to_nat ((filesize + PAGESIZE - 1) / PAGESIZE))))).
  { unfold program_ops. now rewrite map_map. }
  rewrite E. apply memcpy_views.
Qed.

Lemma attempt_ops_crc filesize v : crc_results (attempt_ops filesize v) = [v].
Proof.
  unfold attempt_ops. rewrite !crc_results_app.
  destruct (program_ops_views filesize) as (-> & _).
  reflexivity.
Qed.

Lemma attempts_crc filesize vs :
  crc_results (flat_map (attempt_ops filesize) vs) = vs.
Proof.
  induction vs as [|v vs IH]; [reflexivity|].
  cbn [flat_map]. now rewrite crc_results_app, attempt_ops_crc, IH.
Qed.

Lemma attempt_ops_di filesize v : filter is_di (attempt_ops filesize v) = [].
Proof.
  unfold attempt_ops. rewrite !filter_app.
  destruct (program_ops_views filesize) as (_ & -> & _).
  reflexivity.
Qed.

Lemma attempts_di filesize vs :
  filter is_di (flat_map (attempt_ops filesize) vs) = [].
Proof.
  induction vs as [|v vs IH]; [reflexivity|].
  cbn [flat_map]. now rewrite filter_app, attempt_ops_di, IH.
Qed.

(** The simulated board answers every poll at the second read at the
    latest. *)
Lemma sim_responsive : responsive (W := sim) 2.
Proof.
  split; intros [m k p g e x d c v]; cbn; destruct x, e; reflexivity.
Qed.

(** The views of the operations of [update_mos]: staging, then [tail]. *)
Lemma mos_ops_views t reads staged tail :
  forallb is_read reads = true ->
  ops t = [EvCrcInit] ++ reads ++ [EvCrcFinal staged] ++ tail ->
  crc_results t = staged :: crc_results tail
  /\ filter is_di t = filter is_di tail
  /\ filter touches_flash t = filter touches_flash tail.
Proof.
  intros Hr Hops. destruct (reads_views reads Hr) as (R1 & R2 & R3 & _).
  rewrite <- (crc_results_ops t), <- (filter_ops is_di t is_di_op),
    <- (filter_ops touches_flash t touches_flash_op), Hops.
  rewrite !crc_results_app, !filter_app, R1, R2, R3. auto.
Qed.

(** * Properties of the update engine *)

(** C1: when the staged image matches the expected checksum and the verify
    pass of every attempt computes something else, [update_mos] returns
    false after exactly three attempts: its operations are the staging
    pass, [di], and three complete unprotect-erase-program-protect-verify
    cycles, nothing less and nothing more. *)
Theorem update_mos_three_attempts {W} `{Platform W} (lat fuel : nat)
    (s : cstate W) :
  responsive lat ->
  (lat <= fuel)%nat -> (unread s < fuel)%nat -> (3 < fuel)%nat ->
  runs (update_mos fuel) s
       (fun r t _ =>
          exists staged vs,
            crc_results t = staged :: vs
            /\ (staged = moscrc s -> Forall (fun v => v <> moscrc s) vs ->
                r = false
                /\ exists reads v1 v2 v3,
                    vs = [v1; v2; v3]
                    /\ forallb is_read reads = true
                    /\ ops t = [EvCrcInit] ++ reads ++ [EvCrcFinal staged; EvDI]
                               ++ attempt_ops (getFileSize (mosfilehandle s)) v1
                               ++ attempt_ops (getFileSize (mosfilehandle s)) v2
                               ++ attempt_ops (getFileSize (mosfilehandle s)) v3)).
Proof.
  intros Hlive Hf Hu H3. apply update_mos_runs.
  eapply runs_weaken; [apply (update_mos_attempts_runs lat); assumption|].
  intros [ok n] t s' (reads & staged & vs & Hreads & Hops & _ & Hcase & _).
  cbn [fst snd] in *.
  destruct (mos_ops_views _ _ _ _ Hreads Hops) as (Hcrc & _).
  destruct (staged =? moscrc s) eqn:E.
  - exists staged, vs. split.
    { rewrite Hcrc. cbn [crc_results flat_map app]. fold (crc_results).
      f_equal. apply attempts_crc. }
    intros _ Hall. destruct Hcase as [[(_ & vs0 & -> & _) | (-> & _ & Hlen)] _].
    + apply Forall_app in Hall. destruct Hall as [_ Hall].
      inversion Hall; subst. congruence.
    + split; [reflexivity|].
      destruct vs as [|v1 [|v2 [|v3 [|v4 vs]]]]; try discriminate.
      exists reads, v1, v2, v3. split; [reflexivity|]. split; [exact Hreads|].
      rewrite Hops. cbn [flat_map app]. now rewrite app_nil_r.
  - exists staged, []. split; [now rewrite Hcrc|].
    intros ->. rewrite Z.eqb_refl in E. discriminate.
Qed.

(** C2: when the checksum of the staging pass differs from the expected
    one, [update_mos] returns false and its whole trace holds no operation
    on the flash: no key unlock, no write to a flash control port, no copy,
    no verify pass, and interrupts are left as they were.  On a machine
    whose flash does not change under console traffic and plain stores,
    the flash then reads as before the call. *)
Theorem update_mos_stage_mismatch {W} `{Platform W} (lat fuel : nat)
    (s : cstate W) :
  responsive lat ->
  (lat <= fuel)%nat -> (unread s < fuel)%nat -> (3 < fuel)%nat ->
  runs (update_mos fuel) s
       (fun r t s' =>
          exists staged vs,
            crc_results t = staged :: vs
            /\ (staged <> moscrc s ->
                r = false /\ vs = []
                /\ filter touches_flash t = [] /\ copies t = []
                /\ count is_di t = 0%nat /\ ief s' = ief s
                /\ forall I, flash_isolated I -> I (plat s) ->
                     forall a, 0 <= a < FLASHSIZE ->
                       flash_image (plat s') a = flash_image (plat s) a)).
Proof.
  intros Hlive Hf Hu H3. eapply runs_weaken.
  { apply runs_with_eq, (update_mos_result_runs lat); assumption. }
  intros ok t s' (Erun & reads & staged & vs & Hreads & Hops & Hcase).
  destruct (mos_ops_views _ _ _ _ Hreads Hops) as (Hcrc & Hdi & Htf).
  destruct (staged =? moscrc s) eqn:E.
  - exists staged, vs. split.
    { rewrite Hcrc. cbn [crc_results flat_map app]. fold (crc_results).
      f_equal. apply attempts_crc. }
    apply Z.eqb_eq in E. intros Hne. contradiction.
  - exists staged, []. split; [now rewrite Hcrc|]. intros _.
    destruct Hcase as (_ & -> & Hief).
    unfold count. rewrite Hdi, Htf.
    rewrite <- (copies_ops t), Hops, !copies_app.
    destruct (reads_views reads Hreads) as (_ & _ & _ & ->).
    repeat split; [exact Hief|].
    intros I HI Hs. apply (update_mos_kept I HI _ _ _ _ _ Erun Hdi Hs).
Qed.

(** C3: every attempt of [update_mos] relocks the flash (key, then 0xFF to
    the protection register) after its last page copy and before its
    verify pass reads the flash, whatever that pass then computes.  The
    run of [update_mos] is the run of [update_mos_attempts] with the
    counter [attempt] dropped from the result.  Its operations are a prefix
    that does not touch the flash followed by one block per attempt:
    unprotect, erase, program, relock, verify.  There are as many blocks
    as the counter [attempt] says at the return, one per verify result [v]
    in order, those that failed included: when the staged checksum
    matched, between one and three, ending with the first match or the
    third mismatch, which decides the result; otherwise none, and the
    result is false.  Within a block nothing is checksummed before the
    relock, and nothing is copied and no flash port written after it. *)
Theorem update_mos_relocks_before_verify {W} `{Platform W} (lat fuel : nat)
    (s : cstate W) :
  responsive lat ->
  (lat <= fuel)%nat -> (unread s < fuel)%nat -> (3 < fuel)%nat ->
  let filesize := getFileSize (mosfilehandle s) in
  runs (update_mos_attempts fuel) s
       (fun r t s' =>
          update_mos fuel s = Some (fst r, t, s')
          /\ exists stage staged vs,
            crc_results t = staged :: vs
            /\ snd r = Z.of_nat (length vs)
            /\ (staged = moscrc s ->
                loop_outcome (moscrc s) (fst r) vs /\ (1 <= length vs <= 3)%nat)
            /\ (staged <> moscrc s -> vs = [] /\ fst r = false)
            /\ filter touches_flash stage = []
            /\ ops t = stage
                 ++ flat_map
                      (fun v =>
                         (unprotect_ops ++ erase_ops ++ program_ops filesize)
                         ++ [EvFlashKey; EvOut FLASH_PROT 0xFF]
                         ++ [EvCrcInit; EvCrc FLASHSTART filesize; EvCrcFinal v])
                      vs)
  /\ filter is_staging (unprotect_ops ++ erase_ops ++ program_ops filesize) = []
  /\ forall v,
       copies [EvCrcInit; EvCrc FLASHSTART filesize; EvCrcFinal v] = []
       /\ filter touches_flash
            [EvCrcInit; EvCrc FLASHSTART filesize; EvCrcFinal v] = [].
Proof.
  intros Hlive Hf Hu H3 filesize. split; [|split].
  - eapply runs_weaken.
    { apply runs_with_eq. apply (update_mos_attempts_runs lat); assumption. }
    intros [ok n] t s' (Erun & reads & staged & vs & Hreads & Hops & Hn & Hcase & _).
    cbn [fst snd] in *.
    split.
    { unfold update_mos, bind. rewrite Erun. cbn [ret fst].
      now rewrite app_nil_r. }
    destruct (mos_ops_views _ _ _ _ Hreads Hops) as (Hcrc & _).
    destruct (reads_views reads Hreads) as (_ & Rtf & _).
    destruct (staged =? moscrc s) eqn:Est.
    + apply Z.eqb_eq in Est.
      exists ([EvCrcInit] ++ reads ++ [EvCrcFinal staged; EvDI]), staged, vs.
      destruct Hcase as [Hloop _].
      split; [|split; [exact Hn|split; [|split; [|split]]]].
      * rewrite Hcrc. cbn [crc_results flat_map app]. fold crc_results.
        f_equal. apply attempts_crc.
      * intros _. split; [exact Hloop|].
        destruct Hloop as [(_ & vs0 & -> & _ & Hl) | (_ & _ & Hl)].
        -- rewrite length_app in *. cbn [length] in *. lia.
        -- lia.
      * intros Hne. contradiction.
      * rewrite !filter_app, Rtf. reflexivity.
      * rewrite Hops. fold filesize.
        rewrite (flat_map_ext (attempt_ops filesize)
                   (fun v => (unprotect_ops ++ erase_ops ++ program_ops filesize)
                             ++ [EvFlashKey; EvOut FLASH_PROT 0xFF]
                             ++ [EvCrcInit; EvCrc FLASHSTART filesize; EvCrcFinal v])).
        -- rewrite <- !app_assoc. reflexivity.
        -- intros v. unfold attempt_ops, protect_ops, verify_ops.
           now rewrite <- !app_assoc.
    + apply Z.eqb_neq in Est. destruct Hcase as (-> & Hok & _).
      exists ([EvCrcInit] ++ reads ++ [EvCrcFinal staged]), staged, [].
      split; [|split; [exact Hn|split; [|split; [|split]]]].
      * rewrite Hcrc. reflexivity.
      * intros E. contradiction.
      * intros _. split; [reflexivity | exact Hok].
      * rewrite !filter_app, Rtf. reflexivity.
      * rewrite Hops. cbn [flat_map]. now rewrite !app_nil_r.
  - rewrite !filter_app.
    destruct (program_ops_views filesize) as (_ & _ & _ & -> & _).
    reflexivity.
  - intros v. split; reflexivity.
Qed.

(** C4, as the code has it: the erase phase of an attempt erases the flash
    page by page, not block by block.  The trace of an attempt is a prefix,
    the erase phase, and a rest; the erase phase selects each of the 128
    pages 0, 1, ..., 127 in turn, starts its erase and polls the control
    port until it reads the erase bit clear before it goes on; no page is
    erased outside this phase, and every page copy comes after it. *)
Theorem flash_attempt_erases_every_page {W} `{Platform W} (lat fuel : nat)
    (filesize : Z) (success : bool) (attempt : Z) (s : cstate W) :
  responsive lat -> (lat <= fuel)%nat -> 0 <= filesize < 2 ^ 24 ->
  runs (flash_attempt fuel filesize success attempt) s
       (fun _ t _ =>
          exists pre waits post,
            t = pre ++ erase_trace waits ++ post
            /\ length waits = 128%nat
            /\ Forall (wait_trace FLASH_PGCTL erase_busy) waits
            /\ count is_erase_start (erase_trace waits) = 128%nat
            /\ count is_erase_start pre = 0%nat
            /\ count is_erase_start post = 0%nat
            /\ copies pre = [] /\ copies (erase_trace waits) = []
            /\ copies post = copies t).
Proof.
  intros Hlive Hf Hs.
  eapply runs_weaken; [apply (flash_attempt_runs lat); assumption|].
  intros ok t s' (w & pre & waits & post & -> & Hl & Hw & Hpre & Hpost & _).
  pose proof (erase_trace_ops waits Hl Hw) as He.
  assert (Cpre : copies pre = []) by (now rewrite <- copies_ops, Hpre).
  assert (Cer : copies (erase_trace waits) = []) by (now rewrite <- copies_ops, He).
  exists pre, waits, post. split; [reflexivity|]. split; [exact Hl|].
  split; [exact Hw|].
  rewrite (count_ops is_erase_start (erase_trace waits) is_erase_start_op),
    (count_ops is_erase_start pre is_erase_start_op),
    (count_ops is_erase_start post is_erase_start_op), He, Hpre, Hpost.
  split; [reflexivity|]. split; [reflexivity|]. split.
  { unfold count. rewrite !filter_app.
    destruct (program_ops_views filesize) as (_ & _ & -> & _). reflexivity. }
  split; [exact Cpre|]. split; [exact Cer|].
  now rewrite !copies_app, Cpre, Cer.
Qed.

(** C5, as the code has it: [update_mos] executes [di] once, after the
    staging pass has matched and before the first attempt, and nothing in
    it enables interrupts again.  An attempt neither disables nor enables
    them: it ends with the interrupt flag as it found it.  A run that gets
    to the attempts returns with interrupts disabled, whether it succeeded
    or not; a run that stops at the staging check never disables them. *)
Theorem update_mos_disables_interrupts_once {W} `{Platform W} (lat fuel : nat)
    (s : cstate W) :
  responsive lat ->
  (lat <= fuel)%nat -> (unread s < fuel)%nat -> (3 < fuel)%nat ->
  (forall filesize success attempt (s1 : cstate W),
      0 <= filesize < 2 ^ 24 ->
      runs (flash_attempt fuel filesize success attempt) s1
           (fun _ t s' => count is_di t = 0%nat /\ ief s' = ief s1))
  /\ runs (update_mos fuel) s
       (fun _ t s' =>
          exists staged vs,
            crc_results t = staged :: vs
            /\ (staged = moscrc s ->
                count is_di t = 1%nat /\ ief s' = false
                /\ exists reads,
                    ops t = [EvCrcInit] ++ reads ++ [EvCrcFinal staged; EvDI]
                            ++ flat_map (attempt_ops (getFileSize (mosfilehandle s))) vs)
            /\ (staged <> moscrc s -> count is_di t = 0%nat /\ ief s' = ief s)).
Proof.
  intros Hlive Hf Hu H3. split.
  - intros filesize success attempt s1 Hs.
    eapply runs_weaken; [apply (flash_attempt_ops lat); assumption|].
    intros ok t s' (w & Hops & _ & Hset).
    rewrite (count_ops is_di _ is_di_op), Hops. unfold count.
    rewrite attempt_ops_di. split; [reflexivity|].
    unfold settings in Hset. congruence.
  - apply update_mos_runs.
    eapply runs_weaken; [apply (update_mos_attempts_runs lat); assumption|].
    intros [ok n] t s' (reads & staged & vs & Hreads & Hops & _ & Hcase & _).
    destruct (mos_ops_views _ _ _ _ Hreads Hops) as (Hcrc & Hdi & _).
    unfold count. rewrite Hdi.
    destruct (staged =? moscrc s) eqn:E.
    + exists staged, vs. split; [|split].
      * rewrite Hcrc. cbn [crc_results flat_map app]. fold crc_results.
        f_equal. apply attempts_crc.
      * intros _. destruct Hcase as (_ & Hief).
        cbn [filter is_di]. rewrite attempts_di. split; [reflexivity|].
        split; [exact Hief|]. exists reads. rewrite Hops. reflexivity.
      * apply Z.eqb_eq in E. intros Hne. contradiction.
    + exists staged, []. split; [|split].
      * now rewrite Hcrc.
      * intros ->. rewrite Z.eqb_refl in E. discriminate.
      * intros _. destruct Hcase as (_ & _ & Hief). auto.
Qed.

(** C7: for an image of [S] bytes, [0 < S < 2^24], the programming phase
    copies [ceil (S / 1024)] pages; page [k] goes to flash address
    [1024 * k] from the staged image at [BUFFER1 + 1024 * k]; every page
    but the last is copied with length 1024, the last with length
    [S mod 1024], or 1024 when 1024 divides [S]. *)
Theorem write_pages_page_plan {W} `{Platform W} (lat fuel : nat) (S : Z)
    (s : cstate W) :
  responsive lat -> (lat <= fuel)%nat -> 0 < S < 2 ^ 24 ->
  runs (write_pages fuel S) s
       (fun _ t _ =>
          let pages := copies t in
          let n := length pages in
          Z.of_nat n = (S + 1023) / 1024
          /\ 1024 * (Z.of_nat n - 1) < S <= 1024 * Z.of_nat n
          /\ forall k, (k < n)%nat ->
               nth k pages (0, 0, 0)
               = (1024 * Z.of_nat k, u24 (BUFFER1 + 1024 * Z.of_nat k),
                  if (Datatypes.S k <? n)%nat then 1024
                  else if S mod 1024 =? 0 then 1024 else S mod 1024)).
Proof.
  intros Hlive Hf HS.
  eapply runs_weaken; [apply (write_pages_runs lat); [assumption | assumption | lia]|].
  intros acc t s' (Hops & _). cbv zeta.
  rewrite <- copies_ops, Hops.
  destruct (program_ops_views S) as (_ & _ & _ & _ & ->).
  rewrite length_map, length_seq.
  pose proof (page_count_bounds S ltac:(lia)) as HP.
  change (S + PAGESIZE - 1) with (S + 1024 - 1) in *.
  change PAGESIZE with 1024 in *.
  replace (S + 1024 - 1) with (S + 1023) in * by lia.
  set (P := (S + 1023) / 1024) in *.
  pose proof (Z.div_mod (S + 1023) 1024 ltac:(lia)) as Hd. fold P in Hd.
  pose proof (Z.mod_pos_bound (S + 1023) 1024 ltac:(lia)) as Hm.
  split; [lia|]. split; [lia|].
  intros k Hk.
  rewrite (nth_indep _ (0, 0, 0) (page_copy S 0))
    by (now rewrite length_map, length_seq).
  rewrite (map_nth (page_copy S)), seq_nth by exact Hk.
  cbn [Nat.add]. unfold page_copy. change PAGESIZE with 1024.
  replace (S + 1024 - 1) with (S + 1023) by lia. fold P.
  f_equal.
  destruct (Z.of_nat k =? P - 1) eqn:E1; destruct (Datatypes.S k <? Z.to_nat P)%nat eqn:E2;
    try reflexivity.
  - apply Z.eqb_eq in E1. apply Nat.ltb_lt in E2. lia.
  - apply Z.eqb_neq in E1. apply Nat.ltb_ge in E2. lia.
Qed.

(** C8, at a call of [update_vdp] on the simulated board whose screen
    returns 0 for every character: the ten characters are read, the tenth
    is stored at [test[9]], past the end of [test], and with that the call
    has no result, neither the failure the claim asks for on this response
    nor any other; the unlock command has gone out once and no trigger. *)
Theorem update_vdp_undefined_before_decision :
  option_map (fun x => (fst (fst x),
                        screen_reads (snd (fst x)),
                        count is_start_vdp (snd (fst x)),
                        occurrences unlock_command (serial (snd (fst x)))))
             (update_vdp 2 (session (board false []) 0))
  = Some (Undefined UNLOCKMATCHLENGTH 0, repeat 0 10, 0%nat, 1%nat).
Proof. vm_compute. reflexivity. Qed.

(** C10, at a call of [vdp_ota_present] on the simulated board whose
    screen shows "unlocked!x": the read loop stores the tenth character
    with index 9, one past the last element of [test], so not every store
    has an index below [UNLOCKMATCHLENGTH]. *)
Theorem vdp_ota_present_stores_past_test :
  option_map (fun x => stray (fst (fst x)))
             (read_response 2 (session (board false (str "unlocked!x")) 0))
  = Some [(UNLOCKMATCHLENGTH, 120)].
Proof. vm_compute. reflexivity. Qed.

(** * Runs on the simulated board *)

(** With every block protected, the flash of the simulated board does not
    change under console traffic and plain stores. *)
Lemma sim_isolated : flash_isolated (W := sim) (fun w => s_prot w = 0xFF).
Proof.
  split; [|split].
  - intros w Hw. split; [exact Hw | reflexivity].
  - intros v w Hw. split; [exact Hw | reflexivity].
  - intros p bs w Hw. split; [exact Hw|]. intros a Ha.
    change (s_mem (sim_write p bs w) a = s_mem w a).
    unfold sim_write, sim_with_mem. cbn [s_mem].
    destruct ((p <=? a) && (a <? p + Z.of_nat (length bs))); [|reflexivity].
    replace (a <? FLASHSIZE) with true by (symmetry; apply Z.ltb_lt; lia).
    assert (Hbit : Z.testbit (s_prot w) (a / 16384) = true).
    { rewrite Hw. change 255 with (Z.ones 8). apply Z.ones_spec_low.
      unfold FLASHSIZE in Ha. split.
      - apply Z.div_pos; lia.
      - apply Z.div_lt_upper_bound; lia. }
    unfold sim_writable. rewrite Hbit. now rewrite andb_false_r.
Qed.

Lemma update_mos_three_attempts_witness :
  runs (update_mos 9) (session (board true []) image_crc)
       (fun r t _ => r = false /\ length (crc_results t) = 4%nat).
Proof.
  destruct (update_mos_three_attempts 2 9 (session (board true []) image_crc)
              sim_responsive)
    as (r & t & s' & E & staged & vs & Hcrc & Himp);
    [lia | vm_compute; lia | lia |].
  assert (C : option_map (fun x => crc_results (snd (fst x)))
                (update_mos 9 (session (board true []) image_crc))
              = Some [1087107893; 558161692; 558161692; 558161692])
    by (vm_compute; reflexivity).
  rewrite E in C. cbn [option_map fst snd] in C. rewrite Hcrc in C.
  injection C as -> ->.
  destruct Himp as (-> & _).
  - vm_compute. reflexivity.
  - repeat constructor; intros Hx; vm_compute in Hx; discriminate.
  - unfold runs. exists false, t, s'. split; [exact E|].
    rewrite Hcrc. split; reflexivity.
Defined.

Lemma update_mos_stage_mismatch_witness :
  runs (update_mos 9) (session (board false []) 0)
       (fun r t s' =>
          r = false /\ filter touches_flash t = []
          /\ forall a, 0 <= a < FLASHSIZE -> s_mem (plat s') a = 0xFF).
Proof.
  destruct (update_mos_stage_mismatch 2 9 (session (board false []) 0)
              sim_responsive)
    as (r & t & s' & E & staged & vs & Hcrc & Himp);
    [lia | vm_compute; lia | lia |].
  assert (C : option_map (fun x => hd_error (crc_results (snd (fst x))))
                (update_mos 9 (session (board false []) 0))
              = Some (Some 1087107893))
    by (vm_compute; reflexivity).
  rewrite E in C. cbn [option_map fst snd] in C. rewrite Hcrc in C.
  injection C as ->.
  destruct Himp as (-> & _ & Htf & _ & _ & _ & Hflash).
  - intros Hx. vm_compute in Hx. discriminate.
  - unfold runs. exists false, t, s'. split; [exact E|]. split; [reflexivity|].
    split; [exact Htf|]. intros a Ha.
    apply (Hflash _ sim_isolated eq_refl a Ha).
Defined.

Lemma update_mos_relocks_before_verify_witness :
  runs (update_mos_attempts 9) (session (board true []) image_crc)
       (fun r t s' =>
          update_mos 9 (session (board true []) image_crc) = Some (fst r, t, s')
          /\ exists stage staged vs,
            crc_results t = staged :: vs
            /\ snd r = Z.of_nat (length vs)
            /\ (staged = image_crc ->
                loop_outcome image_crc (fst r) vs /\ (1 <= length vs <= 3)%nat)
            /\ (staged <> image_crc -> vs = [] /\ fst r = false)
            /\ filter touches_flash stage = []
            /\ ops t = stage
                 ++ flat_map
                      (fun v =>
                         (unprotect_ops ++ erase_ops ++ program_ops 8)
                         ++ [EvFlashKey; EvOut FLASH_PROT 0xFF]
                         ++ [EvCrcInit; EvCrc FLASHSTART 8; EvCrcFinal v])
                      vs).
Proof.
  apply (update_mos_relocks_before_verify 2 9 (session (board true []) image_crc)
           sim_responsive); [lia | vm_compute; lia | lia].
Defined.

Lemma flash_attempt_erases_every_page_witness :
  runs (flash_attempt 2 8 false 0) (session (board false []) image_crc)
       (fun _ t _ =>
          exists pre waits post,
            t = pre ++ erase_trace waits ++ post
            /\ length waits = 128%nat
            /\ Forall (wait_trace FLASH_PGCTL erase_busy) waits
            /\ count is_erase_start (erase_trace waits) = 128%nat
            /\ count is_erase_start pre = 0%nat
            /\ count is_erase_start post = 0%nat
            /\ copies pre = [] /\ copies (erase_trace waits) = []
            /\ copies post = copies t).
Proof.
  apply (flash_attempt_erases_every_page 2 2 8 false 0
           (session (board false []) image_crc) sim_responsive); lia.
Defined.

Lemma update_mos_disables_interrupts_once_witness :
  runs (update_mos 9) (session (board false []) image_crc)
       (fun r t s' => count is_di t = 1%nat /\ ief s' = false).
Proof.
  destruct (update_mos_disables_interrupts_once 2 9
              (session (board false []) image_crc) sim_responsive)
    as (_ & r & t & s' & E & staged & vs & Hcrc & Hyes & _);
    [lia | vm_compute; lia | lia |].
  assert (C : option_map (fun x => hd_error (crc_results (snd (fst x))))
                (update_mos 9 (session (board false []) image_crc))
              = Some (Some 1087107893))
    by (vm_compute; reflexivity).
  rewrite E in C. cbn [option_map fst snd] in C. rewrite Hcrc in C.
  injection C as ->.
  assert (Hst : 1087107893 = moscrc (session (board false []) image_crc))
    by (vm_compute; reflexivity).
  destruct (Hyes Hst) as (Hdi & Hief & _).
  unfold runs. exists r, t, s'. split; [exact E | split; assumption].
Defined.

Lemma write_pages_page_plan_witness :
  runs (write_pages 2 (1024 * 5 + 1)) (session (board false []) image_crc)
       (fun _ t _ =>
          length (copies t) = 6%nat
          /\ nth 4 (copies t) (0, 0, 0) = (4096, BUFFER1 + 4096, 1024)
          /\ nth 5 (copies t) (0, 0, 0) = (5120, BUFFER1 + 5120, 1)).
Proof.
  destruct (write_pages_page_plan 2 2 (1024 * 5 + 1)
              (session (board false []) image_crc) sim_responsive)
    as (r & t & s' & E & Hn & _ & Hk); [lia | lia |].
  unfold runs. exists r, t, s'. split; [exact E|].
  assert (Hlen : length (copies t) = 6%nat).
  { apply Nat2Z.inj. rewrite Hn. reflexivity. }
  split; [exact Hlen|]. rewrite Hlen in Hk.
  split; [apply (Hk 4%nat); lia | apply (Hk 5%nat); lia].
Defined.

Lemma containsESP32Header_exact_witness :
  containsESP32Header (fun o => nth (Z.to_nat (o - 0x20)) [0x32; 0x54; 0xCD; 0xAB] 0)
  = true
  /\ containsESP32Header
       (fun o => nth (Z.to_nat (o - 0x20)) [0x32; 0x54; 0xCC; 0xAB] 0)
     = false.
Proof.
  destruct containsESP32Header_exact as (Hiff & _ & Hone).
  assert (Hgood : containsESP32Header
            (fun o => nth (Z.to_nat (o - 0x20)) [0x32; 0x54; 0xCD; 0xAB] 0) = true)
    by (apply Hiff; reflexivity).
  split; [exact Hgood|].
  apply (Hone _ _ 0x22 Hgood); [lia | discriminate |].
  intros o' Ho'.
  assert (Hc : Z.to_nat (o' - 0x20) <> 2%nat) by lia.
  destruct (Z.to_nat (o' - 0x20)) as [|[|[|[|n]]]]; try reflexivity; congruence.
Defined.

(** C4 as the spec states it, one erase per 16 KiB block and so eight
    erases, fails: on the simulated board the erase phase starts 128. *)
Lemma erase_flash_not_one_per_block :
  ~ (forall t s',
        erase_flash 2 (session (board false []) image_crc) = Some (tt, t, s') ->
        count is_erase_start t = Z.to_nat (FLASHSIZE / BLOCKSIZE)).
Proof.
  intros Hc.
  assert (C : option_map (fun x => count is_erase_start (snd (fst x)))
                (erase_flash 2 (session (board false []) image_crc))
              = Some 128%nat)
    by (vm_compute; reflexivity).
  destruct (erase_flash 2 (session (board false []) image_crc))
    as [[[[] t] s']|]; [|discriminate].
  specialize (Hc t s' eq_refl). cbn [option_map fst snd] in C.
  rewrite Hc in C. vm_compute in C. discriminate.
Qed.

(** C5 as the spec states it, interrupts enabled again on every exit of an
    attempt, fails: on the simulated board with dead flash [update_mos]
    is entered with interrupts enabled, makes its three attempts and
    returns with interrupts disabled. *)
Lemma update_mos_returns_with_interrupts_disabled :
  ief (session (board true []) image_crc) = true
  /\ ~ (forall r t s',
          update_mos 9 (session (board true []) image_crc) = Some (r, t, s') ->
          ief s' = true).
Proof.
  split; [reflexivity|]. intros Hc.
  assert (C : option_map (fun x => ief (snd x))
                (update_mos 9 (session (board true []) image_crc))
              = Some false)
    by (vm_compute; reflexivity).
  destruct (update_mos 9 (session (board true []) image_crc))
    as [[[r t] s']|]; [|discriminate].
  specialize (Hc r t s' eq_refl). cbn [option_map snd] in C. congruence.
Qed.

(** * The command line and the image checks *)

Lemma containsMosHeader_unfold (buf : bytes_at) :
  containsMosHeader buf
  = (0xF3 =? buf 0) && (0xED =? buf 1) && (0x7D =? buf 2)
    && (0x5B =? buf 3) && (0xC3 =? buf 4).
Proof.
  unfold containsMosHeader.
  change (seq 0 (Z.to_nat MOS_MAGICLENGTH)) with [0; 1; 2; 3; 4]%nat.
  cbv [fold_left nth mos_magicnumbers].
  change (Z.of_nat 0) with 0. change (Z.of_nat 1) with 1.
  change (Z.of_nat 2) with 2. change (Z.of_nat 3) with 3.
  change (Z.of_nat 4) with 4.
  destruct (0xF3 =? buf 0), (0xED =? buf 1), (0x7D =? buf 2),
    (0x5B =? buf 3), (0xC3 =? buf 4); reflexivity.
Qed.

(** X1: [containsMosHeader] accepts a buffer exactly when its first five
    bytes are F3 ED 7D 5B C3, and no other byte of the buffer is looked
    at. *)
Theorem containsMosHeader_exact :
  (forall buf, containsMosHeader buf = true
               <-> map buf [0; 1; 2; 3; 4] = [0xF3; 0xED; 0x7D; 0x5B; 0xC3])
  /\ (forall buf buf',
        (forall o, 0 <= o <= 4 -> buf o = buf' o) ->
        containsMosHeader buf = containsMosHeader buf').
Proof.
  split.
  - intros buf. rewrite containsMosHeader_unfold. cbn [map].
    rewrite !andb_true_iff, !Z.eqb_eq. split.
    + intros [[[[-> ->] ->] ->] ->]. reflexivity.
    + intros E. injection E as -> -> -> -> ->. auto.
  - intros buf buf' E. rewrite !containsMosHeader_unfold.
    rewrite (E 0), (E 1), (E 2), (E 3), (E 4) by lia. reflexivity.
Qed.

Lemma containsMosHeader_exact_witness :
  containsMosHeader (buffer_at [0xF3; 0xED; 0x7D; 0x5B; 0xC3; 0x01])
  = containsMosHeader (buffer_at [0xF3; 0xED; 0x7D; 0x5B; 0xC3; 0x02]).
Proof.
  destruct containsMosHeader_exact as (_ & Hsame). apply Hsame.
  intros o Ho. unfold buffer_at.
  replace (o <? 0) with false by (symmetry; apply Z.ltb_ge; lia).
  assert (Hc : (Z.to_nat o <= 4)%nat) by lia.
  destruct (Z.to_nat o) as [|[|[|[|[|n]]]]]; try reflexivity; lia.
Defined.

(** The bytes a pointer shows where a keyword and its NUL are compared. *)
Lemma keyword_bytes (p : bytes_at) (s kw : list Z) :
  holds_string p s -> Forall (fun c => c <> 0) kw ->
  map (fun i => p (Z.of_nat i)) (seq 0 (length (kw ++ [0]))) = kw ++ [0]
  <-> s = kw.
Proof.
  intros (Hp & Hz & Hs) Hkw.
  assert (Hnz : forall l i, Forall (fun c => c <> 0) l -> (i < length l)%nat ->
                            nth i l 0 <> 0).
  { intros l i Hl Hi. rewrite Forall_forall in Hl. apply Hl, nth_In, Hi. }
  split.
  - intros E.
    assert (Eat : forall i, (i <= length kw)%nat ->
                            p (Z.of_nat i) = nth i (kw ++ [0]) 0).
    { intros i Hi.
      assert (Hlen : (i < length (seq 0 (length (kw ++ [0%Z]))))%nat)
        by (rewrite length_seq, length_app; simpl; lia).
      rewrite <- E.
      rewrite (nth_indep _ 0 ((fun i => p (Z.of_nat i)) 0%nat))
        by (now rewrite length_map).
      rewrite (map_nth (fun i => p (Z.of_nat i))), seq_nth.
      - reflexivity.
      - rewrite length_app. simpl. lia. }
    assert (Hlen : length s = length kw).
    { destruct (Nat.lt_trichotomy (length s) (length kw)) as [Hlt | [Heq | Hgt]].
      - exfalso. specialize (Eat (length s) ltac:(lia)).
        rewrite Hz, app_nth1 in Eat by lia. symmetry in Eat.
        now apply (Hnz kw (length s) Hkw Hlt).
      - exact Heq.
      - exfalso. specialize (Eat (length kw) ltac:(lia)).
        rewrite Hp, app_nth2, Nat.sub_diag in Eat by lia. simpl in Eat.
        now apply (Hnz s (length kw) Hs Hgt). }
    apply (nth_ext _ _ 0 0 Hlen). intros i Hi.
    rewrite <- Hp by exact Hi. rewrite Eat by lia. now rewrite app_nth1 by lia.
  - intros <-. apply (nth_ext _ _ 0 0).
    + now rewrite length_map, length_seq.
    + intros i Hi. rewrite length_map, length_seq in Hi.
      rewrite (nth_indep _ 0 ((fun i => p (Z.of_nat i)) 0%nat))
        by (now rewrite length_map, length_seq).
      rewrite (map_nth (fun i => p (Z.of_nat i))), seq_nth by exact Hi.
      cbn [Nat.add]. rewrite length_app in Hi. simpl in Hi.
      destruct (Nat.eq_dec i (length s)) as [-> | Hne].
      * now rewrite Hz, app_nth2, Nat.sub_diag by lia.
      * rewrite Hp, app_nth1 by lia. reflexivity.
Qed.

Lemma keyword_test (p : bytes_at) (s kw : list Z) :
  holds_string p s -> Forall (fun c => c <> 0) kw ->
  (memcmp_at p (kw ++ [0]) =? 0) = true <-> s = kw.
Proof.
  intros Hp Hkw. rewrite <- (keyword_bytes p s kw Hp Hkw).
  unfold memcmp_at.
  set (l := map (fun i => p (Z.of_nat i)) (seq 0 (length (kw ++ [0])))).
  assert (Hl : length l = length (kw ++ [0]))
    by (unfold l; now rewrite length_map, length_seq).
  rewrite <- Hl. apply memcmp_zero. exact Hl.
Qed.

Lemma str_nonzero (kw : string) :
  forallb (fun c => negb (c =? 0)) (str kw) = true ->
  Forall (fun c => c <> 0) (str kw).
Proof.
  intros Hf. apply Forall_forall. intros c Hc.
  rewrite forallb_forall in Hf. specialize (Hf c Hc).
  apply negb_true_iff, Z.eqb_neq in Hf. exact Hf.
Qed.

(** X2: for an argument that is the C string [s], [getCommand] depends on
    [s] alone, whatever follows its NUL in memory: it returns the
    code of a keyword exactly when [s] is that keyword, letter for letter,
    and [CMDUNKNOWN] exactly for every other string. *)
Theorem getCommand_keywords (p : bytes_at) (s : list Z) :
  holds_string p s ->
  (getCommand p = CMDALL <-> s = str "all")
  /\ (getCommand p = CMDMOS <-> s = str "mos")
  /\ (getCommand p = CMDVDP <-> s = str "vdp")
  /\ (getCommand p = CMDBATCH <-> s = str "batch")
  /\ (getCommand p = CMDFORCE
      <-> s = str "-f" \/ s = str "force" \/ s = str "-force")
  /\ (getCommand p = CMDUNKNOWN
      <-> ~ In s [str "all"; str "mos"; str "vdp"; str "batch"; str "-f";
                  str "force"; str "-force"]).
Proof.
  intros Hp.
  pose proof (keyword_test p s (str "all") Hp (str_nonzero "all"%string eq_refl)) as H1.
  pose proof (keyword_test p s (str "mos") Hp (str_nonzero "mos"%string eq_refl)) as H2.
  pose proof (keyword_test p s (str "vdp") Hp (str_nonzero "vdp"%string eq_refl)) as H3.
  pose proof (keyword_test p s (str "batch") Hp (str_nonzero "batch"%string eq_refl)) as H4.
  pose proof (keyword_test p s (str "-f") Hp (str_nonzero "-f"%string eq_refl)) as H5.
  pose proof (keyword_test p s (str "force") Hp (str_nonzero "force"%string eq_refl)) as H6.
  pose proof (keyword_test p s (str "-force") Hp (str_nonzero "-force"%string eq_refl)) as H7.
  unfold getCommand.
  destruct (memcmp_at p (str "all" ++ [0]) =? 0);
    [assert (E : s = str "all") by (now apply H1); clear H1 H2 H3 H4 H5 H6 H7
    | assert (N1 : s <> str "all") by (intros E; apply H1 in E; discriminate);
      destruct (memcmp_at p (str "mos" ++ [0]) =? 0);
      [assert (E : s = str "mos") by (now apply H2); clear H1 H2 H3 H4 H5 H6 H7
      | assert (N2 : s <> str "mos") by (intros E; apply H2 in E; discriminate);
        destruct (memcmp_at p (str "vdp" ++ [0]) =? 0);
        [assert (E : s = str "vdp") by (now apply H3); clear H1 H2 H3 H4 H5 H6 H7
        | assert (N3 : s <> str "vdp") by (intros E; apply H3 in E; discriminate);
          destruct (memcmp_at p (str "batch" ++ [0]) =? 0);
          [assert (E : s = str "batch") by (now apply H4); clear H1 H2 H3 H4 H5 H6 H7
          | assert (N4 : s <> str "batch") by (intros E; apply H4 in E; discriminate);
            destruct (memcmp_at p (str "-f" ++ [0]) =? 0);
            [assert (E : s = str "-f") by (now apply H5); clear H1 H2 H3 H4 H5 H6 H7
            | assert (N5 : s <> str "-f") by (intros E; apply H5 in E; discriminate);
              destruct (memcmp_at p (str "force" ++ [0]) =? 0);
              [assert (E : s = str "force") by (now apply H6); clear H1 H2 H3 H4 H5 H6 H7
              | assert (N6 : s <> str "force") by (intros E; apply H6 in E; discriminate);
                destruct (memcmp_at p (str "-force" ++ [0]) =? 0);
                [assert (E : s = str "-force") by (now apply H7); clear H1 H2 H3 H4 H5 H6 H7
                | assert (N7 : s <> str "-force") by (intros E; apply H7 in E; discriminate);
                  clear H1 H2 H3 H4 H5 H6 H7]]]]]]].
  all: try solve
    [ subst s; clear Hp; cbn [In];
      repeat split; intros; try discriminate; try reflexivity;
      repeat match goal with
        | Hx : _ \/ _ |- _ => destruct Hx as [Hx | Hx]
        end;
      try discriminate; try tauto;
      exfalso; match goal with Hx : ~ _ |- _ => apply Hx; tauto end ].
  assert (Hnot : ~ In s [str "all"; str "mos"; str "vdp"; str "batch";
                         str "-f"; str "force"; str "-force"]).
  { cbn [In]. intros Hin.
    repeat (destruct Hin as [Hin | Hin]; [symmetry in Hin; contradiction|]).
    exact Hin. }
  repeat split; intros Hx; try discriminate; try contradiction;
    try exact Hnot.
  destruct Hx as [Hx | [Hx | Hx]]; contradiction.
Qed.

Lemma getCommand_keywords_witness :
  getCommand (buffer_at (str "batch" ++ [0] ++ str "-f")) = CMDBATCH.
Proof.
  destruct (getCommand_keywords (buffer_at (str "batch" ++ [0] ++ str "-f"))
              (str "batch")) as (_ & _ & _ & Hb & _).
  - split; [|split].
    + intros i Hi. change (length (str "batch")) with 5%nat in Hi.
      destruct i as [|[|[|[|[|i]]]]]; try reflexivity; lia.
    + reflexivity.
    + repeat constructor; discriminate.
  - apply Hb. reflexivity.
Defined.

(** What every pass through the loop of [parseCommands] keeps: [P] holds of
    the options at each step when it holds at the start and each of the
    five assignments of the [switch] keeps it under the guard of its case;
    [N] holds of every file name stored. *)
Lemma parse_loop_keeps (P : options -> Prop) (Nm Nv : list Z * bool -> Prop)
    (R : bool -> options -> Prop) :
  (forall o, P o -> flashmos o || flashvdp o = false -> P (set_all false o)) ->
  (forall o, P o -> optbatch o = false -> P (set_all true o)) ->
  (forall o nm, P o -> flashmos o = false -> Nm nm -> P (set_mos_name nm o)) ->
  (forall o nm, P o -> flashvdp o = false -> Nv nm -> P (set_vdp_name nm o)) ->
  (forall o, P o -> optforce o && negb (optbatch o) = false -> P (set_force o)) ->
  Nm (DEFAULT_MOSFIRMWARE, false) -> Nv (DEFAULT_VDPFIRMWARE, false) ->
  (forall o, P o -> R false o) ->
  (forall o, P o -> R (flashvdp o || flashmos o) o) ->
  forall args,
    (forall a, In a args -> getCommand a = CMDUNKNOWN ->
               Nm (strcpy_name a) /\ Nv (strcpy_name a)) ->
    forall o, P o ->
      R (fst (parse_loop args o)) (snd (parse_loop args o)).
Proof.
  intros Hall Hbatch Hmos Hvdp Hforce Nmos Nvdp Rfail Rend args.
  remember (length args) as n eqn:Hn.
  revert args Hn. induction n as [n IH] using lt_wf_ind.
  intros args Hn Hargs o Po. destruct args as [|command rest].
  - cbn [parse_loop fst snd]. now apply Rend.
  - cbn [length] in Hn.
    assert (IHrest : forall o', P o' ->
              R (fst (parse_loop rest o')) (snd (parse_loop rest o'))).
    { intros o' Po'. apply (IH (length rest)); [lia | reflexivity | | exact Po'].
      intros a Ha. apply Hargs. now right. }
    cbn [parse_loop].
    destruct (getCommand command =? CMDUNKNOWN); [now apply Rfail|].
    destruct (getCommand command =? CMDALL).
    { destruct (flashmos o || flashvdp o) eqn:E; [now apply Rfail|].
      apply IHrest, Hall; assumption. }
    destruct (getCommand command =? CMDMOS).
    { destruct (flashmos o) eqn:E; [now apply Rfail|].
      destruct rest as [|next rest'].
      - apply IHrest, Hmos; assumption.
      - destruct (getCommand next =? CMDUNKNOWN) eqn:En.
        + apply (IH (length rest')); [cbn [length] in *; lia | reflexivity | |].
          * intros a Ha. apply Hargs. right. now right.
          * apply Hmos; [assumption | assumption |].
            apply Hargs; [right; now left | now apply Z.eqb_eq].
        + apply IHrest, Hmos; assumption. }
    destruct (getCommand command =? CMDVDP).
    { destruct (flashvdp o) eqn:E; [now apply Rfail|].
      destruct rest as [|next rest'].
      - apply IHrest, Hvdp; assumption.
      - destruct (getCommand next =? CMDUNKNOWN) eqn:En.
        + apply (IH (length rest')); [cbn [length] in *; lia | reflexivity | |].
          * intros a Ha. apply Hargs. right. now right.
          * apply Hvdp; [assumption | assumption |].
            apply Hargs; [right; now left | now apply Z.eqb_eq].
        + apply IHrest, Hvdp; assumption. }
    destruct (getCommand command =? CMDBATCH).
    { destruct (optbatch o) eqn:E; [now apply Rfail|].
      apply IHrest, Hbatch; assumption. }
    destruct (getCommand command =? CMDFORCE).
    { destruct (optforce o && negb (optbatch o)) eqn:E; [now apply Rfail|].
      apply IHrest, Hforce; assumption. }
    now apply IHrest.
Qed.

(** X3: when [parseCommands] returns true, at least one of the two
    firmware targets is selected; in particular a command line of options
    only (or of nothing) is refused. *)
Theorem parseCommands_selects_target (argv : list bytes_at) (o : options) :
  fst (parseCommands argv o) = true ->
  flashmos (snd (parseCommands argv o)) = true
  \/ flashvdp (snd (parseCommands argv o)) = true.
Proof.
  unfold parseCommands.
  apply (parse_loop_keeps (fun _ => True) (fun _ => True) (fun _ => True)
           (fun b o' => b = true -> flashmos o' = true \/ flashvdp o' = true));
    try (intros; exact I); try (intros; split; exact I).
  - intros o' _ Hf. discriminate.
  - intros o' _ Hf. apply orb_true_iff in Hf. tauto.
Qed.

Lemma parseCommands_selects_target_witness :
  flashmos (snd (parseCommands
                   [buffer_at (str "flash"); buffer_at (str "mos")] no_options))
  = true
  \/ flashvdp (snd (parseCommands
                      [buffer_at (str "flash"); buffer_at (str "mos")]
                      no_options)) = true.
Proof.
  apply (parseCommands_selects_target
           [buffer_at (str "flash"); buffer_at (str "mos")] no_options).
  vm_compute. reflexivity.
Defined.



Lemma scan_string_fits (src : bytes_at) (s : list Z) :
  forall i n,
    (forall j, (j < length s)%nat -> src (i + Z.of_nat j) = nth j s 0) ->
    src (i + Z.of_nat (length s)) = 0 ->
    Forall (fun c => c <> 0) s -> (length s < n)%nat ->
    scan_string src i n = (s, false).
Proof.
  induction s as [|c s IH]; intros i n Hs Hz Hnz Hn;
    (destruct n as [|n]; [cbn [length] in Hn; lia|]); cbn [scan_string].
  - cbn [length] in Hz. rewrite Z.add_0_r in Hz. rewrite Hz. reflexivity.
  - pose proof (Hs 0%nat ltac:(cbn [length]; lia)) as H0.
    rewrite Z.add_0_r in H0. cbn [nth] in H0.
    apply Forall_cons_iff in Hnz. destruct Hnz as [Hc Hnz'].
    rewrite H0. apply Z.eqb_neq in Hc. rewrite Hc.
    rewrite (IH (i + 1) n); [reflexivity | | | assumption | cbn [length] in Hn; lia].
    + intros j Hj. specialize (Hs (S j) ltac:(cbn [length]; lia)).
      cbn [nth] in Hs. rewrite <- Hs. f_equal. lia.
    + rewrite <- Hz. f_equal. cbn [length]. lia.
Qed.

Lemma strcpy_name_fits (a : bytes_at) (s : list Z) :
  holds_string a s -> (length s <= 255)%nat -> strcpy_name a = (s, false).
Proof.
  intros (Hs & Hz & Hnz) Hl. unfold strcpy_name.
  apply scan_string_fits; [exact Hs | exact Hz | exact Hnz | lia].
Qed.

(** [strcpy] runs past the 256 bytes of a name array exactly when the
    source has no NUL among its first 256 bytes. *)
Lemma scan_string_overrun (src : bytes_at) :
  forall n i,
    snd (scan_string src i n) = true
    <-> (forall j, (j < n)%nat -> src (i + Z.of_nat j) <> 0).
Proof.
  induction n as [|n IH]; intros i; cbn [scan_string].
  - cbn [snd]. split; [intros _ j Hj; lia | reflexivity].
  - destruct (src i =? 0) eqn:E.
    + cbn [snd]. split; [discriminate|]. intros Hj.
      apply Z.eqb_eq in E. specialize (Hj 0%nat ltac:(lia)).
      rewrite Z.add_0_r in Hj. contradiction.
    + apply Z.eqb_neq in E. specialize (IH (i + 1)).
      destruct (scan_string src (i + 1) n) as [cs over]. cbn [snd] in *.
      rewrite IH. split.
      * intros Hr [|j] Hj; [now rewrite Z.add_0_r|].
        replace (i + Z.of_nat (S j)) with (i + 1 + Z.of_nat j) by lia.
        apply Hr. lia.
      * intros Hr j Hj.
        replace (i + 1 + Z.of_nat j) with (i + Z.of_nat (S j)) by lia.
        apply Hr. lia.
Qed.

Lemma strcpy_name_overrun (a : bytes_at) :
  snd (strcpy_name a) = true <-> (forall i, 0 <= i < 256 -> a i <> 0).
Proof.
  unfold strcpy_name. rewrite scan_string_overrun. split.
  - intros Hj i Hi. specialize (Hj (Z.to_nat i) ltac:(lia)).
    now rewrite Z2Nat.id in Hj by lia.
  - intros Hi j Hj. apply Hi. lia.
Qed.

(** A keyword test that succeeds has found the NUL of the keyword. *)
Lemma memcmp_at_nul (p : bytes_at) (kw : list Z) :
  (memcmp_at p (kw ++ [0]) =? 0) = true -> p (Z.of_nat (length kw)) = 0.
Proof.
  unfold memcmp_at.
  set (l := map (fun i => p (Z.of_nat i)) (seq 0 (length (kw ++ [0])))).
  assert (Hl : length l = length (kw ++ [0]))
    by (unfold l; now rewrite length_map, length_seq).
  intros E. rewrite <- Hl in E. apply memcmp_zero in E; [|exact Hl].
  assert (Hn : nth (length kw) l 0 = 0)
    by (rewrite E, app_nth2, Nat.sub_diag; [reflexivity | lia]).
  assert (Hlt : (length kw < length (kw ++ [0%Z]))%nat)
    by (rewrite length_app; cbn [length]; lia).
  unfold l in Hn.
  rewrite (nth_indep _ 0 ((fun i => p (Z.of_nat i)) 0%nat)) in Hn
    by (now rewrite length_map, length_seq).
  rewrite (map_nth (fun i => p (Z.of_nat i))), seq_nth in Hn by exact Hlt.
  exact Hn.
Qed.

Lemma getCommand_without_nul (a : bytes_at) :
  (forall i, 0 <= i < 7 -> a i <> 0) -> getCommand a = CMDUNKNOWN.
Proof.
  intros Ha. unfold getCommand.
  repeat match goal with
         | |- context [memcmp_at a (str ?k ++ [0]) =? 0] =>
             let E := fresh "E" in
             destruct (memcmp_at a (str k ++ [0]) =? 0) eqn:E;
             [exfalso; apply memcmp_at_nul in E; revert E; apply Ha;
              vm_compute; split; [discriminate | reflexivity]|]
         end.
  reflexivity.
Qed.

Lemma getCommand_mos (k : bytes_at) :
  holds_string k (str "mos") -> getCommand k = CMDMOS.
Proof.
  intros Hk. unfold getCommand.
  destruct (memcmp_at k (str "all" ++ [0]) =? 0) eqn:E1.
  { apply (keyword_test k _ _ Hk (str_nonzero "all"%string eq_refl)) in E1.
    vm_compute in E1. discriminate. }
  assert (E2 : (memcmp_at k (str "mos" ++ [0]) =? 0) = true)
    by (now apply (keyword_test k _ _ Hk (str_nonzero "mos"%string eq_refl))).
  now rewrite E2.
Qed.

Lemma getCommand_vdp (k : bytes_at) :
  holds_string k (str "vdp") -> getCommand k = CMDVDP.
Proof.
  intros Hk. unfold getCommand.
  destruct (memcmp_at k (str "all" ++ [0]) =? 0) eqn:E1.
  { apply (keyword_test k _ _ Hk (str_nonzero "all"%string eq_refl)) in E1.
    vm_compute in E1. discriminate. }
  destruct (memcmp_at k (str "mos" ++ [0]) =? 0) eqn:E2.
  { apply (keyword_test k _ _ Hk (str_nonzero "mos"%string eq_refl)) in E2.
    vm_compute in E2. discriminate. }
  assert (E3 : (memcmp_at k (str "vdp" ++ [0]) =? 0) = true)
    by (now apply (keyword_test k _ _ Hk (str_nonzero "vdp"%string eq_refl))).
  now rewrite E3.
Qed.

(** An overrun is not undone by what follows on the command line. *)
Lemma parse_loop_overrun_stays (args : list bytes_at) (o : options) :
  name_overrun o = true -> name_overrun (snd (parse_loop args o)) = true.
Proof.
  intros Ho.
  apply (parse_loop_keeps (fun o => name_overrun o = true)
           (fun _ => True) (fun _ => True)
           (fun _ o' => name_overrun o' = true));
    try (intros; assumption); auto.
  - intros o' nm Ho' _ _. cbn. now rewrite Ho'.
  - intros o' nm Ho' _ _. cbn. now rewrite Ho'.
Qed.

(** X5: [parseCommands] copies file names unchecked, so the two 256-byte
    name arrays are safe exactly as far as the arguments are.  When every
    argument is a C string of at most 255 characters, no [strcpy] runs past
    the end of a name array and both stored names have at most 255
    characters.  A copy runs past the end only for an argument that has
    no NUL among its first 256 bytes.  And it does so for such an
    argument that follows [mos] or [vdp] at the head of the command line,
    whatever comes after it: the argument is then no keyword, and its copy
    overruns [mosfilename] or [vdpfilename]. *)
Theorem parseCommands_names_fit (argv : list bytes_at) :
  ((forall a, In a (tl argv) ->
              exists s, holds_string a s /\ (length s <= 255)%nat) ->
   let o := snd (parseCommands argv no_options) in
   name_overrun o = false
   /\ (length (mosfilename o) <= 255)%nat
   /\ (length (vdpfilename o) <= 255)%nat)
  /\ (name_overrun (snd (parseCommands argv no_options)) = true ->
      exists a, In a (tl argv) /\ forall i, 0 <= i < 256 -> a i <> 0)
  /\ (forall argv0 k a rest,
        argv = argv0 :: k :: a :: rest ->
        holds_string k (str "mos") \/ holds_string k (str "vdp") ->
        (forall i, 0 <= i < 256 -> a i <> 0) ->
        getCommand a = CMDUNKNOWN
        /\ name_overrun (snd (parseCommands argv no_options)) = true).
Proof.
  split; [|split].
  - intros Hargs. unfold parseCommands.
    set (P := fun o : options =>
           name_overrun o = false /\ (length (mosfilename o) <= 255)%nat
           /\ (length (vdpfilename o) <= 255)%nat).
    set (N := fun nm : list Z * bool =>
           snd nm = false /\ (length (fst nm) <= 255)%nat).
    apply (parse_loop_keeps P N N (fun _ o' => P o'));
      try (intros; assumption); unfold P, N.
    + intros o (Ho & _ & _) _. cbn.
      repeat split; [exact Ho | |]; apply Nat.leb_le; reflexivity.
    + intros o (Ho & _ & _) _. cbn.
      repeat split; [exact Ho | |]; apply Nat.leb_le; reflexivity.
    + intros o nm (Ho & Hm & Hv) _ (Hn & Hl). cbn. rewrite Ho, Hn. auto.
    + intros o nm (Ho & Hm & Hv) _ (Hn & Hl). cbn. rewrite Ho, Hn. auto.
    + split; [reflexivity | apply Nat.leb_le; reflexivity].
    + split; [reflexivity | apply Nat.leb_le; reflexivity].
    + intros a Ha _. destruct (Hargs a Ha) as (s & Hs & Hl).
      rewrite (strcpy_name_fits a s Hs Hl). cbn. auto.
    + cbn. repeat split; lia.
  - unfold parseCommands.
    set (Ex := exists a, In a (tl argv) /\ forall i, 0 <= i < 256 -> a i <> 0).
    set (P := fun o : options => name_overrun o = true -> Ex).
    set (N := fun nm : list Z * bool => snd nm = true -> Ex).
    apply (parse_loop_keeps P N N (fun _ o' => P o'));
      try (intros; assumption); unfold P, N.
    + intros o nm Ho _ Hn. cbn. intros E.
      apply orb_true_iff in E. destruct E; auto.
    + intros o nm Ho _ Hn. cbn. intros E.
      apply orb_true_iff in E. destruct E; auto.
    + cbn. discriminate.
    + cbn. discriminate.
    + intros a Ha _.
      assert (Hx : snd (strcpy_name a) = true -> Ex).
      { intros E. exists a. split; [exact Ha|].
        now apply strcpy_name_overrun. }
      auto.
    + cbn. discriminate.
  - intros argv0 k a rest -> Hk Ha.
    assert (Hu : getCommand a = CMDUNKNOWN).
    { apply getCommand_without_nul. intros i Hi. apply Ha. lia. }
    split; [exact Hu|].
    assert (Hover : snd (strcpy_name a) = true) by now apply strcpy_name_overrun.
    unfold parseCommands. cbn [tl parse_loop].
    destruct Hk as [Hk | Hk].
    + rewrite (getCommand_mos k Hk), Hu.
      change (CMDMOS =? CMDUNKNOWN) with false.
      change (CMDMOS =? CMDALL) with false.
      change (CMDMOS =? CMDMOS) with true.
      change (CMDUNKNOWN =? CMDUNKNOWN) with true.
      cbn [flashmos no_options].
      apply parse_loop_overrun_stays. cbn. exact Hover.
    + rewrite (getCommand_vdp k Hk), Hu.
      change (CMDVDP =? CMDUNKNOWN) with false.
      change (CMDVDP =? CMDALL) with false.
      change (CMDVDP =? CMDMOS) with false.
      change (CMDVDP =? CMDVDP) with true.
      change (CMDUNKNOWN =? CMDUNKNOWN) with true.
      cbn [flashvdp no_options].
      apply parse_loop_overrun_stays. cbn. exact Hover.
Qed.

Lemma parseCommands_names_fit_witness :
  name_overrun
    (snd (parseCommands
            [buffer_at (str "flash"); buffer_at (str "mos");
             buffer_at (str "my.bin")] no_options)) = false
  /\ name_overrun
       (snd (parseCommands
               [buffer_at (str "flash"); buffer_at (str "mos");
                buffer_at (repeat 65 300); buffer_at (str "vdp")]
               no_options)) = true.
Proof.
  split.
  - destruct (parseCommands_names_fit
                [buffer_at (str "flash"); buffer_at (str "mos");
                 buffer_at (str "my.bin")]) as (Hfit & _).
    apply Hfit. intros a [<- | [<- | []]].
    + exists (str "mos"). split; [|cbn; lia].
      split; [|split]; [| reflexivity | repeat constructor; discriminate].
      intros i Hi. change (length (str "mos")) with 3%nat in Hi.
      destruct i as [|[|[|i]]]; try reflexivity; lia.
    + exists (str "my.bin"). split; [|cbn; lia].
      split; [|split]; [| reflexivity | repeat constructor; discriminate].
      intros i Hi. change (length (str "my.bin")) with 6%nat in Hi.
      destruct i as [|[|[|[|[|[|i]]]]]]; try reflexivity; lia.
  - destruct (parseCommands_names_fit
                [buffer_at (str "flash"); buffer_at (str "mos");
                 buffer_at (repeat 65 300); buffer_at (str "vdp")])
      as (_ & _ & Hover).
    apply (Hover (buffer_at (str "flash")) (buffer_at (str "mos"))
             (buffer_at (repeat 65 300)) [buffer_at (str "vdp")] eq_refl).
    + left. split; [|split]; [| reflexivity | repeat constructor; discriminate].
      intros i Hi. change (length (str "mos")) with 3%nat in Hi.
      destruct i as [|[|[|i]]]; try reflexivity; lia.
    + intros i Hi. unfold buffer_at.
      replace (i <? 0) with false by (symmetry; apply Z.ltb_ge; lia).
      assert (Hin : In (nth (Z.to_nat i) (repeat 65 300) 0) (repeat 65 300))
        by (apply nth_In; rewrite repeat_length; lia).
      apply repeat_spec in Hin. rewrite Hin. discriminate.
Defined.

(** X6: a file name is never taken from a keyword.  For arguments that are
    C strings of at most 255 characters, the name [parseCommands] stores
    for a selected target is the default name of that target or one of the
    arguments, and then one that is none of the seven keywords: a firmware
    file called, say, [all] or [force] cannot be named on the command
    line. *)
Theorem parseCommands_names_from_arguments (argv : list bytes_at) :
  (forall a, In a (tl argv) ->
             exists s, holds_string a s /\ (length s <= 255)%nat) ->
  let o := snd (parseCommands argv no_options) in
  let given (name : list Z) :=
    exists a, In a (tl argv) /\ holds_string a name
              /\ ~ In name [str "all"; str "mos"; str "vdp"; str "batch";
                            str "-f"; str "force"; str "-force"] in
  (flashmos o = true ->
   mosfilename o = DEFAULT_MOSFIRMWARE \/ given (mosfilename o))
  /\ (flashvdp o = true ->
      vdpfilename o = DEFAULT_VDPFIRMWARE \/ given (vdpfilename o)).
Proof.
  intros Hargs. cbv zeta. unfold parseCommands.
  set (given := fun name : list Z =>
         exists a, In a (tl argv) /\ holds_string a name
                   /\ ~ In name [str "all"; str "mos"; str "vdp"; str "batch";
                                 str "-f"; str "force"; str "-force"]).
  set (P := fun o : options =>
         (flashmos o = true ->
          mosfilename o = DEFAULT_MOSFIRMWARE \/ given (mosfilename o))
         /\ (flashvdp o = true ->
             vdpfilename o = DEFAULT_VDPFIRMWARE \/ given (vdpfilename o))).
  apply (parse_loop_keeps P
           (fun nm => fst nm = DEFAULT_MOSFIRMWARE \/ given (fst nm))
           (fun nm => fst nm = DEFAULT_VDPFIRMWARE \/ given (fst nm))
           (fun _ o' => P o'));
    try (intros; assumption); unfold P.
  - intros o _ _. cbn. auto.
  - intros o _ _. cbn. auto.
  - intros o nm (_ & Hv) _ Hn. cbn. auto.
  - intros o nm (Hm & _) _ Hn. cbn. auto.
  - cbn. auto.
  - cbn. auto.
  - intros a Ha Hu. destruct (Hargs a Ha) as (s & Hs & Hl).
    rewrite (strcpy_name_fits a s Hs Hl). cbn [fst].
    assert (Hg : given s).
    { exists a. split; [exact Ha|]. split; [exact Hs|].
      now apply (getCommand_keywords a s Hs). }
    auto.
  - cbn. split; discriminate.
Qed.

Lemma parseCommands_names_from_arguments_witness :
  let argv := [buffer_at (str "flash"); buffer_at (str "mos");
               buffer_at (str "my.bin")] in
  let o := snd (parseCommands argv no_options) in
  mosfilename o = DEFAULT_MOSFIRMWARE
  \/ exists a, In a (tl argv) /\ holds_string a (mosfilename o)
               /\ ~ In (mosfilename o)
                       [str "all"; str "mos"; str "vdp"; str "batch";
                        str "-f"; str "force"; str "-force"].
Proof.
  cbv zeta.
  destruct (parseCommands_names_from_arguments
              [buffer_at (str "flash"); buffer_at (str "mos");
               buffer_at (str "my.bin")]) as (Hmos & _).
  - intros a [<- | [<- | []]].
    + exists (str "mos"). split; [|cbn; lia].
      split; [|split]; [| reflexivity | repeat constructor; discriminate].
      intros i Hi. change (length (str "mos")) with 3%nat in Hi.
      destruct i as [|[|[|i]]]; try reflexivity; lia.
    + exists (str "my.bin"). split; [|cbn; lia].
      split; [|split]; [| reflexivity | repeat constructor; discriminate].
      intros i Hi. change (length (str "my.bin")) with 6%nat in Hi.
      destruct i as [|[|[|[|[|[|i]]]]]]; try reflexivity; lia.
  - apply Hmos. vm_compute. reflexivity.
Defined.

(** * The console, the handshake and the retry loop, continued *)

Lemma freads_app a b : freads (a ++ b) = freads a ++ freads b.
Proof. apply flat_map_app. Qed.

Lemma prot_writes_app a b : prot_writes (a ++ b) = prot_writes a ++ prot_writes b.
Proof. apply flat_map_app. Qed.

Lemma freads_ops t : freads (ops t) = freads t.
Proof.
  induction t as [|e t IH]; [reflexivity|].
  unfold ops in *.
  destruct e as [| r v | r v | | | | | | | | |]; try destruct r;
    cbn [filter is_op is_console negb flat_map app freads];
    fold (freads t); fold (freads (filter is_op t)); now rewrite ?IH.
Qed.

Lemma prot_writes_ops t : prot_writes (ops t) = prot_writes t.
Proof.
  induction t as [|e t IH]; [reflexivity|].
  unfold ops in *.
  destruct e as [| r v | r v | | | | | | | | |]; try destruct r;
    cbn [filter is_op is_console negb flat_map app prot_writes];
    fold (prot_writes t); fold (prot_writes (filter is_op t)); now rewrite ?IH.
Qed.

(** X7: [putch] polls the line status until a read shows the transmit
    register empty (bit 6 set) and only then writes the byte, once: every
    read before the last shows the bit clear, and the write of the low
    eight bits of [c] is the last action. *)
Theorem putch_waits_until_ready {W} `{Platform W} (lat fuel : nat) (c : Z)
    (s : cstate W) :
  responsive lat -> (lat <= fuel)%nat ->
  runs (putch fuel c) s
       (fun r t _ =>
          r = c
          /\ exists busy ready,
              t = map (EvIn UART0_LSR) busy
                  ++ [EvIn UART0_LSR ready; EvOut UART0_THR (c mod 256)]
              /\ Forall (fun v => Z.land v 0x40 = 0) busy
              /\ Z.land ready 0x40 <> 0).
Proof.
  intros Hlive Hf. unfold putch.
  apply runs_bind. eapply runs_weaken.
  { apply (wait_while_runs _ _ lat); [apply Hlive | exact Hf]. }
  intros [] t s1 ((vs & v & -> & Hvs & Hv) & _). cbv beta.
  do 3 eexists. split; [reflexivity|]. split; [reflexivity|].
  exists vs, v. split; [|split].
  - rewrite map_app, <- !app_assoc. reflexivity.
  - apply Forall_forall. intros x Hx.
    rewrite forallb_forall in Hvs. apply Z.eqb_eq, (Hvs x Hx).
  - unfold tx_busy in Hv. now apply Z.eqb_neq.
Qed.

Lemma putch_waits_until_ready_witness :
  runs (putch 2 65) (session (board false []) 0)
       (fun r t _ => r = 65 /\ exists busy ready,
            t = map (EvIn UART0_LSR) busy
                ++ [EvIn UART0_LSR ready; EvOut UART0_THR (65 mod 256)]
            /\ Forall (fun v => Z.land v 0x40 = 0) busy
            /\ Z.land ready 0x40 <> 0).
Proof.
  apply (putch_waits_until_ready 2 2 65 (session (board false []) 0)
           sim_responsive). lia.
Defined.

Lemma low_byte (x : Z) : u8 (Z.land x 0xFF) = x mod 256.
Proof.
  change 0xFF with (Z.ones 8). rewrite Z.land_ones by lia.
  unfold u8, wrap. change (2 ^ 8) with 256. apply Z.mod_mod. lia.
Qed.

Lemma high_byte (x : Z) :
  0 <= x < 65536 -> u8 (Z.land (Z.shiftr x 8) 0xFF) = x / 256.
Proof.
  intros Hx. rewrite low_byte, Z.shiftr_div_pow2 by lia.
  change (2 ^ 8) with 256. apply Z.mod_small. split.
  - apply Z.div_pos; lia.
  - apply Z.div_lt_upper_bound; lia.
Qed.



Lemma memcpy_prot_writes (cs : list (Z * Z * Z)) :
  prot_writes (map (fun c => let '(d, s, n) := c in EvMemcpy d s n) cs) = [].
Proof. induction cs as [|[[d s] n] cs IH]; [reflexivity | exact IH]. Qed.

Lemma attempt_ops_prot_writes filesize v :
  prot_writes (attempt_ops filesize v) = [0; 0xFF].
Proof.
  unfold attempt_ops. rewrite !prot_writes_app.
  assert (E : program_ops filesize
              = map (fun c => let '(d, s, n) := c in EvMemcpy d s n)
                    (map (page_copy filesize)
                         (seq 0 (Z.to_nat ((filesize + PAGESIZE - 1) / PAGESIZE))))).
  { unfold program_ops. now rewrite map_map. }
  rewrite E, memcpy_prot_writes. reflexivity.
Qed.

(** X9: [update_mos] stops at the first verify pass that matches.  It
    returns true exactly when the staged checksum matched and the last
    verify pass of the run computed the expected checksum; no verify pass
    before the last one matched; there are at most three; and when the
    staged checksum did not match there is none. *)
Theorem update_mos_stops_at_first_match {W} `{Platform W} (lat fuel : nat)
    (s : cstate W) :
  responsive lat ->
  (lat <= fuel)%nat -> (unread s < fuel)%nat -> (3 < fuel)%nat ->
  runs (update_mos fuel) s
       (fun ok t _ =>
          exists staged vs,
            crc_results t = staged :: vs
            /\ (length vs <= 3)%nat
            /\ Forall (fun v => v <> moscrc s) (removelast vs)
            /\ (ok = true
                <-> staged = moscrc s /\ vs <> [] /\ last vs 0 = moscrc s)
            /\ (staged <> moscrc s -> vs = [])).
Proof.
  intros Hlive Hf Hu H3.
  eapply runs_weaken; [apply (update_mos_result_runs lat); assumption|].
  intros ok t s' (reads & staged & vs & Hreads & Hops & Hcase).
  destruct (mos_ops_views _ _ _ _ Hreads Hops) as (Hcrc & _).
  destruct (staged =? moscrc s) eqn:E.
  - apply Z.eqb_eq in E. exists staged, vs. split.
    { rewrite Hcrc. cbn [crc_results flat_map app]. fold crc_results.
      f_equal. apply attempts_crc. }
    destruct Hcase as [[(-> & vs0 & -> & Hvs0 & Hlen) | (-> & Hvs & Hlen)] _].
    + split; [exact Hlen|]. rewrite removelast_last, last_last.
      split; [exact Hvs0|]. split; [|intros Hn; contradiction].
      split; [intros _|reflexivity].
      split; [exact E|]. split; [|reflexivity].
      intros Hnil. apply app_eq_nil in Hnil. destruct Hnil. discriminate.
    + split; [lia|].
      assert (Hlast : vs <> [] -> last vs 0 <> moscrc s).
      { intros Hne. rewrite Forall_forall in Hvs. apply Hvs.
        destruct (exists_last Hne) as (l & a & ->).
        rewrite last_last. apply in_or_app. right. now left. }
      split.
      { rewrite Forall_forall in *. intros x Hx. apply Hvs.
        destruct vs as [|v0 vs]; [contradiction|].
        destruct (exists_last (l := v0 :: vs) ltac:(discriminate)) as (l & a & El).
        rewrite El in *. rewrite removelast_last in Hx.
        apply in_or_app. now left. }
      split; [|intros Hn; contradiction].
      split; [discriminate|]. intros (_ & Hne & Hl). now apply Hlast in Hne.
  - apply Z.eqb_neq in E. destruct Hcase as (-> & -> & _).
    exists staged, []. split; [now rewrite Hcrc|]. cbn.
    repeat split; try constructor; try lia; try discriminate; auto.
    all: try (intros (Hx & _); contradiction).
Qed.

Lemma update_mos_stops_at_first_match_witness :
  runs (update_mos 9) (session (board false []) image_crc)
       (fun ok t _ => ok = true /\ length (crc_results t) = 2%nat).
Proof.
  destruct (update_mos_stops_at_first_match 2 9
              (session (board false []) image_crc) sim_responsive)
    as (ok & t & s' & E & staged & vs & Hcrc & _ & _ & Hok & _);
    [lia | vm_compute; lia | lia |].
  assert (C : option_map (fun x => crc_results (snd (fst x)))
                (update_mos 9 (session (board false []) image_crc))
              = Some [1087107893; 1087107893])
    by (vm_compute; reflexivity).
  rewrite E in C. cbn [option_map fst snd] in C. rewrite Hcrc in C.
  injection C as -> ->.
  unfold runs. exists ok, t, s'. split; [exact E|]. split.
  - apply Hok. split; [vm_compute; reflexivity|].
    split; [discriminate | vm_compute; reflexivity].
  - rewrite Hcrc. reflexivity.
Defined.

(** X10: [update_mos] never returns with the flash unprotected.  The
    writes to the protection register in a run come in pairs, 0 and then
    0xFF, one pair per verify pass; so whenever protection was taken off,
    the last write to the register before the return put it back on. *)
Theorem update_mos_leaves_flash_protected {W} `{Platform W} (lat fuel : nat)
    (s : cstate W) :
  responsive lat ->
  (lat <= fuel)%nat -> (unread s < fuel)%nat -> (3 < fuel)%nat ->
  runs (update_mos fuel) s
       (fun _ t _ =>
          exists staged vs,
            crc_results t = staged :: vs
            /\ prot_writes t = flat_map (fun _ => [0; 0xFF]) vs
            /\ last (prot_writes t) 0xFF = 0xFF).
Proof.
  intros Hlive Hf Hu H3.
  eapply runs_weaken; [apply (update_mos_result_runs lat); assumption|].
  intros ok t s' (reads & staged & vs & Hreads & Hops & Hcase).
  destruct (mos_ops_views _ _ _ _ Hreads Hops) as (Hcrc & _).
  assert (Hr : prot_writes reads = []).
  { clear - Hreads. induction reads as [|e reads IH]; [reflexivity|].
    cbn [forallb] in Hreads. apply andb_true_iff in Hreads.
    destruct Hreads as [He Hr]. destruct e; try discriminate; cbn; auto. }
  assert (Hatt : forall fs l, prot_writes (flat_map (attempt_ops fs) l)
                              = flat_map (fun _ => [0; 0xFF]) l).
  { intros fs l. induction l as [|v l IH]; [reflexivity|].
    cbn [flat_map]. now rewrite prot_writes_app, attempt_ops_prot_writes, IH. }
  assert (Hlast : forall l : list Z,
             last (flat_map (fun _ => [0; 0xFF]) l) 0xFF = 0xFF).
  { intros l. induction l as [|v l IH]; [reflexivity|].
    cbn [flat_map app]. destruct (flat_map (fun _ => [0; 255]) l) eqn:El.
    - reflexivity.
    - cbn [last] in *. exact IH. }
  assert (Hpw : prot_writes t
                = flat_map (fun _ => [0; 0xFF])
                           (if staged =? moscrc s then vs else [])).
  { rewrite <- prot_writes_ops, Hops, !prot_writes_app, Hr.
    destruct (staged =? moscrc s); [|reflexivity].
    cbn [prot_writes flat_map app]. fold prot_writes. apply Hatt. }
  exists staged, (if staged =? moscrc s then vs else []).
  split; [|split; [exact Hpw | rewrite Hpw; apply Hlast]].
  rewrite Hcrc. destruct (staged =? moscrc s); [|reflexivity].
  cbn [crc_results flat_map app]. fold crc_results. f_equal. apply attempts_crc.
Qed.

Lemma update_mos_leaves_flash_protected_witness :
  runs (update_mos 9) (session (board true []) image_crc)
       (fun _ t _ =>
          exists staged vs,
            crc_results t = staged :: vs
            /\ prot_writes t = flat_map (fun _ => [0; 0xFF]) vs
            /\ last (prot_writes t) 0xFF = 0xFF).
Proof.
  apply (update_mos_leaves_flash_protected 2 9
           (session (board true []) image_crc) sim_responsive);
    [lia | vm_compute; lia | lia].
Defined.

(** * Staging *)

Lemma take_count (n : Z) (l : list Z) :
  0 <= n -> Z.of_nat (length (take n l)) = Z.min n (Z.of_nat (length l)).
Proof.
  revert n. induction l as [|x l IH]; intros n Hn; cbn [take length].
  - lia.
  - destruct (0 <? n) eqn:E.
    + apply Z.ltb_lt in E. cbn [length].
      rewrite !Nat2Z.inj_succ, IH by lia. lia.
    + apply Z.ltb_ge in E. cbn [length]. lia.
Qed.

Lemma take_skipn (l : list Z) :
  forall n, take n l ++ skipn (length (take n l)) l = l.
Proof.
  induction l as [|x l IH]; intros n; cbn [take]; [reflexivity|].
  destruct (0 <? n); cbn [length skipn app]; [now rewrite IH | reflexivity].
Qed.

Lemma step_byte_u8 (c b : Z) : Crc32.step_byte c (u8 b) = Crc32.step_byte c b.
Proof.
  unfold Crc32.step_byte. do 2 f_equal.
  change 0xFF with (Z.ones 8). rewrite !Z.land_ones by lia.
  unfold u8, wrap. apply Z.mod_mod. lia.
Qed.

Lemma feed_u8 (bs : list Z) :
  forall acc, Crc32.feed acc (map u8 bs) = Crc32.feed acc bs.
Proof.
  unfold Crc32.feed. induction bs as [|b bs IH]; intros acc; cbn [map fold_left].
  - reflexivity.
  - now rewrite step_byte_u8, IH.
Qed.

Lemma map_nth_seq (f : Z -> Z) (l : list Z) :
  map (fun i => f (nth i l 0)) (seq 0 (length l)) = map f l.
Proof.
  apply (nth_ext _ _ (f 0) (f 0)).
  - now rewrite !length_map, length_seq.
  - intros i Hi. rewrite length_map, length_seq in Hi.
    rewrite (map_nth f).
    rewrite (nth_indep _ (f 0) ((fun i => f (nth i l 0)) 0%nat))
      by (now rewrite length_map, length_seq).
    rewrite (map_nth (fun i => f (nth i l 0))), seq_nth by exact Hi.
    reflexivity.
Qed.

Section Staging.

Context {W : Type} `{Platform W}.
Variable lat : nat.
Hypothesis Hlive : responsive lat.

Lemma read_loop_layout fuel0 :
  (lat <= fuel0)%nat ->
  forall fuel ptr (s : cstate W),
    (unread s < fuel)%nat ->
    runs (read_loop fuel0 fuel ptr) s
         (fun _ t s' =>
            contiguous ptr (freads t)
            /\ total_read (freads t) = Z.of_nat (unread s)
            /\ (exists pre q, freads t = pre ++ [(q, 0)]
                              /\ Forall (fun r => 0 < snd r <= BLOCKSIZE) pre)
            /\ unread s' = 0%nat
            /\ fdata (mosfilehandle s') = fdata (mosfilehandle s)
            /\ vdpfilehandle s' = vdpfilehandle s).
Proof.
  intros Hf. induction fuel as [|fuel IH]; intros ptr s Hu; [lia|].
  cbn [read_loop]. apply runs_bind. do 3 eexists. split; [reflexivity|].
  cbv beta.
  set (chunk := take BLOCKSIZE
                  (skipn (fpos (mosfilehandle s)) (fdata (mosfilehandle s)))).
  assert (Hgot : Z.of_nat (length chunk)
                 = Z.min BLOCKSIZE (Z.of_nat (unread s))).
  { unfold chunk, unread. rewrite take_count by (unfold BLOCKSIZE; lia).
    now rewrite length_skipn. }
  destruct (0 <? Z.of_nat (length chunk)) eqn:E.
  - apply Z.ltb_lt in E.
    apply runs_bind. do 3 eexists. split; [reflexivity|]. cbv beta.
    apply runs_bind. eapply runs_weaken; [apply (putch_runs lat Hlive); exact Hf|].
    intros r tp sp (_ & Hop & _ & _ & Hg). cbv beta.
    assert (Hup : unread sp = (unread s - length chunk)%nat).
    { rewrite (globals_unread _ _ Hg). unfold unread. cbn. lia. }
    assert (Hdp : fdata (mosfilehandle sp) = fdata (mosfilehandle s)
                  /\ vdpfilehandle sp = vdpfilehandle s).
    { unfold globals in Hg. cbn in Hg. injection Hg as _ _ _ Hm Hv.
      now rewrite Hm, Hv. }
    destruct Hdp as [Hdp Hvp].
    eapply runs_weaken; [apply IH; lia|].
    intros [] t2 s2 (Hc & Ht & (pre & q & Hpre & Hall) & Hu2 & Hd2 & Hv2).
    assert (Hfp : freads tp = []) by (now rewrite <- freads_ops, Hop).
    rewrite !freads_app, Hfp. cbn [freads flat_map app].
    fold (freads t2).
    split; [split; [reflexivity | exact Hc]|].
    split; [cbn [total_read fold_right snd]; fold (total_read (freads t2));
            rewrite Ht, Hup; unfold BLOCKSIZE in *; lia|].
    split.
    { exists ((ptr, Z.of_nat (length chunk)) :: pre), q.
      rewrite Hpre. split; [reflexivity|]. constructor; [|exact Hall].
      cbn [snd]. unfold BLOCKSIZE in *. lia. }
    split; [exact Hu2|]. split; congruence.
  - apply Z.ltb_ge in E. apply runs_ret.
    cbn [freads flat_map app contiguous total_read fold_right snd].
    assert (Hz : unread s = 0%nat) by (unfold BLOCKSIZE in *; lia).
    split; [auto|]. split; [lia|]. split.
    { exists [], ptr. split; [|constructor].
      replace (Z.of_nat (length chunk)) with 0 by lia. reflexivity. }
    split; [|split; reflexivity]. unfold unread in *. cbn. lia.
Qed.

Hypothesis Hrb : reads_back.

Lemma read_loop_checksum fuel0 :
  (lat <= fuel0)%nat ->
  forall fuel ptr (s : cstate W),
    (unread s < fuel)%nat ->
    FLASHSIZE <= ptr -> ptr + Z.of_nat (unread s) < 2 ^ 24 ->
    runs (read_loop fuel0 fuel ptr) s
         (fun _ _ s' =>
            crc s' = Crc32.feed (crc s)
                       (skipn (fpos (mosfilehandle s)) (fdata (mosfilehandle s)))).
Proof.
  intros Hf. induction fuel as [|fuel IH]; intros ptr s Hu Hlo Hhi; [lia|].
  cbn [read_loop]. apply runs_bind. do 3 eexists. split; [reflexivity|].
  cbv beta.
  set (rest := skipn (fpos (mosfilehandle s)) (fdata (mosfilehandle s))).
  set (chunk := take BLOCKSIZE rest).
  assert (Hgot : Z.of_nat (length chunk)
                 = Z.min BLOCKSIZE (Z.of_nat (unread s))).
  { unfold chunk, rest, unread. rewrite take_count by (unfold BLOCKSIZE; lia).
    now rewrite length_skipn. }
  destruct (0 <? Z.of_nat (length chunk)) eqn:E.
  - apply Z.ltb_lt in E.
    apply runs_bind. do 3 eexists. split; [reflexivity|]. cbv beta.
    apply runs_bind. eapply runs_weaken; [apply (putch_runs lat Hlive); exact Hf|].
    intros r tp sp (_ & _ & _ & _ & Hg). cbv beta.
    assert (Hmem : mem_bytes (hw_store ptr chunk (plat s)) ptr
                     (Z.of_nat (length chunk)) = map u8 chunk).
    { unfold mem_bytes. rewrite Nat2Z.id, <- map_nth_seq.
      apply map_ext_in. intros i Hi. apply in_seq in Hi.
      rewrite u24_small by (unfold FLASHSIZE in *; lia).
      apply Hrb; unfold BLOCKSIZE in *; lia. }
    assert (Hup : unread sp = (unread s - length chunk)%nat).
    { rewrite (globals_unread _ _ Hg). unfold unread. cbn. lia. }
    assert (Hcp : crc sp = Crc32.feed (crc s) chunk).
    { unfold globals in Hg. cbn in Hg. injection Hg as _ Hc _ _ _.
      rewrite Hc. fold rest. fold chunk. now rewrite Hmem, feed_u8. }
    assert (Hrest : skipn (fpos (mosfilehandle sp)) (fdata (mosfilehandle sp))
                    = skipn (length chunk) rest).
    { unfold globals in Hg. cbn in Hg. injection Hg as _ _ _ Hm _.
      rewrite Hm. cbn [fpos fdata]. fold rest. fold chunk.
      unfold rest. rewrite skipn_skipn. f_equal. lia. }
    eapply runs_weaken.
    { apply IH; [lia | |].
      - rewrite u24_small by (unfold FLASHSIZE, BLOCKSIZE in *; lia).
        unfold BLOCKSIZE in *. lia.
      - rewrite u24_small by (unfold FLASHSIZE, BLOCKSIZE in *; lia).
        unfold BLOCKSIZE in *. lia. }
    intros [] t2 s2 Hc2. rewrite Hc2, Hcp, Hrest, <- feed_app.
    unfold chunk. now rewrite take_skipn.
  - apply Z.ltb_ge in E. apply runs_ret. cbn [crc set_mosfile set_plat].
    assert (Hz : length rest = 0%nat).
    { unfold rest. rewrite length_skipn. fold (unread s).
      unfold BLOCKSIZE in *. lia. }
    destruct rest; [reflexivity | discriminate].
Qed.

End Staging.




Lemma sim_reads_back : reads_back (W := sim).
Proof.
  intros p bs w i Hi _ Hlo _. cbn [hw_load hw_store sim_platform].
  unfold sim_write, sim_with_mem. cbn [s_mem].
  replace ((p <=? p + Z.of_nat i) && (p + Z.of_nat i <? p + Z.of_nat (length bs)))
    with true by (symmetry; apply andb_true_iff; split;
                  [apply Z.leb_le | apply Z.ltb_lt]; lia).
  replace (p + Z.of_nat i <? FLASHSIZE) with false
    by (symmetry; apply Z.ltb_ge; lia).
  replace (p + Z.of_nat i - p) with (Z.of_nat i) by lia.
  now rewrite Nat2Z.id.
Qed.


(** * The session around the updates *)

Lemma steps_app a b : steps (a ++ b) = steps a ++ steps b.
Proof. apply filter_app. Qed.

Lemma steps_polls r vs : steps (map (EvIn r) vs) = [].
Proof. induction vs as [|v vs IH]; [reflexivity | exact IH]. Qed.

Lemma tolower_key (k c : Z) :
  is_key k -> 97 <= c <= 122 ->
  (u8 (tolower k) = c <-> k = c \/ k = c - 32).
Proof.
  unfold is_key, tolower, u8, wrap. change (2 ^ 8) with 256. intros Hk Hc.
  destruct ((65 <=? k) && (k <=? 90)) eqn:E.
  - apply andb_true_iff in E. destruct E as [E1 E2].
    apply Z.leb_le in E1. apply Z.leb_le in E2.
    rewrite Z.mod_small by lia. lia.
  - rewrite Z.mod_small by lia.
    apply andb_false_iff in E. destruct E as [E | E];
      [apply Z.leb_gt in E | apply Z.leb_gt in E]; lia.
Qed.

Lemma tolower_escape (k : Z) : is_key k -> (u8 (tolower k) = 0x1B <-> k = 0x1B).
Proof.
  unfold is_key, tolower, u8, wrap. change (2 ^ 8) with 256. intros Hk.
  destruct ((65 <=? k) && (k <=? 90)) eqn:E.
  - apply andb_true_iff in E. destruct E as [E1 E2].
    apply Z.leb_le in E1. apply Z.leb_le in E2.
    rewrite Z.mod_small by lia. lia.
  - rewrite Z.mod_small by lia. lia.
Qed.

Section Around.

Context {W : Type} `{Platform W}.
Variable lat : nat.
Hypothesis Hlive : responsive lat.

Ltac run_prim := do 3 eexists; split; [reflexivity | cbv beta].

Lemma putch_steps fuel c (s : cstate W) :
  (lat <= fuel)%nat ->
  runs (putch fuel c) s
       (fun _ t s' => steps t = [EvOut UART0_THR (u8 c)]
                      /\ console_out [u8 c] s t s').
Proof.
  intros Hf.
  eapply runs_weaken.
  { apply runs_with_eq. apply (putch_runs lat Hlive fuel c s Hf). }
  intros r t s' (E & _ & Hc). split; [|exact Hc].
  revert E. unfold putch.
  destruct (wait_while_runs UART0_LSR tx_busy lat fuel s) as (u & tw & sw & Ew & (vs & v & -> & _) & _);
    [apply Hlive | exact Hf |].
  unfold bind at 1. rewrite Ew. cbn. intros E. injection E as _ <- _.
  now rewrite steps_app, steps_polls.
Qed.

(** The waiting loop on the keyboard ends at the first key [k] that stops
    it, with the keys after [k] left. *)
Lemma await_key_runs (again : Z -> bool) (pre : list Z) (k : Z) (rest : list Z)
    (s : cstate W) :
  Forall (fun c => again (u8 (tolower c)) = true) pre ->
  again (u8 (tolower k)) = false ->
  forall response, again response = true ->
    runs (await_key again (pre ++ k :: rest) response) s
         (fun r t s' => r = (u8 (tolower k), rest) /\ t = [] /\ s' = s).
Proof.
  intros Hpre Hk. induction Hpre as [|c pre Hc Hpre IH]; intros response Hr.
  - cbn [app await_key]. rewrite Hr.
    replace (await_key again rest (u8 (tolower k)))
      with (ret (W := W) (u8 (tolower k), rest))
      by (destruct rest; cbn [await_key]; now rewrite Hk).
    apply runs_ret. auto.
  - cbn [app await_key]. rewrite Hr. apply IH. exact Hc.
Qed.

End Around.

Lemma pairs_length (a b : event) (n : nat) :
  forall k, length (flat_map (fun _ : nat => [a; b]) (seq k n)) = (2 * n)%nat.
Proof.
  induction n as [|n IH]; intros k; cbn [seq flat_map app length];
    [reflexivity | rewrite IH; lia].
Qed.

(** X13: [beep n] sends the bell character as often as [n] says once it
    is converted to the 24-bit [unsigned int] of the parameter, and pauses
    250 ms after each one: [n] times for [n] from 0 to 2^24 - 1, and
    2^24 - 1 times for -1.  It sends nothing else, reads no screen
    character and leaves the program's variables as they are. *)
Theorem beep_rings {W} `{Platform W} (lat fuel : nat) (number : Z)
    (s : cstate W) :
  responsive lat -> (lat <= fuel)%nat ->
  runs (beep fuel number) s
       (fun _ t s' =>
          steps t = flat_map (fun _ => [EvOut UART0_THR 7; EvDelay 250])
                             (seq 0 (Z.to_nat (number mod 2 ^ 24)))
          /\ (0 <= number < 2 ^ 24 ->
              length (steps t) = (2 * Z.to_nat number)%nat)
          /\ ops t = [] /\ screen_reads t = []
          /\ globals s' = globals s).
Proof.
  intros Hlive Hf. unfold beep.
  change (u24 number) with (number mod 2 ^ 24).
  apply runs_weaken with
    (Q := fun (_ : unit) t s' =>
            steps t = flat_map (fun _ => [EvOut UART0_THR 7; EvDelay 250])
                               (seq 0 (Z.to_nat (number mod 2 ^ 24)))
            /\ ops t = [] /\ screen_reads t = []
            /\ globals s' = globals s);
    [|intros [] t s' (Hst & Ho & Hr & Hg);
      split; [exact Hst|]; split; [|auto];
      intros Hn; rewrite Hst, Z.mod_small by exact Hn;
      apply pairs_length].
  eapply runs_weaken.
  { apply (for_loop_runs
             (fun k (_ : unit) t s' =>
                steps t = flat_map (fun _ => [EvOut UART0_THR 7; EvDelay 250])
                                   (seq 0 k)
                /\ ops t = [] /\ screen_reads t = []
                /\ globals s' = globals s)).
    - intros k [] t s1 _ (Hst & Ho & Hr & Hg).
      apply runs_bind. eapply runs_weaken; [apply (putch_steps lat Hlive); exact Hf|].
      intros r tp sp (Hsp & Hop & _ & Hrp & Hgp). cbv beta.
      do 3 eexists. split; [reflexivity|].
      rewrite !steps_app, !ops_app, !screen_reads_app, Hst, Ho, Hr, Hsp, Hop, Hrp.
      rewrite seq_S, flat_map_app. cbn [seq flat_map app Nat.add].
      rewrite ?app_nil_r.
      split; [reflexivity|]. split; [reflexivity|]. split; [reflexivity|].
      rewrite globals_set_plat. congruence.
    - cbn. auto. }
  cbv beta. auto.
Qed.

Lemma beep_rings_witness :
  runs (beep 2 3) (session (board false []) 0)
       (fun _ t s' =>
          steps t = flat_map (fun _ => [EvOut UART0_THR 7; EvDelay 250])
                             (seq 0 3)
          /\ (0 <= 3 < 2 ^ 24 -> length (steps t) = (2 * Z.to_nat 3)%nat)
          /\ ops t = [] /\ screen_reads t = []
          /\ globals s' = globals (session (board false []) 0)).
Proof.
  apply (beep_rings 2 2 3 (session (board false []) 0) sim_responsive). lia.
Defined.

Ltac run_putch lat Hlive Hf :=
  apply runs_bind; eapply runs_weaken;
  [apply (putch_steps lat Hlive); exact Hf|];
  let r := fresh "r" in let t := fresh "t" in let s := fresh "s" in
  let Hst := fresh "Hst" in let Ho := fresh "Ho" in
  let Hr := fresh "Hr" in let Hg := fresh "Hg" in
  intros r t s (Hst & Ho & _ & Hr & Hg); cbv beta.

Ltac run_outstring lat Hlive Hf :=
  apply runs_bind; eapply runs_weaken;
  [apply (outstring_runs lat Hlive); exact Hf|];
  let r := fresh "r" in let t := fresh "t" in let s := fresh "s" in
  let Ho := fresh "Ho" in let Hs := fresh "Hs" in
  let Hr := fresh "Hr" in let Hg := fresh "Hg" in
  intros r t s (Ho & Hs & Hr & Hg); cbv beta.

(** X14: [echoVDP] sends twelve bytes whatever the state of the line: the
    command that turns flow control off, a general poll that carries
    [value], and the request for the screen dimensions; then it pauses
    150 ms.  It reads no screen character and changes no variable of the
    program. *)
Theorem echoVDP_sends {W} `{Platform W} (lat fuel : nat) (value : Z)
    (s : cstate W) :
  responsive lat -> (lat <= fuel)%nat ->
  runs (echoVDP fuel value) s
       (fun _ t s' =>
          steps t = map (EvOut UART0_THR)
                        [23; 0; 0xF9; 1; 1; 23; 0; 0x80; value mod 256;
                         23; 0; 0x86]
                    ++ [EvDelay 150]
          /\ ops t = [] /\ screen_reads t = []
          /\ globals s' = globals s).
Proof.
  intros Hlive Hf. unfold echoVDP.
  do 12 run_putch lat Hlive Hf.
  do 3 eexists. split; [reflexivity|].
  rewrite !steps_app, !ops_app, !screen_reads_app.
  repeat match goal with
         | E : steps _ = _ |- _ => rewrite E; clear E
         | E : ops _ = _ |- _ => rewrite E; clear E
         | E : screen_reads _ = _ |- _ => rewrite E; clear E
         end.
  split.
  { cbn [app map steps filter is_step]. unfold u8, wrap.
    change (2 ^ 8) with 256. rewrite Z.mod_mod by lia. reflexivity. }
  split; [reflexivity|]. split; [reflexivity|].
  rewrite globals_set_plat. congruence.
Qed.

Lemma echoVDP_sends_witness :
  runs (echoVDP 2 1) (session (board false []) 0)
       (fun _ t s' =>
          steps t = map (EvOut UART0_THR)
                        [23; 0; 0xF9; 1; 1; 23; 0; 0x80; 1 mod 256;
                         23; 0; 0x86]
                    ++ [EvDelay 150]
          /\ ops t = [] /\ screen_reads t = []
          /\ globals s' = globals (session (board false []) 0)).
Proof.
  apply (echoVDP_sends 2 2 1 (session (board false []) 0) sim_responsive). lia.
Defined.

(** X15: [getResponse] answers with the first key that is a [y] or an [n]
    in either case, and skips every other key: the result is true for [y]
    or [Y] (121, 89) and false for [n] or [N] (110, 78); the keys after the
    answer are left for later; the prompt is followed by the abort message
    exactly when the answer is no. *)
Theorem getResponse_answer {W} `{Platform W} (lat fuel : nat)
    (pre : list Z) (k : Z) (rest : list Z) (s : cstate W) :
  responsive lat -> (lat <= fuel)%nat ->
  Forall is_key (pre ++ [k]) ->
  Forall (fun c => ~ In c [121; 89; 110; 78]) pre ->
  In k [121; 89; 110; 78] ->
  runs (getResponse fuel (pre ++ k :: rest)) s
       (fun r t s' =>
          r = ((k =? 121) || (k =? 89), rest)
          /\ serial t = str "Flash firmware (y/n)?"
                        ++ (if (k =? 121) || (k =? 89)
                            then [CR; LF; CR; LF]
                            else [CR; LF] ++ str "User abort" ++ [LF; CR; LF; CR])
          /\ ops t = [] /\ globals s' = globals s).
Proof.
  intros Hlive Hf Hkeys Hpre Hk. unfold getResponse.
  apply Forall_app in Hkeys. destruct Hkeys as [Hkp Hkk].
  apply Forall_inv in Hkk.
  run_outstring lat Hlive Hf.
  apply runs_bind. eapply runs_weaken.
  { apply await_key_runs with (pre := pre) (k := k) (rest := rest).
    - rewrite Forall_forall in *. intros c Hc.
      specialize (Hpre c Hc). specialize (Hkp c Hc).
      apply andb_true_iff. split; apply negb_true_iff, Z.eqb_neq; intros E.
      + apply (tolower_key c 121 Hkp) in E; [|lia]. cbn in Hpre. lia.
      + apply (tolower_key c 110 Hkp) in E; [|lia]. cbn in Hpre. lia.
    - assert (Hyn : u8 (tolower k) = 121 \/ u8 (tolower k) = 110).
      { cbn in Hk.
        destruct Hk as [<- | [<- | [<- | [<- | []]]]]; vm_compute; auto. }
      destruct Hyn as [-> | ->]; reflexivity.
    - reflexivity. }
  intros rk tk sk (-> & -> & ->). cbv beta. cbn [fst snd].
  assert (Hres : (u8 (tolower k) =? 121) = ((k =? 121) || (k =? 89))
                 /\ (u8 (tolower k) =? 110) = negb ((k =? 121) || (k =? 89))).
  { cbn in Hk. destruct Hk as [<- | [<- | [<- | [<- | []]]]]; vm_compute; auto. }
  destruct Hres as [Hy Hn]. rewrite Hy, Hn.
  destruct ((k =? 121) || (k =? 89)); cbn [negb];
    run_outstring lat Hlive Hf; apply runs_ret;
    autorewrite with views;
    repeat match goal with
           | E : serial _ = _ |- _ => rewrite E; clear E
           | E : ops _ = _ |- _ => rewrite E; clear E
           end;
    (split; [reflexivity|]); (split; [reflexivity|]);
    (split; [reflexivity | congruence]).
Qed.

Lemma getResponse_answer_witness :
  runs (getResponse 2 ([32; 120] ++ 89 :: [110])) (session (board false []) 0)
       (fun r t s' =>
          r = ((89 =? 121) || (89 =? 89), [110])
          /\ serial t = str "Flash firmware (y/n)?"
                        ++ (if (89 =? 121) || (89 =? 89)
                            then [CR; LF; CR; LF]
                            else [CR; LF] ++ str "User abort" ++ [LF; CR; LF; CR])
          /\ ops t = [] /\ globals s' = globals (session (board false []) 0)).
Proof.
  apply (getResponse_answer 2 2 [32; 120] 89 [110]
           (session (board false []) 0) sim_responsive).
  - lia.
  - repeat constructor; unfold is_key; lia.
  - repeat constructor; cbn; lia.
  - cbn. auto.
Defined.

(** X16: [askEscapeToContinue] returns at the first ESC key (27) and not
    before: the keys in front of it are dropped, those after it are left;
    it prints its prompt and a line end. *)
Theorem askEscapeToContinue_waits {W} `{Platform W} (lat fuel : nat)
    (pre rest : list Z) (s : cstate W) :
  responsive lat -> (lat <= fuel)%nat ->
  Forall is_key pre -> ~ In 0x1B pre ->
  runs (askEscapeToContinue fuel (pre ++ 0x1B :: rest)) s
       (fun r t s' =>
          r = rest
          /\ serial t = str "Press ESC to continue" ++ [CR; LF]
          /\ ops t = [] /\ globals s' = globals s).
Proof.
  intros Hlive Hf Hkeys Hpre. unfold askEscapeToContinue.
  run_outstring lat Hlive Hf.
  apply runs_bind. eapply runs_weaken.
  { apply await_key_runs with (pre := pre) (k := 0x1B) (rest := rest).
    - rewrite Forall_forall in *. intros c Hc.
      apply negb_true_iff, Z.eqb_neq. intros E.
      apply (tolower_escape c (Hkeys c Hc)) in E. now subst c.
    - reflexivity.
    - reflexivity. }
  intros rk tk sk (-> & -> & ->). cbv beta. cbn [fst snd].
  run_outstring lat Hlive Hf. apply runs_ret.
  autorewrite with views.
  repeat match goal with
         | E : serial _ = _ |- _ => rewrite E; clear E
         | E : ops _ = _ |- _ => rewrite E; clear E
         end.
  split; [reflexivity|]. split; [reflexivity|].
  split; [reflexivity | congruence].
Qed.

Lemma askEscapeToContinue_waits_witness :
  runs (askEscapeToContinue 2 ([121; 13] ++ 0x1B :: [65]))
       (session (board false []) 0)
       (fun r t s' =>
          r = [65]
          /\ serial t = str "Press ESC to continue" ++ [CR; LF]
          /\ ops t = [] /\ globals s' = globals (session (board false []) 0)).
Proof.
  apply (askEscapeToContinue_waits 2 2 [121; 13] [65]
           (session (board false []) 0) sim_responsive).
  - lia.
  - repeat constructor; unfold is_key; lia.
  - cbn. lia.
Defined.

(** * The firmware files *)

Lemma take_nth (l : list Z) :
  forall n i, Z.of_nat i < n -> nth i (take n l) 0 = nth i l 0.
Proof.
  induction l as [|x l IH]; intros n i Hi; cbn [take]; [reflexivity|].
  replace (0 <? n) with true by (symmetry; apply Z.ltb_lt; lia).
  destruct i as [|i]; [reflexivity|]. cbn [nth]. apply IH. lia.
Qed.

Lemma buffer_at_nth (l : list Z) (i : nat) :
  buffer_at (map u8 l) (Z.of_nat i) = u8 (nth i l 0).
Proof.
  unfold buffer_at.
  replace (Z.of_nat i <? 0) with false by (symmetry; apply Z.ltb_ge; lia).
  rewrite Nat2Z.id. change 0 with (u8 0) at 1. apply map_nth.
Qed.

Lemma runs_and {W} `{Platform W} {A} (m : M W A) (s : cstate W) P Q :
  runs m s P -> runs m s Q -> runs m s (fun a t s' => P a t s' /\ Q a t s').
Proof.
  intros (a & t & s' & E & HP) (a' & t' & s'' & E' & HQ).
  rewrite E in E'. injection E' as <- <- <-.
  exists a, t, s'. auto.
Qed.

Section Files.

Context {W : Type} `{Platform W}.
Variable lat : nat.
Hypothesis Hlive : responsive lat.
Hypothesis Hrb : reads_back.

(** What was read from the start of a file is what the check sees. *)
Lemma stored_prefix (p n : Z) (l : list Z) (w : W) (i : nat) :
  FLASHSIZE <= p -> p + n <= 2 ^ 24 -> 0 <= n <= BLOCKSIZE ->
  n <= Z.of_nat (length l) -> Z.of_nat i < n ->
  mem_at (hw_store p (take n l) w) p (Z.of_nat i)
  = buffer_at (map u8 l) (Z.of_nat i).
Proof.
  intros Hlo Hhi Hn Hl Hi. unfold mem_at.
  assert (Hlen : Z.of_nat (length (take n l)) = n)
    by (rewrite take_count by lia; lia).
  rewrite u24_small by (unfold FLASHSIZE in *; lia).
  rewrite Hrb by lia.
  now rewrite take_nth, buffer_at_nth by lia.
Qed.

Ltac prefix_at p n data w i :=
  let E := fresh "E" in
  pose proof (stored_prefix p n data w i) as E;
  let z := eval vm_compute in (Z.of_nat i) in
  change (Z.of_nat i) with z in E;
  rewrite E by (unfold BUFFER1, FLASHSIZE, MOS_MAGICLENGTH, BLOCKSIZE in *; lia);
  clear E.

Ltac tail_length :=
  match goal with
  | |- context [length (str ?x ++ ?y)] =>
      let n := eval vm_compute in (length (str x ++ y)) in
      change (length (str x ++ y)) with n; lia
  end.

Lemma complain_runs fuel (name tail : list Z) (s : cstate W) :
  (lat <= fuel)%nat -> (length name + length tail < 254)%nat ->
  runs (complain fuel name tail) s
       (fun r t s' => r = false /\ serial t <> [] /\ ops t = []
                      /\ globals s' = globals s).
Proof.
  intros Hf Hl. unfold complain, sprintf_quoted.
  replace (Nat.ltb (length ([34] ++ name ++ [34] ++ tail)) 256) with true
    by (symmetry; apply Nat.ltb_lt; rewrite !length_app; cbn [length]; lia).
  apply runs_bind. apply runs_ret.
  run_outstring lat Hlive Hf. apply runs_ret.
  autorewrite with views. split; [reflexivity|].
  split; [|split; assumption].
  rewrite Hs. cbn [app c_string]. discriminate.
Qed.

Lemma check_mos_file_runs fuel (o : options) (s : cstate W) :
  (lat <= fuel)%nat -> (length (mosfilename o) <= 200)%nat ->
  (5 <= length (fdata (mosfilehandle s)))%nat ->
  runs (check_mos_file fuel o) s
       (fun v t s' =>
          v = containsMosHeader (buffer_at (map u8 (fdata (mosfilehandle s))))
              && (getFileSize (mosfilehandle s) <=? FLASHSIZE)
          /\ (v = true <-> serial t = [])
          /\ mosfilehandle s' = {| fdata := fdata (mosfilehandle s); fpos := 0 |}
          /\ vdpfilehandle s' = vdpfilehandle s
          /\ settings s' = settings s).
Proof.
  intros Hf Hname Hlen. unfold check_mos_file.
  apply runs_bind. do 3 eexists. split; [reflexivity|]. cbv beta.
  apply runs_bind. do 3 eexists. split; [reflexivity|]. cbv beta.
  apply runs_bind. do 3 eexists. split; [reflexivity|]. cbv beta.
  cbn [plat set_plat set_mosfile mosfilehandle fdata fpos skipn].
  set (data := fdata (mosfilehandle s)) in *.
  assert (Hh : containsMosHeader
                 (mem_at (hw_store BUFFER1 (take MOS_MAGICLENGTH data) (plat s))
                    BUFFER1)
               = containsMosHeader (buffer_at (map u8 data))).
  { rewrite !containsMosHeader_unfold.
    prefix_at BUFFER1 MOS_MAGICLENGTH data (plat s) 0%nat.
    prefix_at BUFFER1 MOS_MAGICLENGTH data (plat s) 1%nat.
    prefix_at BUFFER1 MOS_MAGICLENGTH data (plat s) 2%nat.
    prefix_at BUFFER1 MOS_MAGICLENGTH data (plat s) 3%nat.
    prefix_at BUFFER1 MOS_MAGICLENGTH data (plat s) 4%nat.
    reflexivity. }
  rewrite Hh. clear Hh.
  set (w1 := hw_store BUFFER1 (take MOS_MAGICLENGTH data) (plat s)).
  set (n1 := length (take MOS_MAGICLENGTH data)).
  apply runs_bind.
  eapply runs_weaken with
    (Q := fun v1 t1 s1 =>
            v1 = containsMosHeader (buffer_at (map u8 data))
            /\ (v1 = true <-> serial t1 = [])
            /\ fdata (mosfilehandle s1) = data
            /\ vdpfilehandle s1 = vdpfilehandle s
            /\ settings s1 = settings s).
  { destruct (containsMosHeader (buffer_at (map u8 data))); cbn [negb].
    - apply runs_ret. repeat split.
    - eapply runs_weaken.
      { apply complain_runs; [exact Hf | tail_length]. }
      intros r t s1 (-> & Hs & _ & Hg). split; [reflexivity|].
      split; [split; [discriminate | intros E; contradiction]|].
      unfold globals, settings in *. cbn in Hg.
      injection Hg as Hi _ Hm Hfm Hfv. rewrite Hfm, Hfv, Hi, Hm.
      repeat split. }
  intros v1 t1 s1 (Hv1 & Hs1 & Hd1 & Hvd1 & Hset1). cbv beta.
  apply runs_bind. do 3 eexists. split; [reflexivity|]. cbv beta.
  assert (Hsize : getFileSize (mosfilehandle s1) = getFileSize (mosfilehandle s))
    by (unfold getFileSize; now rewrite Hd1).
  rewrite Hsize.
  apply runs_bind.
  eapply runs_weaken with
    (Q := fun v2 t2 s2 =>
            v2 = v1 && (getFileSize (mosfilehandle s) <=? FLASHSIZE)
            /\ (v2 = true <-> v1 = true /\ serial t2 = [])
            /\ fdata (mosfilehandle s2) = data
            /\ vdpfilehandle s2 = vdpfilehandle s
            /\ settings s2 = settings s).
  { destruct (FLASHSIZE <? getFileSize (mosfilehandle s)) eqn:Es.
    - replace (getFileSize (mosfilehandle s) <=? FLASHSIZE) with false
        by (symmetry; apply Z.leb_gt; now apply Z.ltb_lt).
      eapply runs_weaken.
      { apply complain_runs; [exact Hf | tail_length]. }
      intros r t s2 (-> & Hs & _ & Hg). split; [now rewrite andb_false_r|].
      split; [split; [discriminate | intros (_ & E); contradiction]|].
      unfold globals, settings in *. cbn in Hg.
      injection Hg as Hi _ Hm Hfm Hfv. rewrite Hfm, Hfv, Hi, Hm.
      repeat split; assumption.
    - replace (getFileSize (mosfilehandle s) <=? FLASHSIZE) with true
        by (symmetry; apply Z.leb_le; now apply Z.ltb_ge).
      apply runs_ret. rewrite andb_true_r. repeat split; tauto. }
  intros v2 t2 s2 (Hv2 & Hs2 & Hd2 & Hvd2 & Hset2). cbv beta.
  apply runs_bind. do 3 eexists. split; [reflexivity|]. cbv beta.
  apply runs_ret. autorewrite with views.
  change (serial [EvFread BUFFER1 (Z.of_nat n1)]) with (@nil Z). cbn [app].
  split; [now rewrite Hv2, Hv1|].
  split.
  { rewrite Hs2, Hs1. split.
    - intros (-> & ->). reflexivity.
    - intros E. apply app_eq_nil in E. tauto. }
  cbn [set_mosfile mosfilehandle vdpfilehandle]. rewrite Hd2.
  split; [reflexivity|]. split; [exact Hvd2|exact Hset2].
Qed.

Lemma check_vdp_file_runs fuel (o : options) (buffer : Z) (v0 : bool)
    (s : cstate W) :
  (lat <= fuel)%nat -> (length (vdpfilename o) <= 200)%nat ->
  FLASHSIZE <= buffer -> buffer + 36 <= 2 ^ 24 ->
  (36 <= length (fdata (vdpfilehandle s)))%nat ->
  runs (check_vdp_file fuel o buffer v0) s
       (fun v t s' =>
          v = containsESP32Header (buffer_at (map u8 (fdata (vdpfilehandle s))))
              && v0
          /\ (containsESP32Header (buffer_at (map u8 (fdata (vdpfilehandle s))))
              = true <-> serial t = [])
          /\ vdpfilehandle s' = {| fdata := fdata (vdpfilehandle s); fpos := 0 |}
          /\ mosfilehandle s' = mosfilehandle s
          /\ settings s' = settings s).
Proof.
  intros Hf Hname Hlo Hhi Hlen. unfold check_vdp_file.
  apply runs_bind. do 3 eexists. split; [reflexivity|]. cbv beta.
  apply runs_bind. do 3 eexists. split; [reflexivity|]. cbv beta.
  apply runs_bind. do 3 eexists. split; [reflexivity|]. cbv beta.
  cbn [plat set_plat set_vdpfile vdpfilehandle fdata fpos skipn].
  set (data := fdata (vdpfilehandle s)) in *.
  change (ESP32_MAGICLENGTH + ESP32_MAGICSTART) with 36.
  assert (Hh : containsESP32Header
                 (mem_at (hw_store buffer (take 36 data) (plat s)) buffer)
               = containsESP32Header (buffer_at (map u8 data))).
  { rewrite !containsESP32Header_unfold.
    prefix_at buffer 36 data (plat s) 32%nat.
    prefix_at buffer 36 data (plat s) 33%nat.
    prefix_at buffer 36 data (plat s) 34%nat.
    prefix_at buffer 36 data (plat s) 35%nat.
    reflexivity. }
  rewrite Hh. clear Hh.
  apply runs_bind.
  eapply runs_weaken with
    (Q := fun v t1 s1 =>
            v = containsESP32Header (buffer_at (map u8 data)) && v0
            /\ (containsESP32Header (buffer_at (map u8 data)) = true
                <-> serial t1 = [])
            /\ fdata (vdpfilehandle s1) = data
            /\ mosfilehandle s1 = mosfilehandle s
            /\ settings s1 = settings s).
  { destruct (containsESP32Header (buffer_at (map u8 data))); cbn [negb andb].
    - apply runs_ret. repeat split.
    - eapply runs_weaken.
      { apply complain_runs; [exact Hf | tail_length]. }
      intros r t s1 (-> & Hs & _ & Hg). split; [reflexivity|].
      split; [split; [discriminate | intros E; contradiction]|].
      unfold globals, settings in *. cbn in Hg.
      injection Hg as Hi _ Hm Hfm Hfv. rewrite Hfm, Hfv, Hi, Hm.
      repeat split. }
  intros v t1 s1 (Hv1 & Hs1 & Hd1 & Hm1 & Hset1). cbv beta.
  apply runs_bind. do 3 eexists. split; [reflexivity|]. cbv beta.
  apply runs_ret. autorewrite with views.
  split; [exact Hv1|]. split; [exact Hs1|].
  cbn [set_vdpfile mosfilehandle vdpfilehandle]. rewrite Hd1.
  split; [reflexivity|]. split; [exact Hm1 | exact Hset1].
Qed.

End Files.



(** * The checksums before the update *)

Section Checksums.

Context {W : Type} `{Platform W}.
Variable lat : nat.
Hypothesis Hlive : responsive lat.
Hypothesis Hrb : reads_back.

Lemma read_firmware_result fuel (s : cstate W) :
  (lat <= fuel)%nat -> (unread s < fuel)%nat ->
  BUFFER1 + Z.of_nat (unread s) < 2 ^ 24 ->
  runs (read_firmware fuel) s
       (fun v t s' =>
          v = crc_of (skipn (fpos (mosfilehandle s)) (fdata (mosfilehandle s)))
          /\ crc_results t = [v]
          /\ fdata (mosfilehandle s') = fdata (mosfilehandle s)
          /\ vdpfilehandle s' = vdpfilehandle s
          /\ settings s' = settings s).
Proof.
  intros Hf Hu Hfit. unfold read_firmware.
  apply runs_bind. do 3 eexists. split; [reflexivity|]. cbv beta.
  apply runs_bind. eapply runs_weaken.
  { apply runs_and; [apply runs_and|].
    - apply (read_loop_layout lat Hlive fuel Hf fuel BUFFER1 (set_crc Crc32.init s)).
      exact Hu.
    - apply (read_loop_checksum lat Hlive Hrb fuel Hf fuel BUFFER1
               (set_crc Crc32.init s));
        [exact Hu | unfold FLASHSIZE, BUFFER1; lia | exact Hfit].
    - apply (read_loop_runs lat Hlive fuel Hf fuel BUFFER1 (set_crc Crc32.init s)).
      exact Hu. }
  intros [] t s1 (((_ & _ & _ & _ & Hd & Hv) & Hc) & (Hr & Hset)). cbv beta.
  do 3 eexists. split; [reflexivity|].
  split; [unfold crc_of; now rewrite Hc|].
  split.
  { rewrite !crc_results_app, <- (crc_results_ops t).
    destruct (reads_views _ Hr) as (-> & _). reflexivity. }
  split; [exact Hd|]. split; [exact Hv | exact Hset].
Qed.

Lemma read_loop_vdp_runs fuel0 :
  (lat <= fuel0)%nat ->
  forall fuel (s : cstate W),
    (unread_vdp s < fuel)%nat ->
    runs (read_loop_vdp fuel0 fuel) s
         (fun _ t s' =>
            crc s' = Crc32.feed (crc s)
                       (skipn (fpos (vdpfilehandle s)) (fdata (vdpfilehandle s)))
            /\ crc_results t = []
            /\ fdata (vdpfilehandle s') = fdata (vdpfilehandle s)
            /\ mosfilehandle s' = mosfilehandle s
            /\ settings s' = settings s).
Proof.
  intros Hf. induction fuel as [|fuel IH]; intros s Hu; [lia|].
  cbn [read_loop_vdp]. apply runs_bind. do 3 eexists. split; [reflexivity|].
  cbv beta.
  set (rest := skipn (fpos (vdpfilehandle s)) (fdata (vdpfilehandle s))).
  set (chunk := take BLOCKSIZE rest).
  assert (Hgot : Z.of_nat (length chunk)
                 = Z.min BLOCKSIZE (Z.of_nat (unread_vdp s))).
  { unfold chunk, rest, unread_vdp. rewrite take_count by (unfold BLOCKSIZE; lia).
    now rewrite length_skipn. }
  destruct (0 <? Z.of_nat (length chunk)) eqn:E.
  - apply Z.ltb_lt in E.
    apply runs_bind. do 3 eexists. split; [reflexivity|]. cbv beta.
    apply runs_bind. eapply runs_weaken; [apply (putch_runs lat Hlive); exact Hf|].
    intros r tp sp (_ & Hop & _ & _ & Hg). cbv beta.
    assert (Hmem : mem_bytes (hw_store BUFFER1 chunk (plat s)) BUFFER1
                     (Z.of_nat (length chunk)) = map u8 chunk).
    { unfold mem_bytes. rewrite Nat2Z.id, <- map_nth_seq.
      apply map_ext_in. intros i Hi. apply in_seq in Hi.
      rewrite u24_small by (unfold BUFFER1, BLOCKSIZE in *; lia).
      apply Hrb; unfold BUFFER1, FLASHSIZE, BLOCKSIZE in *; lia. }
    unfold globals in Hg. cbn in Hg. injection Hg as Hi Hc Hmc Hm Hv.
    fold rest in Hv. fold chunk in Hv, Hc.
    assert (Hup : unread_vdp sp = (unread_vdp s - length chunk)%nat).
    { unfold unread_vdp. rewrite Hv. cbn [fdata fpos]. lia. }
    eapply runs_weaken; [apply IH; lia|].
    intros [] t2 s2 (Hc2 & Hr2 & Hd2 & Hm2 & Hset2).
    split.
    { rewrite Hc2, Hc, Hmem, feed_u8, Hv. cbn [fdata fpos].
      rewrite <- feed_app. f_equal.
      rewrite Nat.add_comm, <- skipn_skipn. fold rest.
      unfold chunk. now rewrite take_skipn. }
    split.
    { rewrite !crc_results_app, Hr2, <- (crc_results_ops tp), Hop. reflexivity. }
    split; [rewrite Hd2, Hv; reflexivity|].
    split; [congruence|].
    rewrite Hset2. unfold settings. now rewrite Hi, Hmc.
  - apply Z.ltb_ge in E. apply runs_ret.
    cbn [crc set_vdpfile set_plat vdpfilehandle mosfilehandle fdata].
    assert (Hz : length rest = 0%nat).
    { unfold rest. rewrite length_skipn. fold (unread_vdp s).
      unfold BLOCKSIZE in *. lia. }
    destruct rest; [|discriminate]. repeat split.
Qed.

Lemma crc_mos_file_runs fuel (s : cstate W) :
  (lat <= fuel)%nat -> (length (fdata (mosfilehandle s)) < fuel)%nat ->
  BUFFER1 + Z.of_nat (length (fdata (mosfilehandle s))) < 2 ^ 24 ->
  runs (crc_mos_file fuel) s
       (fun _ t s' =>
          moscrc s' = crc_of (fdata (mosfilehandle s))
          /\ mosfilehandle s' = {| fdata := fdata (mosfilehandle s); fpos := 0 |}
          /\ vdpfilehandle s' = vdpfilehandle s
          /\ ief s' = ief s).
Proof.
  intros Hf Hu Hfit. unfold crc_mos_file.
  apply runs_bind. do 3 eexists. split; [reflexivity|]. cbv beta.
  apply runs_bind. eapply runs_weaken.
  { apply read_firmware_result; [exact Hf | |]; unfold unread;
      cbn [set_mosfile mosfilehandle fdata fpos]; lia. }
  intros v t s1 (Hv & _ & Hd & Hvd & Hset). cbv beta.
  apply runs_bind. do 3 eexists. split; [reflexivity|]. cbv beta.
  do 3 eexists. split; [reflexivity|].
  cbn in Hv, Hd, Hvd. unfold settings in Hset. cbn in Hset.
  injection Hset as Hi _.
  cbn. rewrite Hd. auto.
Qed.

Lemma crc_vdp_file_runs fuel (s : cstate W) :
  (lat <= fuel)%nat -> (length (fdata (vdpfilehandle s)) < fuel)%nat ->
  runs (crc_vdp_file fuel) s
       (fun v t s' =>
          v = crc_of (fdata (vdpfilehandle s))
          /\ vdpfilehandle s' = {| fdata := fdata (vdpfilehandle s); fpos := 0 |}
          /\ mosfilehandle s' = mosfilehandle s
          /\ settings s' = settings s).
Proof.
  intros Hf Hu. unfold crc_vdp_file.
  apply runs_bind. do 3 eexists. split; [reflexivity|]. cbv beta.
  apply runs_bind. do 3 eexists. split; [reflexivity|]. cbv beta.
  apply runs_bind. eapply runs_weaken.
  { apply (read_loop_vdp_runs fuel Hf); unfold unread_vdp;
      cbn [set_crc set_vdpfile vdpfilehandle fdata fpos]; lia. }
  intros [] t s1 (Hc & _ & Hd & Hm & Hset). cbv beta.
  apply runs_bind. do 3 eexists. split; [reflexivity|]. cbv beta.
  apply runs_bind. do 3 eexists. split; [reflexivity|]. cbv beta.
  apply runs_ret.
  cbn in Hc, Hd, Hm, Hset. cbn [set_vdpfile vdpfilehandle mosfilehandle].
  split; [unfold crc_of; now rewrite Hc|].
  split; [now rewrite Hd|]. split; [exact Hm | exact Hset].
Qed.

End Checksums.



Lemma runs_bind_inv {W} `{Platform W} {A B} (m : M W A) (f : A -> M W B)
    (s : cstate W) Q :
  runs (bind m f) s Q ->
  runs m s (fun a t1 s1 => runs (f a) s1 (fun b t2 s2 => Q b (t1 ++ t2) s2)).
Proof.
  intros (b & t & s' & E & HQ). unfold bind in E.
  destruct (m s) as [[[a t1] s1]|] eqn:E1; [|discriminate].
  destruct (f a s1) as [[[b' t2] s2]|] eqn:E2; [|discriminate].
  injection E as <- <- <-.
  exists a, t1, s1. split; [exact E1|]. exists b', t2, s2. auto.
Qed.

Section StagingCheck.

Context {W : Type} `{Platform W}.
Variable lat : nat.
Hypothesis Hlive : responsive lat.
Hypothesis Hrb : reads_back.

(** A step of a run that is known to go through: what [spec] says of the
    first action is added to what is known of the rest. *)
Ltac peel Hrun spec a t s HP :=
  apply runs_bind_inv in Hrun;
  let E := fresh "E" in
  destruct (runs_and _ _ _ _ spec Hrun) as (a & t & s & E & HP & Hrun');
  clear Hrun; rename Hrun' into Hrun;
  apply runs_bind; exists a, t, s; split; [exact E | cbv beta in Hrun |- *].

Lemma update_mos_attempts_staged fuel (s : cstate W) Q :
  (lat <= fuel)%nat -> (unread s < fuel)%nat ->
  BUFFER1 + Z.of_nat (unread s) < 2 ^ 24 ->
  runs (update_mos_attempts fuel) s Q ->
  runs (update_mos_attempts fuel) s
       (fun r t s' =>
          Q r t s'
          /\ exists rest,
              crc_results t
              = crc_of (skipn (fpos (mosfilehandle s)) (fdata (mosfilehandle s)))
                :: rest).
Proof.
  intros Hf Hu Hfit Hrun. unfold update_mos_attempts in *.
  peel Hrun (putch_runs lat Hlive fuel 12 s Hf) a1 t1 s1 HP1.
  destruct HP1 as (_ & Ho1 & _ & _ & Hg1).
  peel Hrun (outstring_runs lat Hlive fuel
               (str "Agon firmware update utility v1.9" ++ [LF; CR; LF; CR])
               Hf s1) a2 t2 s2 HP2.
  destruct HP2 as (Ho2 & _ & _ & Hg2).
  peel Hrun (outstring_runs lat Hlive fuel
               (str "Programming MOS firmware to ez80 flash..."
                ++ [CR; LF; CR; LF]) Hf s2) a3 t3 s3 HP3.
  destruct HP3 as (Ho3 & _ & _ & Hg3).
  peel Hrun (outstring_runs lat Hlive fuel (str "Reading MOS firmware") Hf s3)
       a4 t4 s4 HP4.
  destruct HP4 as (Ho4 & _ & _ & Hg4).
  assert (Hg : globals s4 = globals s) by congruence.
  apply runs_bind_inv in Hrun.
  destruct Hrun as (a5 & t5 & s5 & E5 & Hrun). injection E5 as <- <- <-.
  apply runs_bind. do 3 eexists. split; [reflexivity|].
  cbv beta in Hrun |- *.
  assert (Hu4 : unread s4 = unread s) by (now apply globals_unread).
  assert (Hrf : runs (read_firmware fuel) s4
                  (fun v t _ =>
                     v = crc_of (skipn (fpos (mosfilehandle s4))
                                   (fdata (mosfilehandle s4)))
                     /\ crc_results t = [v])).
  { eapply runs_weaken.
    - apply (read_firmware_result lat Hlive Hrb fuel s4 Hf); rewrite Hu4; assumption.
    - cbv beta. intros v t s' (Hv & Hc & _). auto. }
  peel Hrun Hrf v t6 s6 HP6.
  destruct HP6 as (Hv & Hc6).
  destruct Hrun as (r & t7 & s7 & E7 & HQ).
  exists r, t7, s7. split; [exact E7|]. split; [exact HQ|].
  exists (crc_results t7).
  rewrite !crc_results_app.
  rewrite <- (crc_results_ops t1), <- (crc_results_ops t2),
    <- (crc_results_ops t3), <- (crc_results_ops t4), Ho1, Ho2, Ho3, Ho4, Hc6.
  cbn [crc_results flat_map app]. f_equal. rewrite Hv.
  unfold globals in Hg. injection Hg as _ _ _ Hm _. now rewrite Hm.
Qed.

End StagingCheck.


